(** * Qurious chat client: conversation state, query history and backend calls

    A shallow embedding of [src/components/chat-interface.tsx].  The React
    component is modelled as a record of its state variables and one
    transition function per handler; the browser facilities it calls
    ([String.prototype.trim], [Date], [JSON], [localStorage], [fetch]) are
    modelled in the modules that come first.

    JavaScript strings are sequences of UTF-16 code units, so they are
    lists of [N] here; [js "..."] turns an ASCII literal into one.

    Left out: [testBackendConnection], the toggle of the history panel and
    the scrolling effect, which touch none of the state the statements
    below are about. *)

From Stdlib Require Import ZArith NArith String Ascii Lia.
From Stdlib Require DecimalN DecimalPos.
From stdpp Require Import base numbers option list gmap.

Open Scope Z_scope.

(* ===================================================================== *)
(** ** JavaScript strings *)
(* ===================================================================== *)

Module JS.

Abbreviation jsstring := (list N).

Fixpoint js (s : string) : jsstring :=
  match s with
  | EmptyString => []
  | String a r => N_of_ascii a :: js r
  end.

Definition ch (a : ascii) : N := N_of_ascii a.

(** ECMAScript WhiteSpace and LineTerminator code points, the ones
    [String.prototype.trim] strips. *)
Definition is_white_space (c : N) : bool :=
  existsb (N.eqb c)
    [0x09; 0x0B; 0x0C; 0x20; 0xA0; 0x1680; 0x202F; 0x205F; 0x3000; 0xFEFF]%N
  || ((0x2000 <=? c)%N && (c <=? 0x200A)%N).

Definition is_line_terminator (c : N) : bool :=
  existsb (N.eqb c) [0x0A; 0x0D; 0x2028; 0x2029]%N.

Definition is_trimmed_char (c : N) : bool :=
  is_white_space c || is_line_terminator c.

Fixpoint trimStart (s : jsstring) : jsstring :=
  match s with
  | c :: r => if is_trimmed_char c then trimStart r else s
  | [] => []
  end.

Definition trimEnd (s : jsstring) : jsstring :=
  reverse (trimStart (reverse s)).

Definition trim (s : jsstring) : jsstring := trimEnd (trimStart s).

(** [s.includes(p)] *)
Fixpoint starts_with (p s : jsstring) : bool :=
  match p, s with
  | [], _ => true
  | a :: p', b :: s' => N.eqb a b && starts_with p' s'
  | _ :: _, [] => false
  end.

Fixpoint includes (s p : jsstring) : bool :=
  starts_with p s ||
  match s with
  | [] => false
  | _ :: r => includes r p
  end.

(** Decimal digits of a natural number, as [Number.prototype.toString]
    prints an integer. *)
Fixpoint uint_digits (u : Decimal.uint) : jsstring :=
  match u with
  | Decimal.Nil => []
  | Decimal.D0 r => 48%N :: uint_digits r
  | Decimal.D1 r => 49%N :: uint_digits r
  | Decimal.D2 r => 50%N :: uint_digits r
  | Decimal.D3 r => 51%N :: uint_digits r
  | Decimal.D4 r => 52%N :: uint_digits r
  | Decimal.D5 r => 53%N :: uint_digits r
  | Decimal.D6 r => 54%N :: uint_digits r
  | Decimal.D7 r => 55%N :: uint_digits r
  | Decimal.D8 r => 56%N :: uint_digits r
  | Decimal.D9 r => 57%N :: uint_digits r
  end.

Definition N_toString (n : N) : jsstring := uint_digits (N.to_uint n).

Definition Z_toString (z : Z) : jsstring :=
  if z <? 0 then ch "-" :: N_toString (Z.abs_N z) else N_toString (Z.abs_N z).

Definition is_digit (c : N) : bool := (48 <=? c)%N && (c <=? 57)%N.

End JS.

Import JS.

(* ===================================================================== *)
(** ** Dates

    A [Date] object holds a time value: an integral number of milliseconds
    since the epoch, within +-8.64e15, or NaN (an Invalid Date), which is
    [None] here.  The functions carry the names of the ECMAScript abstract
    operations they follow. *)
(* ===================================================================== *)

Module JSDate.

Abbreviation Date := (option Z).

Definition msPerDay : Z := 86400000.
Definition maxTime : Z := 8640000000000000.

Definition Day (t : Z) : Z := t / msPerDay.
Definition TimeWithinDay (t : Z) : Z := t mod msPerDay.

Definition DayFromYear (y : Z) : Z :=
  365 * (y - 1970) + (y - 1969) / 4 - (y - 1901) / 100 + (y - 1601) / 400.

Definition InLeapYear (y : Z) : bool :=
  ((y mod 4 =? 0) && negb (y mod 100 =? 0)) || (y mod 400 =? 0).

Definition DaysInYear (y : Z) : Z := if InLeapYear y then 366 else 365.

(** The year holding day number [d]: the largest [y] with
    [DayFromYear y <= d].  The estimate from the mean year length is off by
    at most one. *)
Definition YearFromDay (d : Z) : Z :=
  let y0 := 1970 + (400 * d) / 146097 in
  if DayFromYear (y0 + 1) <=? d then y0 + 1
  else if DayFromYear y0 <=? d then y0 else y0 - 1.

(** First day-within-year of month [m] (0-based; [m = 12] gives the length
    of the year). *)
Definition MonthStart (leap : bool) (m : Z) : Z :=
  let l := if leap then 1 else 0 in
  if m <=? 0 then 0 else
  if m =? 1 then 31 else
  if m =? 2 then 59 + l else
  if m =? 3 then 90 + l else
  if m =? 4 then 120 + l else
  if m =? 5 then 151 + l else
  if m =? 6 then 181 + l else
  if m =? 7 then 212 + l else
  if m =? 8 then 243 + l else
  if m =? 9 then 273 + l else
  if m =? 10 then 304 + l else
  if m =? 11 then 334 + l else 365 + l.

Definition MonthFromDayInYear (leap : bool) (doy : Z) : Z :=
  if doy <? MonthStart leap 1 then 0 else
  if doy <? MonthStart leap 2 then 1 else
  if doy <? MonthStart leap 3 then 2 else
  if doy <? MonthStart leap 4 then 3 else
  if doy <? MonthStart leap 5 then 4 else
  if doy <? MonthStart leap 6 then 5 else
  if doy <? MonthStart leap 7 then 6 else
  if doy <? MonthStart leap 8 then 7 else
  if doy <? MonthStart leap 9 then 8 else
  if doy <? MonthStart leap 10 then 9 else
  if doy <? MonthStart leap 11 then 10 else 11.

Definition DaysInMonth (leap : bool) (m : Z) : Z :=
  MonthStart leap (m + 1) - MonthStart leap m.

Definition YearFromTime (t : Z) : Z := YearFromDay (Day t).
Definition DayWithinYear (t : Z) : Z := Day t - DayFromYear (YearFromTime t).
Definition MonthFromTime (t : Z) : Z :=
  MonthFromDayInYear (InLeapYear (YearFromTime t)) (DayWithinYear t).
Definition DateFromTime (t : Z) : Z :=
  DayWithinYear t
  - MonthStart (InLeapYear (YearFromTime t)) (MonthFromTime t) + 1.
Definition HourFromTime (t : Z) : Z := TimeWithinDay t / 3600000.
Definition MinFromTime (t : Z) : Z := (TimeWithinDay t / 60000) mod 60.
Definition SecFromTime (t : Z) : Z := (TimeWithinDay t / 1000) mod 60.
Definition msFromTime (t : Z) : Z := TimeWithinDay t mod 1000.

Definition MakeTime (h m s ms : Z) : Z :=
  h * 3600000 + m * 60000 + s * 1000 + ms.
Definition MakeDay (y m dt : Z) : Z :=
  DayFromYear y + MonthStart (InLeapYear y) m + dt - 1.
Definition MakeDate (day time : Z) : Z := day * msPerDay + time.
Definition TimeClip (t : Z) : Date :=
  if Z.abs t <=? maxTime then Some t else None.

(** Fixed-width decimal fields. *)
Definition digit (k : Z) : N := Z.to_N (48 + k).

Fixpoint pad (w : nat) (n : Z) : jsstring :=
  match w with
  | O => []
  | S w' => digit (n / 10 ^ Z.of_nat w') :: pad w' (n mod 10 ^ Z.of_nat w')
  end.

Fixpoint read_digits (w : nat) (acc : Z) (s : jsstring)
  : option (Z * jsstring) :=
  match w with
  | O => Some (acc, s)
  | S w' =>
      match s with
      | c :: r =>
          if is_digit c then read_digits w' (10 * acc + (Z.of_N c - 48)) r
          else None
      | [] => None
      end
  end.

Definition expect (c : N) (s : jsstring) : option jsstring :=
  match s with
  | x :: r => if N.eqb x c then Some r else None
  | [] => None
  end.

(** [Date.prototype.toISOString] on a valid time value:
    [YYYY-MM-DDTHH:mm:ss.sssZ], with a sign and six digits for years outside
    0..9999. *)
Definition year_field (y : Z) : jsstring :=
  if (0 <=? y) && (y <=? 9999) then pad 4 y
  else (if y <? 0 then ch "-" else ch "+") :: pad 6 (Z.abs y).

Definition toISOString (t : Z) : jsstring :=
  year_field (YearFromTime t)
  ++ ch "-" :: pad 2 (MonthFromTime t + 1)
  ++ ch "-" :: pad 2 (DateFromTime t)
  ++ ch "T" :: pad 2 (HourFromTime t)
  ++ ch ":" :: pad 2 (MinFromTime t)
  ++ ch ":" :: pad 2 (SecFromTime t)
  ++ ch "." :: pad 3 (msFromTime t)
  ++ [ch "Z"].

Definition parse_year (s : jsstring) : option (Z * jsstring) :=
  match s with
  | c :: r =>
      if N.eqb c (ch "+") then read_digits 6 0 r
      else if N.eqb c (ch "-") then
        '(y, r') ← read_digits 6 0 r;
        if y =? 0 then None else Some (- y, r')
      else read_digits 4 0 s
  | [] => None
  end.

(** The last instant of a day may be written as hour 24. *)
Definition hour_ok (h mi sec ms : Z) : bool :=
  (h <=? 23) || ((h =? 24) && (mi =? 0) && (sec =? 0) && (ms =? 0)).

Definition fields_ok (y mo d h mi sec ms : Z) : bool :=
  (1 <=? mo) && (mo <=? 12) && (1 <=? d)
  && (d <=? DaysInMonth (InLeapYear y) (mo - 1))
  && (mi <=? 59) && (sec <=? 59) && hour_ok h mi sec ms.

(** [Date.parse] on the complete form of the date-time format, the one
    [toISOString] writes; [None] for every other string.  The shorter forms
    of the format, days past the end of a month and the strings engines
    read by rules of their own are left to [JSON.Date_parse]. *)
Definition parse (s : jsstring) : Date :=
  '(y, s) ← parse_year s;
  s ← expect (ch "-") s;
  '(mo, s) ← read_digits 2 0 s;
  s ← expect (ch "-") s;
  '(d, s) ← read_digits 2 0 s;
  s ← expect (ch "T") s;
  '(h, s) ← read_digits 2 0 s;
  s ← expect (ch ":") s;
  '(mi, s) ← read_digits 2 0 s;
  s ← expect (ch ":") s;
  '(sec, s) ← read_digits 2 0 s;
  s ← expect (ch ".") s;
  '(ms, s) ← read_digits 3 0 s;
  s ← expect (ch "Z") s;
  match s with
  | [] =>
      if fields_ok y mo d h mi sec ms
      then TimeClip (MakeDate (MakeDay y (mo - 1) d) (MakeTime h mi sec ms))
      else None
  | _ :: _ => None
  end.

End JSDate.

Import JSDate.

(* ===================================================================== *)
(** ** JSON values, [JSON.stringify] and [JSON.parse] *)
(* ===================================================================== *)

Module JSON.

(** A JSON number is kept as the decimal [mant * 10 ^ expo] its literal
    writes; what the program sees of it is its Number value, below. *)
Record number := Num { mant : Z; expo : Z }.

(** *** Number values

    The Number value of a literal is the IEEE 754 double nearest to the
    decimal it writes, ties going to the even significand: [Finite s m e]
    is [m * 2 ^ e], with [2 ^ 52 <= m < 2 ^ 53] and [-1074 <= e <= 971], or
    [m < 2 ^ 52] and [e = -1074] (zero and the subnormals).  The sign of a
    zero is not kept: nothing here can tell the two zeros apart. *)
Inductive double :=
| Finite (negative : bool) (m e : Z)
| Infinity (negative : bool).

Definition round_half_even (num den : Z) : Z :=
  let q := num / den in
  match 2 * (num mod den) ?= den with
  | Lt => q
  | Gt => q + 1
  | Eq => if Z.even q then q else q + 1
  end.

(** [num / den] in units of [2 ^ e], rounded. *)
Definition in_units (num den e : Z) : Z :=
  if 0 <=? e then round_half_even num (den * 2 ^ e)
  else round_half_even (num * 2 ^ (- e)) den.

(** The integer part of the binary logarithm of [num / den]. *)
Definition ilog2 (num den : Z) : Z :=
  let l := Z.log2 num - Z.log2 den in
  if (if 0 <=? l then den * 2 ^ l <=? num else den <=? num * 2 ^ (- l))
  then l else l - 1.

(** The double nearest to the positive [num / den]; [None] past the
    largest one. *)
Definition round_positive (num den : Z) : option (Z * Z) :=
  let e := Z.max (ilog2 num den - 52) (-1074) in
  let m := in_units num den e in
  let '(m, e) := if m =? 2 ^ 53 then (2 ^ 52, e + 1) else (m, e) in
  if 971 <? e then None else Some (m, e).

Definition Number_value (x : number) : double :=
  if mant x =? 0 then Finite false 0 (-1074)
  else
    let '(num, den) :=
      if 0 <=? expo x then (Z.abs (mant x) * 10 ^ expo x, 1)
      else (Z.abs (mant x), 10 ^ (- expo x)) in
    match round_positive num den with
    | Some (m, e) =>
        if m =? 0 then Finite false 0 (-1074) else Finite (mant x <? 0) m e
    | None => Infinity (mant x <? 0)
    end.

Definition double_eqb (a b : double) : bool :=
  match a, b with
  | Finite s m e, Finite s' m' e' => Bool.eqb s s' && (m =? m') && (e =? e')
  | Infinity s, Infinity s' => Bool.eqb s s'
  | _, _ => false
  end.

Definition is_zero (d : double) : bool :=
  match d with
  | Finite _ m _ => m =? 0
  | Infinity _ => false
  end.

Definition is_finite (d : double) : bool :=
  match d with
  | Finite _ _ _ => true
  | Infinity _ => false
  end.

#[local] Unset Elimination Schemes.
Inductive json :=
| JNull
| JBool (b : bool)
| JNum (n : number)
| JStr (s : jsstring)
| JArr (l : list json)
| JObj (l : list (jsstring * json)).
#[local] Set Elimination Schemes.

Fixpoint str_eqb (a b : jsstring) : bool :=
  match a, b with
  | [], [] => true
  | x :: a', y :: b' => N.eqb x y && str_eqb a' b'
  | _, _ => false
  end.

(** *** Objects: property lists in the order [OrdinaryOwnPropertyKeys]
    enumerates them (array indices ascending, then the other keys in the
    order they were created). *)

Fixpoint decimal_value (acc : N) (s : jsstring) : option N :=
  match s with
  | [] => Some acc
  | c :: r => if is_digit c then decimal_value (10 * acc + (c - 48))%N r
              else None
  end.

Definition array_index (k : jsstring) : option N :=
  match k with
  | [] => None
  | c :: r =>
      if N.eqb c 48 && negb (str_eqb r []) then None
      else
        match decimal_value 0 k with
        | Some n => if (n <=? 4294967294)%N then Some n else None
        | None => None
        end
  end.

Section Objects.
Context {V : Type}.

Fixpoint obj_get (k : jsstring) (o : list (jsstring * V)) : option V :=
  match o with
  | [] => None
  | (k', v) :: r => if str_eqb k k' then Some v else obj_get k r
  end.

Fixpoint obj_replace (k : jsstring) (v : V) (o : list (jsstring * V))
  : list (jsstring * V) :=
  match o with
  | [] => []
  | (k', v') :: r =>
      if str_eqb k k' then (k', v) :: r else (k', v') :: obj_replace k v r
  end.

Fixpoint insert_index (i : N) (k : jsstring) (v : V)
  (o : list (jsstring * V)) : list (jsstring * V) :=
  match o with
  | [] => [(k, v)]
  | (k', v') :: r =>
      match array_index k' with
      | Some j =>
          if (j <? i)%N then (k', v') :: insert_index i k v r
          else (k, v) :: o
      | None => (k, v) :: o
      end
  end.

(** [CreateDataProperty]: an existing property keeps its place. *)
Definition obj_set (k : jsstring) (v : V) (o : list (jsstring * V))
  : list (jsstring * V) :=
  match obj_get k o with
  | Some _ => obj_replace k v o
  | None =>
      match array_index k with
      | Some i => insert_index i k v o
      | None => o ++ [(k, v)]
      end
  end.

Definition build_object (l : list (jsstring * V)) : list (jsstring * V) :=
  foldl (fun o kv => obj_set kv.1 kv.2 o) [] l.
End Objects.

(** *** Conversions the component applies to untyped response data *)

Definition truthy (v : json) : bool :=
  match v with
  | JNull => false
  | JBool b => b
  | JNum n => negb (is_zero (Number_value n))
  | JStr s => negb (str_eqb s [])
  | JArr _ | JObj _ => true
  end.

(** [v.k] on a value that came out of [JSON.parse]: [None] is a thrown
    TypeError (only [null] has no properties), [Some None] is [undefined]. *)
Definition get_prop (v : json) (k : jsstring) : option (option json) :=
  match v with
  | JNull => None
  | JObj o => Some (obj_get k o)
  | _ => Some None
  end.

(** [a || b] where [a] may be [undefined]. *)
Definition or_else (a : option json) (b : json) : json :=
  match a with
  | Some v => if truthy v then v else b
  | None => b
  end.

(** [Number::toString]: the digits [ds] and the exponent [n] of the
    shortest decimal [0.ds * 10 ^ n] whose Number value is the double, the
    nearest to it when there are several. *)
Definition decimal_length (n : Z) : Z :=
  Z.of_nat (length (N_toString (Z.to_N n))).

(** [n] with [10 ^ (n - 1) <= num / den < 10 ^ n]. *)
Definition decimal_exponent (num den : Z) : Z :=
  if den <=? num then decimal_length (num / den)
  else
    let l := decimal_length (den / num) in
    if den =? num * 10 ^ (l - 1) then 2 - l else 1 - l.

Definition candidate (m e num den n0 k : Z) : option (Z * Z) :=
  let p := n0 - k in
  let '(a, b) := if 0 <=? p then (num, den * 10 ^ p) else (num * 10 ^ (- p), den) in
  let lo := a / b in
  let ok s := double_eqb (Number_value (Num s p)) (Finite false m e) in
  let pick_lo :=
    match 2 * (a mod b) ?= b with
    | Lt => true
    | Gt => false
    | Eq => Z.even lo
    end in
  match ok lo, ok (lo + 1) with
  | true, true => Some (if pick_lo then lo else lo + 1, p)
  | true, false => Some (lo, p)
  | false, true => Some (lo + 1, p)
  | false, false => None
  end.

Fixpoint shortest_from (fuel : nat) (m e num den n0 k : Z) : Z * Z :=
  match fuel with
  | O => (0, 0)
  | S f =>
      match candidate m e num den n0 k with
      | Some sp => sp
      | None => shortest_from f m e num den n0 (k + 1)
      end
  end.

Fixpoint strip_zeros (rev_digits : jsstring) : jsstring :=
  match rev_digits with
  | c :: r => if N.eqb c 48 then strip_zeros r else rev_digits
  | [] => []
  end.

Definition shortest (m e : Z) : jsstring * Z :=
  let '(num, den) := if 0 <=? e then (m * 2 ^ e, 1) else (m, 2 ^ (- e)) in
  let '(s, p) := shortest_from 17 m e num den (decimal_exponent num den) 1 in
  let ds := N_toString (Z.to_N s) in
  (reverse (strip_zeros (reverse ds)), p + Z.of_nat (length ds)).

Definition number_format (ds : jsstring) (n : Z) : jsstring :=
  let k := Z.of_nat (length ds) in
  if (k <=? n) && (n <=? 21) then ds ++ replicate (Z.to_nat (n - k)) 48%N
  else if (0 <? n) && (n <=? 21)
  then take (Z.to_nat n) ds ++ ch "." :: drop (Z.to_nat n) ds
  else if (-6 <? n) && (n <=? 0)
  then js "0." ++ replicate (Z.to_nat (- n)) 48%N ++ ds
  else
    let ex :=
      (if n - 1 <? 0 then js "-" else js "+") ++ N_toString (Z.abs_N (n - 1)) in
    match ds with
    | [d] => d :: ch "e" :: ex
    | d :: r => d :: ch "." :: r ++ ch "e" :: ex
    | [] => []
    end.

Definition double_toString (d : double) : jsstring :=
  match d with
  | Infinity neg => (if neg then js "-" else []) ++ js "Infinity"
  | Finite neg m e =>
      if m =? 0 then js "0"
      else
        let '(ds, n) := shortest m e in
        (if neg then js "-" else []) ++ number_format ds n
  end.

Definition number_toString (x : number) : jsstring :=
  double_toString (Number_value x).

Fixpoint join (sep : jsstring) (l : list jsstring) : jsstring :=
  match l with
  | [] => []
  | [x] => x
  | x :: r => x ++ sep ++ join sep r
  end.

(** [ToString], as a template literal and [new Error(v)] apply it to a
    value that came out of [JSON.parse]; [None] is a thrown TypeError.  An
    object is converted by the [toString] it finds: its own property of
    that name, which no JSON value can make callable, or else
    [Object.prototype.toString]; [valueOf] never gives a primitive.  An
    array is converted by [Array.prototype.join], which converts its
    elements. *)
Fixpoint ToString (v : json) : option jsstring :=
  match v with
  | JNull => Some (js "null")
  | JBool true => Some (js "true")
  | JBool false => Some (js "false")
  | JNum n => Some (number_toString n)
  | JStr s => Some s
  | JArr l =>
      join (js ",")
      <$> (fix elements (l : list json) : option (list jsstring) :=
             match l with
             | [] => Some []
             | x :: r =>
                 t ← match x with JNull => Some [] | _ => ToString x end;
                 ts ← elements r;
                 Some (t :: ts)
             end) l
  | JObj o =>
      match obj_get (js "toString") o with
      | Some _ => None
      | None => Some (js "[object Object]")
      end
  end.

(** [ToIntegerOrInfinity] of a finite double: towards zero. *)
Definition double_to_integer (negative : bool) (m e : Z) : Z :=
  let i := if 0 <=? e then m * 2 ^ e else m / 2 ^ (- e) in
  if negative then - i else i.

(** [Date.parse]: every engine reads the form [toISOString] writes as
    [JSDate.parse] does; what it makes of any other string (the shorter
    forms of the format, local times, formats of its own) is its own
    affair, [heuristics]. *)
Definition Date_parse (heuristics : jsstring -> Date) (s : jsstring) : Date :=
  match JSDate.parse s with
  | Some t => Some t
  | None => heuristics s
  end.

(** [new Date(v)] for [v] a parsed value or [undefined]; [None] is a
    thrown TypeError.  An object or array is first converted to a
    primitive, which gives the string [ToString] gives. *)
Definition new_Date (heuristics : jsstring -> Date) (v : option json)
  : option Date :=
  match v with
  | None => Some None
  | Some JNull => Some (Some 0)
  | Some (JBool b) => Some (Some (if b then 1 else 0))
  | Some (JNum n) =>
      Some match Number_value n with
           | Finite neg m e => TimeClip (double_to_integer neg m e)
           | Infinity _ => None
           end
  | Some (JStr s) => Some (Date_parse heuristics s)
  | Some w => Date_parse heuristics <$> ToString w
  end.

(** *** [JSON.stringify] *)

Definition quote : N := 34.
Definition backslash : N := 92.

Definition hexdig (k : N) : N := if (k <? 10)%N then (48 + k)%N else (87 + k)%N.

Definition unicode_escape (c : N) : jsstring :=
  [backslash; ch "u"; hexdig (c / 4096 mod 16); hexdig (c / 256 mod 16);
   hexdig (c / 16 mod 16); hexdig (c mod 16)]%N.

Definition is_high_surrogate (c : N) : bool := (0xD800 <=? c)%N && (c <=? 0xDBFF)%N.
Definition is_low_surrogate (c : N) : bool := (0xDC00 <=? c)%N && (c <=? 0xDFFF)%N.

Definition escape_char (c : N) : jsstring :=
  if N.eqb c 8 then [backslash; ch "b"] else
  if N.eqb c 9 then [backslash; ch "t"] else
  if N.eqb c 10 then [backslash; ch "n"] else
  if N.eqb c 12 then [backslash; ch "f"] else
  if N.eqb c 13 then [backslash; ch "r"] else
  if N.eqb c quote then [backslash; quote] else
  if N.eqb c backslash then [backslash; backslash] else
  if (c <? 32)%N then unicode_escape c else [c].

(** [QuoteJSONString] without the enclosing quotes: a surrogate is written
    as it is only when it is half of a pair. *)
Fixpoint quote_body (s : jsstring) : jsstring :=
  match s with
  | [] => []
  | c :: r =>
      if is_high_surrogate c then
        match r with
        | d :: r' =>
            if is_low_surrogate d then c :: d :: quote_body r'
            else unicode_escape c ++ quote_body r
        | [] => unicode_escape c
        end
      else if is_low_surrogate c then unicode_escape c ++ quote_body r
      else escape_char c ++ quote_body r
  end.

Definition quote_string (s : jsstring) : jsstring :=
  quote :: quote_body s ++ [quote].

Section PrintSeq.
Context {A : Type} (p : A -> jsstring) (close : N).

Fixpoint print_seq (l : list A) : jsstring :=
  match l with
  | [] => [close]
  | x :: r =>
      match r with
      | [] => p x ++ [close]
      | _ :: _ => p x ++ ch "," :: print_seq r
      end
  end.
End PrintSeq.

Fixpoint stringify (v : json) : jsstring :=
  match v with
  | JNull => js "null"
  | JBool true => js "true"
  | JBool false => js "false"
  | JNum n =>
      if is_finite (Number_value n) then number_toString n else js "null"
  | JStr s => quote_string s
  | JArr l => ch "[" :: print_seq stringify (ch "]") l
  | JObj o =>
      ch "{" ::
      print_seq (fun kv => quote_string (fst kv) ++ ch ":" :: stringify (snd kv))
        (ch "}") o
  end.

(** *** [JSON.parse] *)

Definition is_json_ws (c : N) : bool :=
  N.eqb c 9 || N.eqb c 10 || N.eqb c 13 || N.eqb c 32.

Fixpoint skip_ws (s : jsstring) : jsstring :=
  match s with
  | c :: r => if is_json_ws c then skip_ws r else s
  | [] => []
  end.

Definition hex_value (c : N) : option N :=
  if is_digit c then Some (c - 48)%N
  else if (97 <=? c)%N && (c <=? 102)%N then Some (c - 87)%N
  else if (65 <=? c)%N && (c <=? 70)%N then Some (c - 55)%N
  else None.

Definition simple_escape (e : N) : option N :=
  if N.eqb e quote then Some quote else
  if N.eqb e backslash then Some backslash else
  if N.eqb e (ch "/") then Some (ch "/") else
  if N.eqb e (ch "b") then Some 8%N else
  if N.eqb e (ch "f") then Some 12%N else
  if N.eqb e (ch "n") then Some 10%N else
  if N.eqb e (ch "r") then Some 13%N else
  if N.eqb e (ch "t") then Some 9%N else None.

(** The characters of a string literal after its opening quote, and what
    follows the closing quote. *)
Fixpoint parse_string_body (s : jsstring) : option (jsstring * jsstring) :=
  match s with
  | [] => None
  | c :: r =>
      if N.eqb c quote then Some ([], r)
      else if N.eqb c backslash then
        match r with
        | [] => None
        | e :: r1 =>
            if N.eqb e (ch "u") then
              match r1 with
              | h1 :: h2 :: h3 :: h4 :: r2 =>
                  a ← hex_value h1; b ← hex_value h2;
                  c' ← hex_value h3; d ← hex_value h4;
                  '(str, rest) ← parse_string_body r2;
                  Some ((a * 4096 + b * 256 + c' * 16 + d)%N :: str, rest)
              | _ => None
              end
            else
              x ← simple_escape e;
              '(str, rest) ← parse_string_body r1;
              Some (x :: str, rest)
        end
      else if (c <? 32)%N then None
      else
        '(str, rest) ← parse_string_body r;
        Some (c :: str, rest)
  end.

Fixpoint span_digits (s : jsstring) : jsstring * jsstring :=
  match s with
  | c :: r =>
      if is_digit c then let '(ds, rest) := span_digits r in (c :: ds, rest)
      else ([], s)
  | [] => ([], [])
  end.

Definition digits_value (ds : jsstring) : Z :=
  foldl (fun acc c => 10 * acc + (Z.of_N c - 48)) 0 ds.

Definition parse_int_part (s : jsstring) : option (jsstring * jsstring) :=
  match s with
  | c :: r =>
      if N.eqb c 48 then Some ([c], r)
      else if is_digit c then Some (span_digits s)
      else None
  | [] => None
  end.

Definition parse_frac_part (s : jsstring) : option (jsstring * jsstring) :=
  match s with
  | c :: r =>
      if N.eqb c (ch ".") then
        match span_digits r with
        | ([], _) => None
        | (fs, rest) => Some (fs, rest)
        end
      else Some ([], s)
  | [] => Some ([], s)
  end.

Definition parse_exp_digits (neg : bool) (s : jsstring)
  : option (Z * jsstring) :=
  match span_digits s with
  | ([], _) => None
  | (es, rest) =>
      Some (if neg then - digits_value es else digits_value es, rest)
  end.

Definition parse_exp_part (s : jsstring) : option (Z * jsstring) :=
  match s with
  | c :: r =>
      if N.eqb c (ch "e") || N.eqb c (ch "E") then
        match r with
        | sg :: r' =>
            if N.eqb sg (ch "+") then parse_exp_digits false r'
            else if N.eqb sg (ch "-") then parse_exp_digits true r'
            else parse_exp_digits false r
        | [] => None
        end
      else Some (0, s)
  | [] => Some (0, s)
  end.

Definition parse_number (s : jsstring) : option (number * jsstring) :=
  let '(neg, s1) :=
    match s with
    | c :: r => if N.eqb c (ch "-") then (true, r) else (false, s)
    | [] => (false, s)
    end in
  '(ip, s2) ← parse_int_part s1;
  '(fp, s3) ← parse_frac_part s2;
  '(ex, s4) ← parse_exp_part s3;
  let m := digits_value (ip ++ fp) in
  Some (Num (if neg then - m else m) (ex - Z.of_nat (length fp)), s4).

Definition expect_word (w : jsstring) (v : json) (s : jsstring)
  : option (json * jsstring) :=
  if starts_with w s then Some (v, drop (length w) s) else None.

(** Recursive descent; [fuel] bounds the depth of the calls, and
    [JSON_parse] below supplies more than any text can use. *)
Fixpoint parse_value (fuel : nat) (s : jsstring) : option (json * jsstring) :=
  match fuel with
  | O => None
  | S f =>
      match skip_ws s with
      | [] => None
      | c :: r =>
          if N.eqb c (ch "{") then
            match skip_ws r with
            | c' :: r' =>
                if N.eqb c' (ch "}") then Some (JObj [], r')
                else
                  '(kvs, rest) ← parse_members f (c' :: r');
                  Some (JObj (build_object kvs), rest)
            | [] => None
            end
          else if N.eqb c (ch "[") then
            match skip_ws r with
            | c' :: r' =>
                if N.eqb c' (ch "]") then Some (JArr [], r')
                else
                  '(vs, rest) ← parse_elements f (c' :: r');
                  Some (JArr vs, rest)
            | [] => None
            end
          else if N.eqb c quote then
            '(str, rest) ← parse_string_body r;
            Some (JStr str, rest)
          else if N.eqb c (ch "t") then expect_word (js "true") (JBool true) (c :: r)
          else if N.eqb c (ch "f") then expect_word (js "false") (JBool false) (c :: r)
          else if N.eqb c (ch "n") then expect_word (js "null") JNull (c :: r)
          else
            '(n, rest) ← parse_number (c :: r);
            Some (JNum n, rest)
      end
  end
with parse_elements (fuel : nat) (s : jsstring)
  : option (list json * jsstring) :=
  match fuel with
  | O => None
  | S f =>
      '(v, r) ← parse_value f s;
      match skip_ws r with
      | c :: r' =>
          if N.eqb c (ch ",") then
            '(vs, rest) ← parse_elements f r';
            Some (v :: vs, rest)
          else if N.eqb c (ch "]") then Some ([v], r')
          else None
      | [] => None
      end
  end
with parse_members (fuel : nat) (s : jsstring)
  : option (list (jsstring * json) * jsstring) :=
  match fuel with
  | O => None
  | S f =>
      match skip_ws s with
      | c :: r =>
          if N.eqb c quote then
            '(k, r1) ← parse_string_body r;
            match skip_ws r1 with
            | c1 :: r2 =>
                if N.eqb c1 (ch ":") then
                  '(v, r3) ← parse_value f r2;
                  match skip_ws r3 with
                  | c3 :: r4 =>
                      if N.eqb c3 (ch ",") then
                        '(kvs, rest) ← parse_members f r4;
                        Some ((k, v) :: kvs, rest)
                      else if N.eqb c3 (ch "}") then Some ([(k, v)], r4)
                      else None
                  | [] => None
                  end
                else None
            | [] => None
            end
          else None
      | [] => None
      end
  end.

(** [JSON.parse text]: [None] is a thrown SyntaxError. *)
Definition JSON_parse (text : jsstring) : option json :=
  '(v, rest) ← parse_value (2 * length text + 2) text;
  match skip_ws rest with
  | [] => Some v
  | _ :: _ => None
  end.

Definition JSON_stringify (v : json) : jsstring := stringify v.

End JSON.

Import JSON.

(* ===================================================================== *)
(** ** The component: [ChatInterface] *)
(* ===================================================================== *)

(** [interface Message].  TypeScript declares [content: string]; the
    assistant's content is read off the untyped response body, so at run
    time it is whatever JSON value the backend sent. *)
Module Message.
Inductive Role := user | assistant.
Record t := mk { id : jsstring; content : json; role : Role; timestamp : Z }.
End Message.

(** [interface QueryHistory], as declared. *)
Module QueryHistory.
Record t := mk {
  id : jsstring; query : jsstring; response : jsstring; timestamp : Z }.
End QueryHistory.

Module Chat.

(** What the history list holds at run time are plain objects: those built
    by [saveToHistory], and those [JSON.parse] returned with [timestamp]
    replaced by a [Date]. *)
Inductive value :=
| VJson (j : json)
| VDate (d : Date).

Abbreviation object := (list (jsstring * value)).

Definition history_object (id : jsstring) (query : jsstring) (response : json)
  (timestamp : Date) : object :=
  [(js "id", VJson (JStr id)); (js "query", VJson (JStr query));
   (js "response", VJson response); (js "timestamp", VDate timestamp)].

Definition object_of_entry (e : QueryHistory.t) : object :=
  history_object (QueryHistory.id e) (QueryHistory.query e)
    (JStr (QueryHistory.response e)) (Some (QueryHistory.timestamp e)).

(** [Date.prototype.toJSON] inside [JSON.stringify]. *)
Definition value_toJSON (v : value) : json :=
  match v with
  | VJson j => j
  | VDate (Some t) => JStr (toISOString t)
  | VDate None => JNull
  end.

Definition object_toJSON (o : object) : json :=
  JObj (map (fun kv => (fst kv, value_toJSON (snd kv))) o).

Definition history_toJSON (h : list object) : json :=
  JArr (map object_toJSON h).

(** *** The world outside the component *)

Inductive thrown :=
| ErrorObject (name message : jsstring)
| NonError.

Inductive LogEntry :=
| console_warn (text : jsstring)
| console_error (label : jsstring) (e : thrown).

Inductive Variant := plain | destructive.
Record Toast := mkToast {
  title : jsstring; description : jsstring; variant : Variant }.

Record Request := mkRequest {
  url : jsstring; method : jsstring;
  headers : list (jsstring * jsstring); body : jsstring }.

(** An HTTP response: its status and the text of its body. *)
Record Response := mkResponse { status : Z; text : jsstring }.

Definition ok (r : Response) : bool := (200 <=? status r) && (status r <=? 299).

Inductive FetchOutcome :=
| Rejected (e : thrown)
| Resolved (r : Response).

(** [clock] lists the readings [Date.now()] and [new Date()] will return
    (time values), [ticks] counts the readings taken; [fetch] calls are
    recorded in [requests].  [write_refused] is the browser's
    verdict on a [localStorage.setItem] of a given value (a quota);
    reading and removing always succeed.  [syntax_message] is the wording
    the engine gives the SyntaxError for a text that is not JSON, and
    [date_heuristics] what its [Date.parse] makes of a string that is not in
    the form [toISOString] writes. *)
Record World := mkWorld {
  localStorage : gmap jsstring jsstring;
  write_refused : jsstring -> bool;
  syntax_message : jsstring -> jsstring;
  date_heuristics : jsstring -> Date;
  console : list LogEntry;
  toasts : list Toast;
  requests : list Request;
  clock : nat -> Z;
  ticks : nat }.

Definition log (l : LogEntry) (w : World) : World :=
  mkWorld (localStorage w) (write_refused w) (syntax_message w)
    (date_heuristics w)
    (console w ++ [l]) (toasts w) (requests w) (clock w) (ticks w).

Definition toast (t : Toast) (w : World) : World :=
  mkWorld (localStorage w) (write_refused w) (syntax_message w)
    (date_heuristics w)
    (console w) (toasts w ++ [t]) (requests w) (clock w) (ticks w).

Definition fetch (r : Request) (w : World) : World :=
  mkWorld (localStorage w) (write_refused w) (syntax_message w)
    (date_heuristics w)
    (console w) (toasts w) (requests w ++ [r]) (clock w) (ticks w).

Definition Date_now (w : World) : Z * World :=
  (clock w (ticks w),
   mkWorld (localStorage w) (write_refused w) (syntax_message w)
     (date_heuristics w)
     (console w) (toasts w) (requests w) (clock w) (S (ticks w))).

Definition set_storage (m : gmap jsstring jsstring) (w : World) : World :=
  mkWorld m (write_refused w) (syntax_message w) (date_heuristics w)
    (console w) (toasts w) (requests w) (clock w) (ticks w).

Definition getItem (k : jsstring) (w : World) : option jsstring :=
  localStorage w !! k.

Definition removeItem (k : jsstring) (w : World) : World :=
  set_storage (delete k (localStorage w)) w.

(** [None]: the write threw (QuotaExceededError). *)
Definition setItem (k v : jsstring) (w : World) : option World :=
  if write_refused w v then None
  else Some (set_storage (<[k := v]> (localStorage w)) w).

(** *** The component's state variables *)

Record State := mkState {
  messages : list Message.t;
  input : jsstring;
  isLoading : bool;
  showHistory : bool;
  queryHistory : list object;
  backendUrl : jsstring }.

Definition setMessages (f : list Message.t -> list Message.t) (s : State) :=
  mkState (f (messages s)) (input s) (isLoading s) (showHistory s)
    (queryHistory s) (backendUrl s).
Definition setInput (v : jsstring) (s : State) :=
  mkState (messages s) v (isLoading s) (showHistory s) (queryHistory s)
    (backendUrl s).
Definition setIsLoading (v : bool) (s : State) :=
  mkState (messages s) (input s) v (showHistory s) (queryHistory s)
    (backendUrl s).
Definition setShowHistory (v : bool) (s : State) :=
  mkState (messages s) (input s) (isLoading s) v (queryHistory s)
    (backendUrl s).
Definition setQueryHistory (v : list object) (s : State) :=
  mkState (messages s) (input s) (isLoading s) (showHistory s) v
    (backendUrl s).
Definition setBackendUrl (v : jsstring) (s : State) :=
  mkState (messages s) (input s) (isLoading s) (showHistory s)
    (queryHistory s) v.

Definition history_key : jsstring := js "queryHistory".

(** The TypeError of a property read on [null] (V8's wording). *)
Definition null_read (prop : jsstring) : thrown :=
  ErrorObject (js "TypeError")
    (js "Cannot read properties of null (reading '" ++ prop ++ js "')").

(** The SyntaxError [JSON.parse] throws on [text]. *)
Definition syntax_error (w : World) (text : jsstring) : thrown :=
  ErrorObject (js "SyntaxError") (syntax_message w text).

(** *** Loading the history (the first half of the mount effect) *)

(** [{...item}]: the own enumerable properties of [item]. *)
Definition spread (item : json) : object :=
  match item with
  | JObj o => map (fun kv => (fst kv, VJson (snd kv))) o
  | JArr l => imap (fun i x => (N_toString (N.of_nat i), VJson x)) l
  | JStr s => imap (fun i c => (N_toString (N.of_nat i), VJson (JStr [c]))) s
  | _ => []
  end.

(** The TypeError of a conversion to a primitive that finds nothing to
    call (V8's wording). *)
Definition unconvertible : thrown :=
  ErrorObject (js "TypeError") (js "Cannot convert object to primitive value").

(** [(item) => ({ ...item, timestamp: new Date(item.timestamp) })], which
    throws when [item] is [null] and when the timestamp cannot be
    converted. *)
Definition revive (heuristics : jsstring -> Date) (item : json)
  : thrown + object :=
  match get_prop item (js "timestamp") with
  | None => inl (null_read (js "timestamp"))
  | Some ts =>
      match new_Date heuristics ts with
      | None => inl unconvertible
      | Some d => inr (obj_set (js "timestamp") (VDate d) (spread item))
      end
  end.

(** [parsedHistory.map(...)]: the first element that throws ends it. *)
Fixpoint revive_all (heuristics : jsstring -> Date) (items : list json)
  : thrown + list object :=
  match items with
  | [] => inr []
  | item :: rest =>
      match revive heuristics item with
      | inl e => inl e
      | inr o =>
          match revive_all heuristics rest with
          | inl e => inl e
          | inr os => inr (o :: os)
          end
      end
  end.

Definition loadHistory (s : State) (w : World) : State * World :=
  match getItem history_key w with
  | None => (s, w)
  | Some savedHistory =>
      if str_eqb savedHistory [] then (s, w)
      else
        match JSON_parse savedHistory with
        | None =>
            (s, removeItem history_key
                  (log (console_error (js "Error loading query history:")
                          (syntax_error w savedHistory)) w))
        | Some (JArr parsedHistory) =>
            match revive_all (date_heuristics w) parsedHistory with
            | inr h => (setQueryHistory h s, w)
            | inl e =>
                (s, removeItem history_key
                      (log (console_error (js "Error loading query history:") e)
                         w))
            end
        | Some _ => (s, w)
        end
  end.

(** *** Mounting: the [useState] initialisers, then the effect *)

(** [!envUrl] *)
Definition env_missing (env : option jsstring) : bool :=
  match env with
  | None | Some [] => true
  | Some (_ :: _) => false
  end.

(** [envUrl || ''] *)
Definition env_or_empty (env : option jsstring) : jsstring :=
  match env with
  | Some u => u
  | None => []
  end.

Definition url_warning : jsstring :=
  [0x26A0; 0xFE0F]%N
  ++ js " NEXT_PUBLIC_API_URL is not set. Backend URL will be undefined.".

Definition initial_state (env : option jsstring) (w : World) : State * World :=
  (mkState [] [] false false [] (env_or_empty env),
   if env_missing env then log (console_warn url_warning) w else w).

(** How the effect ends. *)
Inductive completion :=
| Returned (s : State)
| Threw (e : thrown).

Definition mount_effect (env : option jsstring) (s : State) (w : World)
  : completion * World :=
  let '(s1, w1) := loadHistory s w in
  if env_missing env then
    (Threw (ErrorObject (js "Error")
              (js "Missing NEXT_PUBLIC_API_URL environment variable")), w1)
  else (Returned (setBackendUrl (env_or_empty env) s1), w1).

(** The DOMException of a refused write (Firefox's wording). *)
Definition quota_error : thrown :=
  ErrorObject (js "QuotaExceededError") (js "The quota has been exceeded.").

(** *** [saveToHistory]

    The function closes over the [queryHistory] of the render that created
    it, passed here as [seen]. *)
Definition saveToHistory (seen : list object) (query response : json)
  (s : State) (w : World) : State * World :=
  let '(now, w1) := Date_now w in
  let '(date, w2) := Date_now w1 in
  let newHistoryItem :=
    [(js "id", VJson (JStr (Z_toString now))); (js "query", VJson query);
     (js "response", VJson response); (js "timestamp", VDate (Some date))] in
  let updatedHistory := take 50 (newHistoryItem :: seen) in
  let s' := setQueryHistory updatedHistory s in
  match setItem history_key (JSON_stringify (history_toJSON updatedHistory)) w2 with
  | Some w3 => (s', w3)
  | None => (s', log (console_error (js "Error saving to history:") quota_error) w2)
  end.

(** *** [handleSubmit], up to the [await] *)

Definition role_name (r : Message.Role) : jsstring :=
  match r with
  | Message.user => js "user"
  | Message.assistant => js "assistant"
  end.

Definition message_toJSON (msg : Message.t) : json :=
  JObj [(js "role", JStr (role_name (Message.role msg)));
        (js "content", Message.content msg);
        (js "timestamp", JStr (toISOString (Message.timestamp msg)))].

Definition chat_body (userMessage : Message.t) (messages : list Message.t)
  : json :=
  JObj [(js "message", Message.content userMessage);
        (js "history", JArr (map message_toJSON messages))].

Definition chat_request (backendUrl : jsstring) (userMessage : Message.t)
  (messages : list Message.t) : Request :=
  mkRequest (backendUrl ++ js "/api/chat") (js "POST")
    [(js "Content-Type", js "application/json")]
    (JSON_stringify (chat_body userMessage messages)).

(** What the suspended call keeps: its local [userMessage], and the
    [queryHistory] and [backendUrl] of the render it was started from. *)
Record Pending := mkPending {
  userMessage : Message.t;
  seen_queryHistory : list object;
  seen_backendUrl : jsstring }.

Definition blank (text : jsstring) : bool := str_eqb (trim text) [].

(** The function is a closure of the render that created it: the
    [input], [isLoading], [messages], [queryHistory] and [backendUrl] it
    reads are the values [seen] by that render, while its updates go to the
    live state [s]. *)
Definition handleSubmit_in (seen : State) (s : State) (w : World)
  : State * World * option Pending :=
  if blank (input seen) || isLoading seen then (s, w, None)
  else
    let '(now, w1) := Date_now w in
    let '(date, w2) := Date_now w1 in
    let userMessage :=
      Message.mk (Z_toString now) (JStr (trim (input seen))) Message.user date in
    let s' :=
      setIsLoading true
        (setInput [] (setMessages (fun prev => prev ++ [userMessage]) s)) in
    (s', fetch (chat_request (backendUrl seen) userMessage (messages seen)) w2,
     Some (mkPending userMessage (queryHistory seen) (backendUrl seen))).

(** The function of the render that shows the live state: React renders
    after every event the browser delivers, so this is what a click or a
    key press calls. *)
Definition handleSubmit (s : State) (w : World)
  : State * World * option Pending :=
  handleSubmit_in s s w.

(** *** [handleSubmit], from the settled [fetch] on *)

Definition placeholder : jsstring := js "No response received".

(** The toast of a finished exchange; [None] when the template literal
    throws on a [model] or [tokens_used] that cannot be converted. *)
Definition success_toast (data : json) : option Toast :=
  let field k fallback :=
    match get_prop data k with
    | Some v => ToString (or_else v (JStr fallback))
    | None => Some fallback
    end in
  model ← field (js "model") (js "Unknown");
  tokens ← field (js "tokens_used") (js "N/A");
  Some (mkToast (js "Response Generated")
          (js "Model: " ++ model ++ js " | Tokens: " ++ tokens) plain).

(** What [throw new Error(v)] throws: the Error whose message is [v] as a
    string, or the TypeError of a [v] that cannot be converted. *)
Definition new_Error (v : json) : thrown :=
  match ToString v with
  | Some message => ErrorObject (js "Error") message
  | None => unconvertible
  end.

(** The [try] block: the state and world it leaves, and what it threw. *)
Definition chat_try (p : Pending) (o : FetchOutcome) (s : State) (w : World)
  : State * World * option thrown :=
  match o with
  | Rejected e => (s, w, Some e)
  | Resolved response =>
      if negb (ok response) then
        let errorData :=
          match JSON_parse (text response) with
          | Some v => v
          | None => JObj [(js "detail", JStr (js "Unknown error"))]
          end in
        match get_prop errorData (js "detail") with
        | None => (s, w, Some (null_read (js "detail")))
        | Some detail =>
            (s, w,
             Some (new_Error
                     (or_else detail
                        (JStr (js "Failed to get response from backend")))))
        end
      else
        match JSON_parse (text response) with
        | None => (s, w, Some (syntax_error w (text response)))
        | Some data =>
            let '(now, w1) := Date_now w in
            match get_prop data (js "response") with
            | None => (s, w1, Some (null_read (js "response")))
            | Some r =>
                let '(date, w2) := Date_now w1 in
                let assistantMessage :=
                  Message.mk (Z_toString (now + 1))
                    (or_else r (JStr placeholder)) Message.assistant date in
                let s1 := setMessages (fun prev => prev ++ [assistantMessage]) s in
                let '(s2, w3) :=
                  saveToHistory (seen_queryHistory p)
                    (Message.content (userMessage p))
                    (Message.content assistantMessage) s1 w2 in
                match success_toast data with
                | Some t => (s2, toast t w3, None)
                | None => (s2, w3, Some unconvertible)
                end
            end
        end
  end.

(** The [catch] block. *)
Definition error_description (name message backendUrl : jsstring) : jsstring :=
  if includes message (js "fetch") || str_eqb name (js "TypeError") then
    js "Cannot connect to backend server. Please ensure the FastAPI server is running on "
    ++ backendUrl
  else if includes message (js "API key") then
    js "API key not configured. Please check your backend environment variables."
  else if includes message (js "Rate limit") then
    js "Rate limit exceeded. Please wait a moment before trying again."
  else js "Failed to get response. Please try again.".

Definition chat_catch (p : Pending) (e : thrown) (w : World) : World :=
  match e with
  | ErrorObject name message =>
      toast
        (mkToast (js "Error")
           (error_description name message (seen_backendUrl p)) destructive)
        (log (console_error (js "Chat error:") e) w)
  | NonError => log (console_error (js "Unknown error type:") e) w
  end.

(** [try], [catch], then the [finally] block. *)
Definition handleSubmit_settled (p : Pending) (o : FetchOutcome)
  (s : State) (w : World) : State * World :=
  let '(s1, w1, exn) := chat_try p o s w in
  let w2 :=
    match exn with
    | Some e => chat_catch p e w1
    | None => w1
    end in
  (setIsLoading false s1, w2).

(** *** The other handlers *)

Definition clearHistory (s : State) (w : World) : State * World :=
  (setQueryHistory [] s,
   toast
     (mkToast (js "History Cleared") (js "Query history has been cleared.")
        plain)
     (removeItem history_key w)).

Definition loadHistoryItem (item : QueryHistory.t) (s : State) : State :=
  setShowHistory false (setInput (QueryHistory.query item) s).

(** *** The page: the mounted component and its outstanding requests

    React drops a component whose effect throws, so a failed mount leaves
    no handler to call. *)

Record App := mkApp {
  state : State;
  world : World;
  outstanding : list Pending }.

Inductive Page :=
| Running (a : App)
| Crashed (e : thrown) (w : World).

Definition mount (env : option jsstring) (w : World) : Page :=
  let '(s0, w0) := initial_state env w in
  match mount_effect env s0 w0 with
  | (Returned s, w1) => Running (mkApp s w1 [])
  | (Threw e, w1) => Crashed e w1
  end.

Inductive Event :=
| Typed (text : jsstring)
| Submitted
| Settled (o : FetchOutcome)
| HistoryCleared
| HistoryItemPicked (item : QueryHistory.t).

(** One event, handled by the render that shows the live state. *)
Definition step (ev : Event) (a : App) : App :=
  match ev with
  | Typed text => mkApp (setInput text (state a)) (world a) (outstanding a)
  | Submitted =>
      let '(s, w, p) := handleSubmit (state a) (world a) in
      mkApp s w (outstanding a ++ option_list p)
  | Settled o =>
      match outstanding a with
      | [] => a
      | p :: rest =>
          let '(s, w) := handleSubmit_settled p o (state a) (world a) in
          mkApp s w rest
      end
  | HistoryCleared =>
      let '(s, w) := clearHistory (state a) (world a) in
      mkApp s w (outstanding a)
  | HistoryItemPicked item =>
      mkApp (loadHistoryItem item (state a)) (world a) (outstanding a)
  end.

Definition run (evs : list Event) (a : App) : App :=
  foldl (fun a ev => step ev a) a evs.




(** *** [testBackendConnection]

    [fetch(url)] without options is a GET that carries no header of the
    caller's and no body. *)
Definition health_request (backendUrl : jsstring) : Request :=
  mkRequest (backendUrl ++ js "/health") (js "GET") [] [].

(** Up to the [await]: the request goes out; the suspended call keeps the
    [backendUrl] of the render it was started from. *)
Definition testBackendConnection (s : State) (w : World) : World * jsstring :=
  (fetch (health_request (backendUrl s)) w, backendUrl s).

(** [None] when the template literal throws. *)
Definition connected_toast (status model : option json) : option Toast :=
  st ← ToString (or_else status (JStr (js "Unknown")));
  mo ← ToString (or_else model (JStr (js "Unknown")));
  Some (mkToast (js "Backend Connected")
          (js "Status: " ++ st ++ js " | Model: " ++ mo) plain).

(** The [try] block: the world it leaves, and what it threw. *)
Definition health_try (o : FetchOutcome) (w : World) : World * option thrown :=
  match o with
  | Rejected e => (w, Some e)
  | Resolved response =>
      if ok response then
        match JSON_parse (text response) with
        | None => (w, Some (syntax_error w (text response)))
        | Some data =>
            match get_prop data (js "status") with
            | None => (w, Some (null_read (js "status")))
            | Some status =>
                match get_prop data (js "model") with
                | None => (w, Some (null_read (js "model")))
                | Some model =>
                    match connected_toast status model with
                    | Some t => (toast t w, None)
                    | None => (w, Some unconvertible)
                    end
                end
            end
        end
      else (w, Some (ErrorObject (js "Error") (js "Backend not responding")))
  end.

(** The [catch] block. *)
Definition health_catch (backendUrl : jsstring) (e : thrown) (w : World)
  : World :=
  toast
    (mkToast (js "Backend Connection Failed")
       (js "Cannot connect to " ++ backendUrl
        ++ js ". Please ensure FastAPI server is running.")
       destructive)
    (log (console_error (js "Backend connection test failed:") e) w).

Definition testBackendConnection_settled (backendUrl : jsstring)
  (o : FetchOutcome) (w : World) : World :=
  match health_try o w with
  | (w1, Some e) => health_catch backendUrl e w1
  | (w1, None) => w1
  end.

(** *** Every handler of the page

    Besides the events above: a key pressed in the textarea, the History
    button, the Test Backend button and the settling of one of its
    requests.  Health checks are not gated by [isLoading]: several can be
    outstanding, and they settle in any order. *)

(** [onKeyDown] of the textarea. *)
Definition handleKeyDown (key : jsstring) (shiftKey : bool) (a : App) : App :=
  if str_eqb key (js "Enter") && negb shiftKey then step Submitted a else a.

(** [() => setShowHistory(!showHistory)] *)
Definition toggleHistory (s : State) : State :=
  setShowHistory (negb (showHistory s)) s.

Record Session := mkSession {
  mounted : App;
  checks : list jsstring }.

Inductive Action :=
| Handled (ev : Event)
| KeyDown (key : jsstring) (shiftKey : bool)
| HistoryToggled
| BackendTested
| HealthSettled (i : nat) (o : FetchOutcome).

Definition act (x : Action) (ss : Session) : Session :=
  let a := mounted ss in
  match x with
  | Handled ev => mkSession (step ev a) (checks ss)
  | KeyDown key shiftKey => mkSession (handleKeyDown key shiftKey a) (checks ss)
  | HistoryToggled =>
      mkSession (mkApp (toggleHistory (state a)) (world a) (outstanding a))
        (checks ss)
  | BackendTested =>
      let '(w, seen_url) := testBackendConnection (state a) (world a) in
      mkSession (mkApp (state a) w (outstanding a)) (checks ss ++ [seen_url])
  | HealthSettled i o =>
      match checks ss !! i with
      | Some seen_url =>
          mkSession
            (mkApp (state a)
               (testBackendConnection_settled seen_url o (world a))
               (outstanding a))
            (delete i (checks ss))
      | None => ss
      end
  end.

Definition perform (xs : list Action) (ss : Session) : Session :=
  foldl (fun ss x => act x ss) ss xs.

(** *** Renders

    [act] calls the handlers of a render that shows the live state.  Two
    handlers called within one turn of the event loop, before React renders
    again, are closures of the same render: the second reads what the first
    read.  A
    [Screen] keeps the state the last render has [shown] beside the live
    session; [Render] brings it up to date. *)

Definition submit_in (seen : State) (a : App) : App :=
  let '(s, w, p) := handleSubmit_in seen (state a) (world a) in
  mkApp s w (outstanding a ++ option_list p).

(** A handler of the render that saw [seen], called on the live session.
    Typing, clearing and picking a history item read nothing of the
    render, and a settled request continues with what its call captured. *)
Definition call (seen : State) (x : Action) (ss : Session) : Session :=
  let a := mounted ss in
  match x with
  | Handled Submitted => mkSession (submit_in seen a) (checks ss)
  | KeyDown key shiftKey =>
      if str_eqb key (js "Enter") && negb shiftKey
      then mkSession (submit_in seen a) (checks ss)
      else ss
  | HistoryToggled =>
      mkSession
        (mkApp (setShowHistory (negb (showHistory seen)) (state a)) (world a)
           (outstanding a))
        (checks ss)
  | BackendTested =>
      let '(w, seen_url) := testBackendConnection seen (world a) in
      mkSession (mkApp (state a) w (outstanding a)) (checks ss ++ [seen_url])
  | Handled _ | HealthSettled _ _ => act x ss
  end.

Record Screen := mkScreen {
  shown : State;
  session : Session }.

Inductive Task :=
| Call (x : Action)
| Render.

Definition task (t : Task) (v : Screen) : Screen :=
  match t with
  | Call x => mkScreen (shown v) (call (shown v) x (session v))
  | Render => mkScreen (state (mounted (session v))) (session v)
  end.

Definition tasks (ts : list Task) (v : Screen) : Screen :=
  foldl (fun v t => task t v) v ts.

(** The screen of a session just rendered. *)
Definition rendered (ss : Session) : Screen :=
  mkScreen (state (mounted ss)) ss.

(** Every call followed by a render, as with events the browser
    delivers one by one. *)
Definition each_rendered (xs : list Action) : list Task :=
  concat (map (fun x => [Call x; Render]) xs).

(** JSON text written with ['] for the double quote. *)
Definition jsq (s : string) : jsstring :=
  map (fun c => if N.eqb c 39 then quote else c) (js s).

End Chat.

Import Chat.

(* ===================================================================== *)
(** ** Vocabulary of the statements *)
(* ===================================================================== *)

(** *** JSON values that print and parse back to themselves

    A value is [stable] when it holds no number (a number prints in a
    normal form of its own) and every object lists its properties in the
    order [JSON.parse] would create them. *)
Fixpoint stable (v : json) : Prop :=
  match v with
  | JNum _ => False
  | JArr l =>
      (fix all (l : list json) : Prop :=
         match l with
         | [] => True
         | x :: r => stable x /\ all r
         end) l
  | JObj o =>
      build_object o = o /\
      (fix all (o : list (jsstring * json)) : Prop :=
         match o with
         | [] => True
         | kv :: r => stable (snd kv) /\ all r
         end) o
  | _ => True
  end.

Definition all_stable (l : list json) : Prop :=
  (fix all (l : list json) : Prop :=
     match l with
     | [] => True
     | x :: r => stable x /\ all r
     end) l.

Definition all_stable_members (o : list (jsstring * json)) : Prop :=
  (fix all (o : list (jsstring * json)) : Prop :=
     match o with
     | [] => True
     | kv :: r => stable (snd kv) /\ all r
     end) o.

(** Fuel that parsing the printed value needs. *)
Fixpoint size (v : json) : nat :=
  match v with
  | JArr l =>
      S ((fix sum (l : list json) : nat :=
            match l with
            | [] => O
            | x :: r => S (size x + sum r)
            end) l)
  | JObj o =>
      S ((fix sum (o : list (jsstring * json)) : nat :=
            match o with
            | [] => O
            | kv :: r => S (size (snd kv) + sum r)
            end) o)
  | _ => 1%nat
  end.

Definition sum_size (l : list json) : nat :=
  (fix sum (l : list json) : nat :=
     match l with
     | [] => O
     | x :: r => S (size x + sum r)
     end) l.

Definition sum_size_members (o : list (jsstring * json)) : nat :=
  (fix sum (o : list (jsstring * json)) : nat :=
     match o with
     | [] => O
     | kv :: r => S (size (snd kv) + sum r)
     end) o.

(** Induction on JSON values, with the hypothesis for every element of an
    array and every member of an object. *)
Definition json_induction (P : json -> Prop)
  (HNull : P JNull) (HBool : forall b, P (JBool b))
  (HNum : forall n, P (JNum n)) (HStr : forall s, P (JStr s))
  (HArr : forall l, Forall P l -> P (JArr l))
  (HObj : forall o, Forall (fun kv => P (snd kv)) o -> P (JObj o))
  : forall v, P v :=
  fix go (v : json) : P v :=
    match v with
    | JNull => HNull
    | JBool b => HBool b
    | JNum n => HNum n
    | JStr s => HStr s
    | JArr l =>
        HArr l ((fix all (l : list json) : Forall P l :=
                   match l with
                   | [] => @List.Forall_nil _ P
                   | x :: r => @List.Forall_cons _ P x r (go x) (all r)
                   end) l)
    | JObj o =>
        HObj o ((fix all (o : list (jsstring * json))
                   : Forall (fun kv => P (snd kv)) o :=
                   match o with
                   | [] => @List.Forall_nil _ _
                   | kv :: r =>
                       @List.Forall_cons _ _ kv r (go (snd kv)) (all r)
                   end) o)
    end.

(** The first character of a printed value is none of the characters the
    parser treats as white space or punctuation. *)
Definition opens_value (c : N) : Prop :=
  is_json_ws c = false /\ c <> ch "]" /\ c <> ch "}" /\ c <> ch ",".

Definition parses (v : json) : Prop :=
  forall f rest, (size v <= f)%nat ->
    parse_value f (stringify v ++ rest) = Some (v, rest).

Definition print_member (kv : jsstring * json) : jsstring :=
  quote_string (fst kv) ++ ch ":" :: stringify (snd kv).

Definition is_array (v : json) : bool :=
  match v with
  | JArr _ => true
  | _ => false
  end.

(** *** Dates and history entries *)

(** The time values a [Date] can hold. *)
Definition valid_time (t : Z) : Prop := - maxTime <= t <= maxTime.

(** What [JSON.stringify] makes of a typed history entry. *)
Definition entry_json (e : QueryHistory.t) : json :=
  JObj [(js "id", JStr (QueryHistory.id e));
        (js "query", JStr (QueryHistory.query e));
        (js "response", JStr (QueryHistory.response e));
        (js "timestamp", JStr (toISOString (QueryHistory.timestamp e)))].

(** The spec's well-formed payload: a sequence of objects with the required
    fields.  A payload is [malformed] when its text does not parse or does
    not parse to such a sequence. *)
Definition has_string (k : jsstring) (o : list (jsstring * json)) : bool :=
  match obj_get k o with
  | Some (JStr _) => true
  | _ => false
  end.

Definition entry_shaped (v : json) : bool :=
  match v with
  | JObj o =>
      has_string (js "id") o && has_string (js "query") o
      && has_string (js "response") o && has_string (js "timestamp") o
  | _ => false
  end.

(** The elements [loadHistory] can revive: every value but [null], unless
    its [timestamp] is an object or array that has no conversion to a
    primitive. *)
Definition revivable (item : json) : bool :=
  match get_prop item (js "timestamp") with
  | None => false
  | Some None => true
  | Some (Some ts) =>
      match ToString ts with
      | Some _ => true
      | None => false
      end
  end.

Definition malformed (saved : jsstring) : Prop :=
  match JSON_parse saved with
  | None => True
  | Some (JArr items) => forallb entry_shaped items = false
  | Some _ => True
  end.

(** *** Exchanges *)

(** [n] readings of the clock later. *)
Definition ticked (n : nat) (w : World) : World :=
  Nat.iter n (fun w => (Date_now w).2) w.

(** No request outstanding. *)
Definition idle (a : App) : Prop :=
  isLoading (state a) = false /\ outstanding a = [].

(** The flag and the outstanding requests agree. *)
Definition in_flight_ok (a : App) : Prop :=
  (isLoading (state a) = false /\ outstanding a = [])
  \/ (isLoading (state a) = true /\ exists p, outstanding a = [p]).

(** The assistant's content for a response the component accepts: a 2xx
    status and a body that parses to something other than [null]. *)
Definition reply (r : Response) : option json :=
  if ok r then
    data ← JSON_parse (text r);
    resp ← get_prop data (js "response");
    Some (or_else resp (JStr placeholder))
  else None.

(** A chat exchange: the user types [typed], submits, and the backend
    answers with [answer]. *)
Record Exchange := mkExchange { typed : jsstring; answer : Response }.

Definition exchange_events (x : Exchange) : list Event :=
  [Typed (typed x); Submitted; Settled (Resolved (answer x))].

Definition successful (x : Exchange) : Prop :=
  blank (typed x) = false /\ is_Some (reply (answer x)).

(** The history entry of an exchange begun at clock reading [tick]: the
    exchange reads the clock six times, the entry takes the last two. *)
Definition exchange_entry (clock : nat -> Z) (tick : nat) (x : Exchange)
  : object :=
  [(js "id", VJson (JStr (Z_toString (clock (tick + 4)%nat))));
   (js "query", VJson (JStr (trim (typed x))));
   (js "response", VJson (default JNull (reply (answer x))));
   (js "timestamp", VDate (Some (clock (tick + 5)%nat)))].

Fixpoint exchange_entries (clock : nat -> Z) (tick : nat)
  (xs : list Exchange) : list object :=
  match xs with
  | [] => []
  | x :: r => exchange_entry clock tick x :: exchange_entries clock (tick + 6) r
  end.

(** *** Sessions *)

(** An entry that carries a [Date] under [timestamp]. *)
Definition dated (o : object) : Prop :=
  exists d, obj_get (js "timestamp") o = Some (VDate d).

(** What one action can do to the conversation, the history, the storage
    and the requests: nothing, or one of six changes. *)
Inductive Change (ss ss' : Session) : Prop :=
| unchanged :
    messages (state (mounted ss')) = messages (state (mounted ss)) ->
    queryHistory (state (mounted ss')) = queryHistory (state (mounted ss)) ->
    localStorage (world (mounted ss')) = localStorage (world (mounted ss)) ->
    requests (world (mounted ss')) = requests (world (mounted ss)) ->
    outstanding (mounted ss') = outstanding (mounted ss) ->
    checks ss' = checks ss ->
    Change ss ss'
| submitted um :
    Message.role um = Message.user ->
    Message.content um = JStr (trim (input (state (mounted ss)))) ->
    blank (input (state (mounted ss))) = false ->
    messages (state (mounted ss')) = messages (state (mounted ss)) ++ [um] ->
    queryHistory (state (mounted ss')) = queryHistory (state (mounted ss)) ->
    localStorage (world (mounted ss')) = localStorage (world (mounted ss)) ->
    requests (world (mounted ss'))
    = requests (world (mounted ss))
      ++ [chat_request (backendUrl (state (mounted ss))) um
            (messages (state (mounted ss)))] ->
    outstanding (mounted ss')
    = outstanding (mounted ss)
      ++ [mkPending um (queryHistory (state (mounted ss)))
            (backendUrl (state (mounted ss)))] ->
    checks ss' = checks ss ->
    Change ss ss'
| failed p :
    outstanding (mounted ss) = p :: outstanding (mounted ss') ->
    messages (state (mounted ss')) = messages (state (mounted ss)) ->
    queryHistory (state (mounted ss')) = queryHistory (state (mounted ss)) ->
    localStorage (world (mounted ss')) = localStorage (world (mounted ss)) ->
    requests (world (mounted ss')) = requests (world (mounted ss)) ->
    checks ss' = checks ss ->
    Change ss ss'
| answered p am entry :
    outstanding (mounted ss) = p :: outstanding (mounted ss') ->
    Message.role am = Message.assistant ->
    truthy (Message.content am) = true ->
    dated entry ->
    messages (state (mounted ss')) = messages (state (mounted ss)) ++ [am] ->
    queryHistory (state (mounted ss')) = take 50 (entry :: seen_queryHistory p) ->
    (if write_refused (world (mounted ss))
          (JSON_stringify (history_toJSON (take 50 (entry :: seen_queryHistory p))))
     then localStorage (world (mounted ss')) = localStorage (world (mounted ss))
     else localStorage (world (mounted ss'))
          = <[history_key :=
                JSON_stringify
                  (history_toJSON (take 50 (entry :: seen_queryHistory p)))]>
              (localStorage (world (mounted ss)))) ->
    requests (world (mounted ss')) = requests (world (mounted ss)) ->
    checks ss' = checks ss ->
    Change ss ss'
| cleared :
    messages (state (mounted ss')) = messages (state (mounted ss)) ->
    queryHistory (state (mounted ss')) = [] ->
    localStorage (world (mounted ss'))
    = delete history_key (localStorage (world (mounted ss))) ->
    requests (world (mounted ss')) = requests (world (mounted ss)) ->
    outstanding (mounted ss') = outstanding (mounted ss) ->
    checks ss' = checks ss ->
    Change ss ss'
| tested :
    messages (state (mounted ss')) = messages (state (mounted ss)) ->
    queryHistory (state (mounted ss')) = queryHistory (state (mounted ss)) ->
    localStorage (world (mounted ss')) = localStorage (world (mounted ss)) ->
    requests (world (mounted ss'))
    = requests (world (mounted ss))
      ++ [health_request (backendUrl (state (mounted ss)))] ->
    outstanding (mounted ss') = outstanding (mounted ss) ->
    checks ss' = checks ss ++ [backendUrl (state (mounted ss))] ->
    Change ss ss'
| checked i seen_url :
    checks ss !! i = Some seen_url ->
    messages (state (mounted ss')) = messages (state (mounted ss)) ->
    queryHistory (state (mounted ss')) = queryHistory (state (mounted ss)) ->
    localStorage (world (mounted ss')) = localStorage (world (mounted ss)) ->
    requests (world (mounted ss')) = requests (world (mounted ss)) ->
    outstanding (mounted ss') = outstanding (mounted ss) ->
    checks ss' = delete i (checks ss) ->
    Change ss ss'.

(** The stored payload is the history in memory: no payload for the empty
    history a clear leaves, the history's JSON text otherwise. *)
Definition mirrored (a : App) : Prop :=
  (queryHistory (state a) = [] /\ getItem history_key (world a) = None)
  \/ getItem history_key (world a)
     = Some (JSON_stringify (history_toJSON (queryHistory (state a)))).

(** A user's message carries trimmed text that is not empty, an
    assistant's message a truthy value. *)
Definition has_content (m : Message.t) : Prop :=
  match Message.role m with
  | Message.user =>
      exists t, Message.content m = JStr t /\ t <> [] /\ trim t = t
  | Message.assistant => truthy (Message.content m) = true
  end.

Definition is_user (m : Message.t) : bool :=
  match Message.role m with
  | Message.user => true
  | Message.assistant => false
  end.

Definition is_post (r : Request) : bool := str_eqb (method r) (js "POST").

(** The chat requests a conversation accounts for: one for each user
    message, carrying the messages before it. *)
Fixpoint sent (backendUrl : jsstring) (before msgs : list Message.t)
  : list Request :=
  match msgs with
  | [] => []
  | m :: r =>
      (if is_user m then [chat_request backendUrl m before] else [])
      ++ sent backendUrl (before ++ [m]) r
  end.

Definition is_assistant (m : Message.t) : bool := negb (is_user m).

(** The four texts an error toast can carry. *)
Definition failure_descriptions (backendUrl : jsstring) : list jsstring :=
  [js "Cannot connect to backend server. Please ensure the FastAPI server is running on "
   ++ backendUrl;
   js "API key not configured. Please check your backend environment variables.";
   js "Rate limit exceeded. Please wait a moment before trying again.";
   js "Failed to get response. Please try again."].

(** The property [k] of [data], or "Unknown" in place of a missing or
    falsy one, has a conversion to a string. *)
Definition printable (data : json) (k : jsstring) : bool :=
  match get_prop data k with
  | Some v =>
      match ToString (or_else v (JStr (js "Unknown"))) with
      | Some _ => true
      | None => false
      end
  | None => false
  end.

(** The outcomes a health check reports as a connected backend: a 2xx
    response whose body is JSON other than [null], with a [status] and a
    [model] that can be printed. *)
Definition healthy (o : FetchOutcome) : bool :=
  match o with
  | Rejected _ => false
  | Resolved r =>
      ok r && match JSON_parse (text r) with
              | None | Some JNull => false
              | Some data =>
                  printable data (js "status") && printable data (js "model")
              end
  end.

(** [content: string], as [Message] declares. *)
Definition has_text (m : Message.t) : Prop :=
  exists t, Message.content m = JStr t.



(** *** Concrete inputs *)

Definition world0 : World :=
  mkWorld ∅ (fun _ => false) (fun _ => js "Unexpected token") (fun _ => None)
    [] [] []
    (fun _ => 1730000000000) 0.

Definition stored (payload : jsstring) : World :=
  set_storage (<[history_key := payload]> ∅) world0.

Definition state0 : State :=
  mkState [] [] false false [] (js "http://localhost:8000").

Definition app0 : App := mkApp state0 world0 [].

Definition hello : Exchange :=
  mkExchange (js "Hello!")
    (mkResponse 200
       (jsq "{'response': 'Hi there!', 'model': 'llama-3.1-8b-instant', 'tokens_used': 10}")).

Definition overloaded : Response :=
  mkResponse 500 (jsq "{'detail': 'model overloaded'}").

Definition entry0 : QueryHistory.t :=
  QueryHistory.mk (js "1730000000000") (js "Hello!") (js "Hi there!")
    1730000000123.

Definition long_history : list json := map entry_json (replicate 51 entry0).

Definition world_full : World :=
  mkWorld ∅ (fun _ => true) (fun _ => js "Unexpected token") (fun _ => None)
    [] [] []
    (fun _ => 1730000000000) 0.

(** A request outstanding: "Hello!" was submitted. *)
Definition waiting : App := run [Typed (js "Hello!"); Submitted] app0.

Definition hello_data : json :=
  JObj [(js "response", JStr (js "Hi there!"));
        (js "model", JStr (js "llama-3.1-8b-instant"));
        (js "tokens_used", JNum (Num 10 0))].

Definition session0 : Session := mkSession app0 [].

(** Type, press Enter, test the backend, open the sidebar, clear the
    history, get the answer, get the health report. *)
Definition actions0 : list Action :=
  [Handled (Typed (js "Hello!")); KeyDown (js "Enter") false; BackendTested;
   HistoryToggled; Handled HistoryCleared;
   Handled (Settled (Resolved (answer hello)));
   HealthSettled 0 (Resolved (mkResponse 200 (jsq "{'status': 'ok'}")))].

(** One entry in the history. *)
Definition app1 : App :=
  mkApp (setQueryHistory [object_of_entry entry0] state0) world0 [].

(** Text with a quote, a backslash and a line feed. *)
Definition quoted : jsstring := jsq "say 'hi'" ++ [backslash; 10%N].

(** A stored array whose one element has no [id], [response] or
    [timestamp], and the component mounted on it. *)
Definition sparse_payload : jsstring := jsq "[{'query': 'q'}]".

Definition app2 : App :=
  mkApp
    (setQueryHistory
       [[(js "query", VJson (JStr (js "q"))); (js "timestamp", VDate None)]]
       state0)
    (stored sparse_payload) [].

(* ===================================================================== *)
(** ** Lemmas and theorems *)
(* ===================================================================== *)

(** *** The model on small inputs *)

Example trim_strips_white_space :
  trim ([0xFEFF; 32; 9]%N ++ js "a b" ++ [10; 0x2028; 0xA0]%N) = js "a b".
Proof. by vm_compute. Qed.

Example toISOString_epoch : toISOString 0 = js "1970-01-01T00:00:00.000Z".
Proof. by vm_compute. Qed.

Example toISOString_2024 :
  toISOString 1730000000123 = js "2024-10-27T03:33:20.123Z".
Proof. by vm_compute. Qed.

Example toISOString_extended_years :
  toISOString (-62198755200001) = js "-000002-12-31T23:59:59.999Z"
  /\ toISOString 253402300800000 = js "+010000-01-01T00:00:00.000Z".
Proof. by vm_compute. Qed.

Example parse_leap_day :
  JSDate.parse (js "2024-02-29T12:00:00.000Z") = Some 1709208000000
  /\ JSDate.parse (js "2023-02-29T12:00:00.000Z") = None
  /\ JSDate.parse (js "2024-02-29T24:00:00.000Z") = Some 1709251200000.
Proof. by vm_compute. Qed.

Example JSON_parse_orders_keys :
  JSON_parse (jsq "{'b':1,'10':2,'9':3,'b':4}")
  = Some (JObj [(js "9", JNum (Num 3 0)); (js "10", JNum (Num 2 0));
                (js "b", JNum (Num 4 0))]).
Proof. by vm_compute. Qed.

Example JSON_parse_nested :
  JSON_parse (jsq " { 'a' : [ 1.50e3 , -0.1, true, null ], 'b' : 'x\u0041\n' } ")
  = Some (JObj [(js "a", JArr [JNum (Num 150 1); JNum (Num (-1) (-1));
                               JBool true; JNull]);
                (js "b", JStr [120; 65; 10]%N)]).
Proof. by vm_compute. Qed.

Example JSON_parse_rejects :
  JSON_parse [] = None /\ JSON_parse (js "not json") = None
  /\ JSON_parse (js "[1,]") = None /\ JSON_parse (js "01") = None
  /\ JSON_parse (jsq "{'a':1,}") = None /\ JSON_parse (jsq "'a") = None
  /\ JSON_parse (js "1 2") = None /\ JSON_parse (js "tru") = None.
Proof. by vm_compute. Qed.

Example JSON_stringify_escapes :
  JSON_stringify (JStr [34; 92; 10; 0xD800; 97; 0xD83D; 0xDE00]%N)
  = [34; 92; 34; 92; 92; 92; 110; 92; 117; 100; 56; 48; 48; 97; 0xD83D;
     0xDE00; 34]%N.
Proof. by vm_compute. Qed.

Example number_toString_forms :
  map number_toString [Num 1500 (-1); Num 1 21; Num (-12345) (-10); Num 5 (-1)]
  = [js "150"; js "1e+21"; js "-0.0000012345"; js "0.5"].
Proof. by vm_compute. Qed.

Example hello_request_body :
  body <$> last (requests (world (run [Typed (js "  Hello! "); Submitted] app0)))
  = Some (jsq "{'message':'Hello!','history':[]}").
Proof. by vm_compute. Qed.

Example second_request_body :
  body <$> last (requests (world
    (run (exchange_events hello ++ [Typed (js "again"); Submitted]) app0)))
  = Some (jsq "{'message':'again','history':[{'role':'user','content':'Hello!','timestamp':'2024-10-27T03:33:20.000Z'},{'role':'assistant','content':'Hi there!','timestamp':'2024-10-27T03:33:20.000Z'}]}").
Proof. by vm_compute. Qed.

Example hello_persisted :
  getItem history_key (world (run (exchange_events hello) app0))
  = Some (jsq "[{'id':'1730000000000','query':'Hello!','response':'Hi there!','timestamp':'2024-10-27T03:33:20.000Z'}]").
Proof. by vm_compute. Qed.

Example load_unvalidated_elements :
  queryHistory (loadHistory state0 (stored (jsq "[1, 'ab']"))).1
  = [[(js "timestamp", VDate None)];
     [(js "0", VJson (JStr (js "a"))); (js "1", VJson (JStr (js "b")));
      (js "timestamp", VDate None)]].
Proof. by vm_compute. Qed.

Example load_unconvertible_timestamp :
  queryHistory
    (loadHistory state0 (stored (jsq "[{'timestamp':{'toString':1}}]"))).1 = []
  /\ getItem history_key
       (loadHistory state0 (stored (jsq "[{'timestamp':{'toString':1}}]"))).2
     = None.
Proof. by vm_compute. Qed.

Example ToString_forms :
  map ToString
    [JArr [JNum (Num 1 0); JNull; JArr [JStr (js "a"); JBool true]];
     JObj [(js "a", JNull)]; JObj [(js "toString", JNum (Num 1 0))];
     JArr [JObj [(js "toString", JNull)]]]
  = [Some (js "1,,a,true"); Some (js "[object Object]"); None; None].
Proof. by vm_compute. Qed.

Example numbers_are_doubles :
  truthy (JNum (Num 1 (-400))) = false
  /\ number_toString (Num 9007199254740993 0) = js "9007199254740992"
  /\ number_toString (Num 1 (-400)) = js "0"
  /\ number_toString (Num 1 400) = js "Infinity"
  /\ JSON_stringify (JNum (Num 1 400)) = js "null"
  /\ number_toString (Num 1 (-1)) = js "0.1"
  /\ number_toString (Num 123456789012345678901234567890 0)
     = js "1.2345678901234568e+29".
Proof. by vm_compute. Qed.

(** A refused write, then a [model] the toast cannot print: both are
    logged, and the toast is the error toast. *)
Example refused_write_then_unprintable_model :
  let a :=
    run [Typed (js "Hello!"); Submitted;
         Settled (Resolved (mkResponse 200
           (jsq "{'response':'x','model':{'toString':1}}")))]
      (mkApp state0 world_full []) in
  console (world a)
  = [console_error (js "Error saving to history:") quota_error;
     console_error (js "Chat error:") unconvertible]
  /\ map title (toasts (world a)) = [js "Error"]
  /\ length (messages (state a)) = 2%nat
  /\ isLoading (state a) = false.
Proof. by vm_compute. Qed.

Example load_null_element :
  queryHistory (loadHistory state0 (stored (jsq "[null]"))).1 = []
  /\ getItem history_key (loadHistory state0 (stored (jsq "[null]"))).2 = None.
Proof. by vm_compute. Qed.

(** *** Facts about dates *)

Lemma digit_ok k : 0 <= k <= 9 -> is_digit (digit k) = true /\ Z.of_N (digit k) - 48 = k.
Proof.
  intros Hk. unfold is_digit, digit. split.
  - apply andb_true_iff. split; apply N.leb_le; lia.
  - lia.
Qed.

Lemma read_digits_pad w : forall n acc rest,
  0 <= n < 10 ^ Z.of_nat w ->
  read_digits w acc (pad w n ++ rest) = Some (acc * 10 ^ Z.of_nat w + n, rest).
Proof.
  induction w as [|w IH]; intros n acc rest Hn.
  - simpl in *. f_equal. f_equal. lia.
  - rewrite Nat2Z.inj_succ, Z.pow_succ_r in Hn by lia.
    assert (Hp : 0 < 10 ^ Z.of_nat w) by (apply Z.pow_pos_nonneg; lia).
    assert (Hq : 0 <= n / 10 ^ Z.of_nat w <= 9).
    { split; [apply Z.div_pos; lia|].
      assert (n / 10 ^ Z.of_nat w < 10); [|lia].
      apply Z.div_lt_upper_bound; lia. }
    destruct (digit_ok _ Hq) as [Hd Hv].
    cbn [pad read_digits app]. rewrite Hd, Hv.
    rewrite IH by (apply Z.mod_pos_bound; lia).
    f_equal. f_equal. rewrite Nat2Z.inj_succ, Z.pow_succ_r by lia.
    pose proof (Z.div_mod n (10 ^ Z.of_nat w)). lia.
Qed.

Lemma YearFromDay_bracket d :
  DayFromYear (YearFromDay d) <= d < DayFromYear (YearFromDay d + 1).
Proof.
  unfold YearFromDay. cbv zeta.
  destruct (Z.leb_spec (DayFromYear (1970 + 400 * d / 146097 + 1)) d) as [H1|H1];
    [|destruct (Z.leb_spec (DayFromYear (1970 + 400 * d / 146097)) d) as [H2|H2]];
    unfold DayFromYear in *; Z.div_mod_to_equations; lia.
Qed.

Lemma DayFromYear_succ y : DayFromYear (y + 1) = DayFromYear y + DaysInYear y.
Proof.
  unfold DaysInYear, InLeapYear, DayFromYear.
  destruct (Z.eqb_spec (y mod 4) 0), (Z.eqb_spec (y mod 100) 0),
    (Z.eqb_spec (y mod 400) 0); cbn [andb orb negb];
    Z.div_mod_to_equations; lia.
Qed.

Lemma DayWithinYear_range t :
  0 <= DayWithinYear t < DaysInYear (YearFromTime t).
Proof.
  unfold DayWithinYear, YearFromTime.
  pose proof (YearFromDay_bracket (Day t)) as H.
  rewrite DayFromYear_succ in H. lia.
Qed.

Lemma Month_range (leap : bool) doy :
  0 <= doy < (if leap then 366 else 365) ->
  let m := MonthFromDayInYear leap doy in
  0 <= m <= 11 /\ MonthStart leap m <= doy < MonthStart leap (m + 1).
Proof.
  intros H. unfold MonthFromDayInYear.
  destruct leap;
    repeat (match goal with
            | |- context [Z.ltb ?a ?b] => destruct (Z.ltb_spec a b)
            end);
    vm_compute MonthStart in *; cbv zeta; lia.
Qed.

Lemma TimeWithinDay_fields t :
  let r := TimeWithinDay t in
  0 <= HourFromTime t <= 23 /\ 0 <= MinFromTime t <= 59 /\
  0 <= SecFromTime t <= 59 /\ 0 <= msFromTime t <= 999 /\
  MakeTime (HourFromTime t) (MinFromTime t) (SecFromTime t) (msFromTime t) = r.
Proof.
  unfold HourFromTime, MinFromTime, SecFromTime, msFromTime, MakeTime.
  assert (0 <= TimeWithinDay t < 86400000) by (apply Z.mod_pos_bound; reflexivity).
  generalize dependent (TimeWithinDay t). intros r Hr. cbv zeta.
  Z.div_mod_to_equations. lia.
Qed.

Lemma Year_range t :
  - maxTime <= t <= maxTime -> -271821 <= YearFromTime t <= 275760.
Proof.
  intros Ht. unfold YearFromTime.
  pose proof (YearFromDay_bracket (Day t)) as H.
  assert (-100000000 <= Day t <= 100000000)
    by (unfold Day, msPerDay, maxTime in *; Z.div_mod_to_equations; lia).
  unfold DayFromYear in H. Z.div_mod_to_equations. lia.
Qed.

Lemma parse_year_field y rest :
  -999999 <= y <= 999999 ->
  parse_year (year_field y ++ rest) = Some (y, rest).
Proof.
  intros Hy. unfold year_field.
  destruct (Z.leb_spec 0 y) as [H0|H0]; [destruct (Z.leb_spec y 9999) as [H1|H1]|];
    cbn [andb].
  - assert (Hq : 0 <= y / 10 ^ Z.of_nat 3 <= 9)
      by (change (10 ^ Z.of_nat 3) with 1000; Z.div_mod_to_equations; lia).
    pose proof (read_digits_pad 4 y 0 rest ltac:(change (10 ^ Z.of_nat 4) with 10000; lia)) as R.
    change (pad 4 y ++ rest) with
      (digit (y / 10 ^ Z.of_nat 3) :: pad 3 (y mod 10 ^ Z.of_nat 3) ++ rest) in *.
    unfold parse_year.
    replace (N.eqb (digit (y / 10 ^ Z.of_nat 3)) (ch "+")) with false
      by (symmetry; apply N.eqb_neq; unfold digit; change (ch "+") with 43%N; lia).
    replace (N.eqb (digit (y / 10 ^ Z.of_nat 3)) (ch "-")) with false
      by (symmetry; apply N.eqb_neq; unfold digit; change (ch "-") with 45%N; lia).
    rewrite R. f_equal.
  - destruct (Z.ltb_spec y 0); [lia|].
    cbn [app parse_year]. change (N.eqb (ch "+") (ch "+")) with true. cbv iota.
    rewrite read_digits_pad by (change (10 ^ Z.of_nat 6) with 1000000; lia).
    f_equal. f_equal. lia.
  - destruct (Z.ltb_spec y 0); [|lia].
    cbn [app parse_year]. change (N.eqb (ch "-") (ch "+")) with false.
    change (N.eqb (ch "-") (ch "-")) with true. cbv iota.
    rewrite read_digits_pad by (change (10 ^ Z.of_nat 6) with 1000000; lia).
    cbn [mbind option_bind]. 
    destruct (Z.eqb_spec (0 * 10 ^ Z.of_nat 6 + Z.abs y) 0); [lia|].
    f_equal. f_equal. lia.
Qed.

Lemma DaysInMonth_le (leap : bool) m :
  0 <= m <= 11 -> DaysInMonth leap m <= 31.
Proof.
  intros Hm. unfold DaysInMonth.
  assert (Hc : m = 0 \/ m = 1 \/ m = 2 \/ m = 3 \/ m = 4 \/ m = 5 \/ m = 6
               \/ m = 7 \/ m = 8 \/ m = 9 \/ m = 10 \/ m = 11) by lia.
  destruct leap; repeat (destruct Hc as [->|Hc]; [by vm_compute|]);
    subst m; by vm_compute.
Qed.

Lemma expect_cons c rest : expect c (c :: rest) = Some rest.
Proof. unfold expect. by rewrite N.eqb_refl. Qed.

(** [Date.parse] reads back what [toISOString] wrote, to the millisecond,
    for every time value a [Date] can hold. *)
Theorem parse_toISOString t :
  - maxTime <= t <= maxTime -> parse (toISOString t) = Some t.
Proof.
  intros Ht. unfold parse, toISOString.
  pose proof (Year_range t Ht) as Hy.
  pose proof (DayWithinYear_range t) as Hd. unfold DaysInYear in Hd.
  pose proof (Month_range _ _ Hd) as [Hm Hms]. fold (MonthFromTime t) in Hm, Hms.
  pose proof (TimeWithinDay_fields t) as (Hh & Hmi & Hs & Hmsec & Hmk).
  assert (Hdate : 1 <= DateFromTime t <= DaysInMonth (InLeapYear (YearFromTime t)) (MonthFromTime t))
    by (unfold DateFromTime, DaysInMonth; lia).
  pose proof (DaysInMonth_le (InLeapYear (YearFromTime t)) _ Hm) as Hdim.
  rewrite parse_year_field by lia. cbn [mbind option_bind].
  rewrite expect_cons. cbn [mbind option_bind].
  rewrite read_digits_pad by (change (10 ^ Z.of_nat 2) with 100; lia). cbn [mbind option_bind].
  rewrite expect_cons. cbn [mbind option_bind].
  rewrite read_digits_pad by (change (10 ^ Z.of_nat 2) with 100; lia). cbn [mbind option_bind].
  rewrite expect_cons. cbn [mbind option_bind].
  rewrite read_digits_pad by (change (10 ^ Z.of_nat 2) with 100; lia). cbn [mbind option_bind].
  rewrite expect_cons. cbn [mbind option_bind].
  rewrite read_digits_pad by (change (10 ^ Z.of_nat 2) with 100; lia). cbn [mbind option_bind].
  rewrite expect_cons. cbn [mbind option_bind].
  rewrite read_digits_pad by (change (10 ^ Z.of_nat 2) with 100; lia). cbn [mbind option_bind].
  rewrite expect_cons. cbn [mbind option_bind].
  rewrite read_digits_pad by (change (10 ^ Z.of_nat 3) with 1000; lia). cbn [mbind option_bind].
  rewrite expect_cons. cbn [mbind option_bind].
  change (0 * 10 ^ Z.of_nat 2) with 0. change (0 * 10 ^ Z.of_nat 3) with 0.
  rewrite !Z.add_0_l.
  replace (MonthFromTime t + 1 - 1) with (MonthFromTime t) by lia.
  replace (fields_ok _ _ _ _ _ _ _) with true.
  2:{ symmetry. unfold fields_ok, hour_ok.
      rewrite (proj2 (Z.leb_le (HourFromTime t) 23)) by lia. cbn [orb].
      rewrite Z.add_simpl_r, andb_true_r, !andb_true_iff, !Z.leb_le. lia. }
  rewrite Hmk. unfold MakeDay, MakeDate, DateFromTime, DayWithinYear, TimeClip.
  replace (_ * msPerDay + _) with t.
  2:{ unfold Day, TimeWithinDay. pose proof (Z.div_mod t msPerDay ltac:(done)). lia. }
  destruct (Z.leb_spec (Z.abs t) maxTime); [done|lia].
Qed.

(** *** Facts about JSON text: strings *)

Lemma hex_value_hexdig k : (k < 16)%N -> hex_value (hexdig k) = Some k.
Proof.
  intros Hk.
  assert (k = 0 \/ k = 1 \/ k = 2 \/ k = 3 \/ k = 4 \/ k = 5 \/ k = 6 \/ k = 7
       \/ k = 8 \/ k = 9 \/ k = 10 \/ k = 11 \/ k = 12 \/ k = 13 \/ k = 14
       \/ k = 15)%N as Hd by lia.
  repeat (destruct Hd as [->|Hd]; [by vm_compute|]). subst k. by vm_compute.
Qed.

Lemma parse_unicode_escape c s :
  (c < 65536)%N ->
  parse_string_body (unicode_escape c ++ s)
  = '(str, rest) ← parse_string_body s; Some (c :: str, rest).
Proof.
  intros Hc. unfold unicode_escape. cbn [app parse_string_body].
  change (N.eqb backslash quote) with false.
  change (N.eqb backslash backslash) with true.
  change (N.eqb (ch "u") (ch "u")) with true. cbv iota.
  rewrite !hex_value_hexdig by (apply N.mod_lt; lia).
  cbn [mbind option_bind].
  replace (_ + _ + _ + _)%N with c; [done|].
  replace (c / 256)%N with (c / 16 / 16)%N by (by rewrite N.Div0.div_div).
  replace (c / 4096)%N with (c / 16 / 16 / 16)%N by (by rewrite !N.Div0.div_div).
  zify. Z.to_euclidean_division_equations. lia.
Qed.

Lemma parse_escape_char c s :
  is_high_surrogate c = false -> is_low_surrogate c = false ->
  parse_string_body (escape_char c ++ s)
  = '(str, rest) ← parse_string_body s; Some (c :: str, rest).
Proof.
  intros _ _. unfold escape_char.
  repeat (match goal with
          | |- context [N.eqb c ?k] => destruct (N.eqb_spec c k) as [->|]
          end; [by vm_compute|]).
  destruct (N.ltb_spec c 32).
  - apply parse_unicode_escape. lia.
  - cbn [app parse_string_body].
    rewrite (proj2 (N.eqb_neq c quote)), (proj2 (N.eqb_neq c backslash)) by done.
    by rewrite (proj2 (N.ltb_ge c 32)).
Qed.

Lemma parse_surrogate_pair c d s :
  is_high_surrogate c = true -> is_low_surrogate d = true ->
  parse_string_body (c :: d :: s)
  = '(str, rest) ← parse_string_body s; Some (c :: d :: str, rest).
Proof.
  unfold is_high_surrogate, is_low_surrogate.
  rewrite !andb_true_iff, !N.leb_le. intros [] [].
  cbn [parse_string_body].
  rewrite (proj2 (N.eqb_neq c quote)), (proj2 (N.eqb_neq c backslash)),
    (proj2 (N.eqb_neq d quote)), (proj2 (N.eqb_neq d backslash))
    by (unfold quote, backslash; lia).
  rewrite (proj2 (N.ltb_ge c 32)), (proj2 (N.ltb_ge d 32)) by lia.
  destruct (parse_string_body s) as [[]|]; done.
Qed.

Lemma surrogate_bound c :
  is_high_surrogate c = true \/ is_low_surrogate c = true -> (c < 65536)%N.
Proof.
  unfold is_high_surrogate, is_low_surrogate.
  rewrite !andb_true_iff, !N.leb_le. lia.
Qed.

Lemma parse_quote_body_aux n : forall s rest,
  (length s <= n)%nat ->
  parse_string_body (quote_body s ++ quote :: rest) = Some (s, rest).
Proof.
  induction n as [|n IH]; intros s rest Hn.
  - destruct s; [|simpl in Hn; lia]. by vm_compute.
  - destruct s as [|c r]; [by vm_compute|]. simpl in Hn.
    cbn [quote_body].
    destruct (is_high_surrogate c) eqn:Hh.
    + destruct r as [|d r'].
      * rewrite parse_unicode_escape by (apply surrogate_bound; auto). by vm_compute.
      * destruct (is_low_surrogate d) eqn:Hl.
        -- change ((c :: d :: quote_body r') ++ quote :: rest)
             with (c :: d :: (quote_body r' ++ quote :: rest)).
           rewrite parse_surrogate_pair by done.
           rewrite IH by (simpl in Hn; lia). done.
        -- rewrite <- app_assoc, parse_unicode_escape by (apply surrogate_bound; auto).
           rewrite IH by lia. done.
    + destruct (is_low_surrogate c) eqn:Hl.
      * rewrite <- app_assoc, parse_unicode_escape by (apply surrogate_bound; auto).
        rewrite IH by lia. done.
      * rewrite <- app_assoc, parse_escape_char by done.
        rewrite IH by lia. done.
Qed.

Lemma parse_quote_body s rest :
  parse_string_body (quote_body s ++ quote :: rest) = Some (s, rest).
Proof. by apply (parse_quote_body_aux (length s)). Qed.

(** *** Facts about JSON text: values *)

Lemma stringify_head v :
  stable v -> exists c s, stringify v = c :: s /\ opens_value c.
Proof.
  destruct v as [| [] | | | |]; cbn [stable stringify]; try done;
    try (intros _; eexists _, _; split; [reflexivity|by vm_compute]).
Qed.

Lemma skip_ws_opens c s : is_json_ws c = false -> skip_ws (c :: s) = c :: s.
Proof. intros H. cbn [skip_ws]. by rewrite H. Qed.

Lemma print_seq_cons {A} (p : A -> jsstring) close x y r :
  print_seq p close (x :: y :: r) = p x ++ ch "," :: print_seq p close (y :: r).
Proof. done. Qed.

Lemma parse_elements_print l :
  l <> [] -> Forall parses l ->
  forall f rest, (sum_size l <= f)%nat ->
    parse_elements f (print_seq stringify (ch "]") l ++ rest) = Some (l, rest).
Proof.
  induction l as [|x r IH]; [done|]. intros _ HP f rest Hf.
  inversion HP as [|? ? Hx Hr]; subst.
  change (sum_size (x :: r)) with (S (size x + sum_size r)) in Hf.
  destruct f as [|f]; [lia|]. cbn [parse_elements].
  destruct r as [|y r'].
  - cbn [print_seq]. rewrite <- app_assoc, Hx by lia. done.
  - rewrite print_seq_cons, <- app_assoc. cbn [app].
    rewrite Hx by lia. cbn [mbind option_bind].
    cbn [skip_ws]. change (is_json_ws (ch ",")) with false. cbv iota.
    change (N.eqb (ch ",") (ch ",")) with true. cbv iota.
    rewrite IH by (done || lia). done.
Qed.

Lemma parse_members_print o :
  o <> [] -> Forall (fun kv => parses (snd kv)) o ->
  forall f rest, (sum_size_members o <= f)%nat ->
    parse_members f (print_seq print_member (ch "}") o ++ rest) = Some (o, rest).
Proof.
  induction o as [|[k x] r IH]; [done|]. intros _ HP f rest Hf.
  inversion HP as [|? ? Hx Hr]; subst. cbn [snd] in Hx.
  change (sum_size_members ((k, x) :: r)) with (S (size x + sum_size_members r)) in Hf.
  destruct f as [|f]; [lia|]. cbn [parse_members].
  assert (Hhead : forall tail,
    (print_member (k, x) ++ tail)
    = quote :: (quote_body k ++ quote :: ch ":" :: stringify x ++ tail)).
  { intros tail. unfold print_member, quote_string. cbn [fst snd app].
    by rewrite <- !app_assoc. }
  destruct r as [|y r'].
  - cbn [print_seq]. rewrite <- app_assoc, Hhead.
    cbn [skip_ws]. change (is_json_ws quote) with false. cbv iota.
    change (N.eqb quote quote) with true. cbv iota.
    rewrite parse_quote_body. cbn [mbind option_bind].
    cbn [skip_ws]. change (is_json_ws (ch ":")) with false. cbv iota.
    change (N.eqb (ch ":") (ch ":")) with true. cbv iota.
    rewrite Hx by lia. done.
  - rewrite print_seq_cons, <- app_assoc, Hhead.
    cbn [skip_ws]. change (is_json_ws quote) with false. cbv iota.
    change (N.eqb quote quote) with true. cbv iota.
    rewrite parse_quote_body. cbn [mbind option_bind].
    cbn [skip_ws]. change (is_json_ws (ch ":")) with false. cbv iota.
    change (N.eqb (ch ":") (ch ":")) with true. cbv iota.
    cbn [app]. rewrite Hx by lia. cbn [mbind option_bind].
    cbn [skip_ws]. change (is_json_ws (ch ",")) with false. cbv iota.
    change (N.eqb (ch ",") (ch ",")) with true. cbv iota.
    rewrite IH by (done || lia). done.
Qed.

Lemma all_stable_Forall l : all_stable l -> Forall stable l.
Proof. induction l as [|x r IH]; [constructor|]. intros [? ?]. constructor; auto. Qed.

Lemma all_stable_members_Forall o :
  all_stable_members o -> Forall (fun kv => stable (snd kv)) o.
Proof. induction o as [|x r IH]; [constructor|]. intros [? ?]. constructor; auto. Qed.

Lemma seq_head {A} (p : A -> jsstring) close x r rest :
  (exists c s, p x = c :: s /\ opens_value c) ->
  exists c s, print_seq p close (x :: r) ++ rest = c :: s /\ opens_value c.
Proof.
  intros (c & s & E & Hc). destruct r; cbn [print_seq]; rewrite E;
    eexists _, _; (split; [reflexivity|done]).
Qed.

(** A stable value parses back from its printed form, whatever follows it
    and with any fuel from its size up. *)
Theorem stringify_parses v : stable v -> parses v.
Proof.
  induction v as [| b | n | s | l IH | o IH] using json_induction;
    intros Hst f rest Hf; (destruct f as [|f]; [cbn [size] in Hf; lia|]).
  - done.
  - by destruct b.
  - done.
  - cbn [stringify quote_string app parse_value skip_ws].
    change (is_json_ws quote) with false. cbv iota.
    change (N.eqb quote (ch "{")) with false.
    change (N.eqb quote (ch "[")) with false.
    change (N.eqb quote quote) with true. cbv iota.
    rewrite <- app_assoc. cbn [app]. rewrite parse_quote_body. done.
  - change (stable (JArr l)) with (all_stable l) in Hst.
    change (size (JArr l)) with (S (sum_size l)) in Hf.
    apply all_stable_Forall in Hst.
    cbn [stringify app parse_value skip_ws].
    change (is_json_ws (ch "[")) with false. cbv iota.
    change (N.eqb (ch "[") (ch "{")) with false.
    change (N.eqb (ch "[") (ch "[")) with true. cbv iota.
    destruct l as [|x r]; [done|].
    inversion Hst as [|? ? Hx _]; subst.
    destruct (seq_head stringify (ch "]") x r rest (stringify_head x Hx))
      as (c & s & E & Hws & Hc & _).
    rewrite E, skip_ws_opens by done.
    rewrite (proj2 (N.eqb_neq c (ch "]"))) by done.
    rewrite <- E, parse_elements_print; [done|done| |lia].
    clear -IH Hst. induction IH; inversion Hst; subst; constructor; auto.
  - destruct Hst as [Hb Hst].
    change (all_stable_members o) in Hst.
    change (size (JObj o)) with (S (sum_size_members o)) in Hf.
    apply all_stable_members_Forall in Hst.
    cbn [stringify app parse_value skip_ws].
    change (is_json_ws (ch "{")) with false. cbv iota.
    change (N.eqb (ch "{") (ch "{")) with true. cbv iota.
    destruct o as [|[k x] r]; [done|].
    change (fun kv : jsstring * json => quote_string (fst kv) ++ ch ":" :: stringify (snd kv))
      with print_member.
    destruct (seq_head print_member (ch "}") (k, x) r rest) as (c & s & E & Hws & _ & Hc & _).
    { eexists _, _. split; [reflexivity|by vm_compute]. }
    rewrite E, skip_ws_opens by done.
    rewrite (proj2 (N.eqb_neq c (ch "}"))) by done.
    rewrite <- E, parse_members_print; [|done| |lia].
    + cbn [mbind option_bind]. by rewrite Hb.
    + clear -IH Hst. induction IH; inversion Hst; subst; constructor; auto.
Qed.

Lemma stringify_length v : stable v -> (size v <= 2 * length (stringify v))%nat.
Proof.
  induction v as [| b | n | s | l IH | o IH] using json_induction; intros Hst.
  - cbn. lia.
  - destruct b; cbn; lia.
  - done.
  - cbn [size stringify quote_string length]. lia.
  - change (stable (JArr l)) with (all_stable l) in Hst.
    change (size (JArr l)) with (S (sum_size l)).
    apply all_stable_Forall in Hst.
    change (stringify (JArr l)) with (ch "[" :: print_seq stringify (ch "]") l).
    cbn [length].
    assert (sum_size l + length l <= 2 * length (print_seq stringify (ch "]") l))%nat; [|lia].
    induction IH as [|x r Hx Hr IHr]; [cbn; lia|].
    inversion Hst; subst.
    change (sum_size (x :: r)) with (S (size x + sum_size r)).
    destruct r as [|y r'].
    + cbn [print_seq]. rewrite length_app. specialize (Hx ltac:(done)). cbn. lia.
    + rewrite print_seq_cons, length_app. cbn [length].
      specialize (Hx ltac:(done)). specialize (IHr ltac:(done)). cbn [length] in *. lia.
  - destruct Hst as [_ Hst]. change (all_stable_members o) in Hst.
    change (size (JObj o)) with (S (sum_size_members o)).
    apply all_stable_members_Forall in Hst.
    change (stringify (JObj o)) with (ch "{" :: print_seq print_member (ch "}") o).
    cbn [length].
    assert (sum_size_members o + length o <= 2 * length (print_seq print_member (ch "}") o))%nat; [|lia].
    induction IH as [|[k x] r Hx Hr IHr]; [cbn; lia|].
    inversion Hst; subst. cbn [snd] in *.
    change (sum_size_members ((k, x) :: r)) with (S (size x + sum_size_members r)).
    destruct r as [|y r'].
    + cbn [print_seq]. rewrite length_app. unfold print_member at 1.
      rewrite length_app. cbn [length snd fst]. specialize (Hx ltac:(done)).
      change (sum_size_members []) with 0%nat. lia.
    + rewrite print_seq_cons, length_app. unfold print_member at 1.
      rewrite length_app. cbn [length snd fst].
      specialize (Hx ltac:(done)). specialize (IHr ltac:(done)). cbn [length] in *. lia.
Qed.

(** [JSON.parse (JSON.stringify v)] is [v] for every stable value. *)
Theorem JSON_parse_stringify v : stable v -> JSON_parse (JSON_stringify v) = Some v.
Proof.
  intros Hst. unfold JSON_parse, JSON_stringify.
  pose proof (stringify_parses v Hst (2 * length (stringify v) + 2)%nat []) as H.
  rewrite app_nil_r in H. rewrite H; [done|].
  pose proof (stringify_length v Hst). lia.
Qed.

(** From here on the printers and parsers stay folded. *)
#[local] Arguments js : simpl never.
#[local] Arguments ch : simpl never.
#[local] Arguments get_prop : simpl never.
#[local] Arguments chat_request : simpl never.
#[local] Arguments JSON_stringify : simpl never.
#[local] Arguments JSON_parse : simpl never.
#[local] Arguments toISOString : simpl never.
#[local] Arguments Z_toString : simpl never.
#[local] Arguments trim : simpl never.
#[local] Arguments success_toast : simpl never.
#[local] Arguments history_toJSON : simpl never.
#[local] Arguments or_else : simpl never.
#[local] Arguments ToString : simpl never.
#[local] Arguments error_description : simpl never.
#[local] Arguments placeholder : simpl never.

(** *** Facts about JSON text: fuel *)

Lemma skip_ws_length s : (length (skip_ws s) <= length s)%nat.
Proof.
  induction s as [|c r IH]; [done|]. cbn [skip_ws].
  destruct (is_json_ws c); cbn [length]; lia.
Qed.

Lemma skip_ws_cons s c r : skip_ws s = c :: r -> (length r < length s)%nat.
Proof. intros H. pose proof (skip_ws_length s) as L. rewrite H in L. cbn in L. lia. Qed.

Lemma parse_string_body_shrinks_aux n : forall s str r,
  (length s <= n)%nat -> parse_string_body s = Some (str, r) ->
  (length r < length s)%nat.
Proof.
  induction n as [|n IH]; intros s str r Hn H.
  - destruct s; [done|cbn in Hn; lia].
  - destruct s as [|c s1]; [done|]. cbn [length] in *. cbn [parse_string_body] in H.
    destruct (N.eqb c quote); [injection H as <- <-; lia|].
    destruct (N.eqb c backslash).
    + destruct s1 as [|e s2]; [done|]. cbn [length] in *.
      destruct (N.eqb e (ch "u")).
      * destruct s2 as [|h1 [|h2 [|h3 [|h4 s3]]]]; try done. cbn [length] in *.
        destruct (hex_value h1); [|done]. destruct (hex_value h2); [|done].
        destruct (hex_value h3); [|done]. destruct (hex_value h4); [|done].
        cbn [mbind option_bind] in H.
        destruct (parse_string_body s3) as [[str' r']|] eqn:E; [|done].
        cbn [mbind option_bind] in H. injection H as <- <-.
        apply IH in E; lia.
      * destruct (simple_escape e); [|done]. cbn [mbind option_bind] in H.
        destruct (parse_string_body s2) as [[str' r']|] eqn:E; [|done].
        cbn [mbind option_bind] in H. injection H as <- <-.
        apply IH in E; lia.
    + destruct (c <? 32)%N; [done|].
      destruct (parse_string_body s1) as [[str' r']|] eqn:E; [|done].
      cbn [mbind option_bind] in H. injection H as <- <-.
      apply IH in E; lia.
Qed.

Lemma parse_string_body_shrinks s str r :
  parse_string_body s = Some (str, r) -> (length r < length s)%nat.
Proof. by apply (parse_string_body_shrinks_aux (length s)). Qed.

Lemma span_digits_length s : (length (span_digits s).2 <= length s)%nat.
Proof.
  induction s as [|c r IH]; [done|]. cbn [span_digits].
  destruct (is_digit c); [|done].
  destruct (span_digits r). cbn [snd length] in *. lia.
Qed.

Lemma parse_number_shrinks c s n r :
  parse_number (c :: s) = Some (n, r) -> (length r < length (c :: s))%nat.
Proof.
  unfold parse_number.
  assert (Hint : forall s1 ip s2, parse_int_part s1 = Some (ip, s2) ->
            (length s2 < length s1)%nat).
  { intros s1 ip s2. unfold parse_int_part. destruct s1 as [|d s1']; [done|].
    destruct (N.eqb d 48); [intros [= <- <-]; cbn; lia|].
    destruct (is_digit d) eqn:Hd; [|done]. intros [= H].
    pose proof (span_digits_length s1') as L.
    cbn [span_digits] in H. rewrite Hd in H. destruct (span_digits s1').
    injection H as <- <-. cbn [snd length] in *. lia. }
  assert (Hfrac : forall s1 fp s2, parse_frac_part s1 = Some (fp, s2) ->
            (length s2 <= length s1)%nat).
  { intros s1 fp s2. unfold parse_frac_part. destruct s1 as [|d s1']; [by intros [= <- <-]|].
    destruct (N.eqb d (ch ".")); [|by intros [= <- <-]].
    pose proof (span_digits_length s1') as L.
    destruct (span_digits s1') as [[|] ?]; [done|]. intros [= <- <-].
    cbn [snd length] in *. lia. }
  assert (Hexpd : forall b s1 ex s2, parse_exp_digits b s1 = Some (ex, s2) ->
            (length s2 <= length s1)%nat).
  { intros b s1 ex s2. unfold parse_exp_digits.
    pose proof (span_digits_length s1) as L.
    destruct (span_digits s1) as [[|] ?]; [done|]. intros [= <- <-]. done. }
  assert (Hexp : forall s1 ex s2, parse_exp_part s1 = Some (ex, s2) ->
            (length s2 <= length s1)%nat).
  { intros s1 ex s2. unfold parse_exp_part. destruct s1 as [|d s1']; [by intros [= <- <-]|].
    destruct (_ || _); [|by intros [= <- <-]].
    destruct s1' as [|sg s1'']; [done|].
    destruct (N.eqb sg (ch "+")); [intros H%Hexpd; cbn [length]; lia|].
    destruct (N.eqb sg (ch "-")); intros H%Hexpd; cbn [length] in *; lia. }
  destruct (N.eqb c (ch "-")).
  - destruct (parse_int_part s) as [[ip s2]|] eqn:E1; [|done]. cbn [mbind option_bind].
    destruct (parse_frac_part s2) as [[fp s3]|] eqn:E2; [|done]. cbn [mbind option_bind].
    destruct (parse_exp_part s3) as [[ex s4]|] eqn:E3; [|done]. cbn [mbind option_bind].
    intros [= <- <-]. apply Hint in E1. apply Hfrac in E2. apply Hexp in E3.
    cbn [length]. lia.
  - destruct (parse_int_part (c :: s)) as [[ip s2]|] eqn:E1; [|done]. cbn [mbind option_bind].
    destruct (parse_frac_part s2) as [[fp s3]|] eqn:E2; [|done]. cbn [mbind option_bind].
    destruct (parse_exp_part s3) as [[ex s4]|] eqn:E3; [|done]. cbn [mbind option_bind].
    intros [= <- <-]. apply Hint in E1. apply Hfrac in E2. apply Hexp in E3.
    cbn [length] in *. lia.
Qed.

Lemma expect_word_shrinks w v s v' r :
  w <> [] -> expect_word w v s = Some (v', r) -> (length r < length s)%nat.
Proof.
  intros Hw. unfold expect_word. destruct (starts_with w s) eqn:E; [|done].
  intros [= <- <-]. rewrite length_drop.
  destruct w; [done|]. destruct s; [done|]. cbn [length]. lia.
Qed.

Lemma parse_shrinks f :
  (forall s v r, parse_value f s = Some (v, r) -> (length r < length s)%nat)
  /\ (forall s vs r, parse_elements f s = Some (vs, r) -> (length r < length s)%nat)
  /\ (forall s kvs r, parse_members f s = Some (kvs, r) -> (length r < length s)%nat).
Proof.
  induction f as [|f (IHv & IHe & IHm)]; [done|].
  split; [|split].
  - intros s v r. cbn [parse_value].
    destruct (skip_ws s) as [|c r0] eqn:Es; [done|]. apply skip_ws_cons in Es.
    destruct (N.eqb c (ch "{")).
    { destruct (skip_ws r0) as [|c' r'] eqn:Er; [done|]. apply skip_ws_cons in Er.
      destruct (N.eqb c' (ch "}")); [intros [= <- <-]; lia|].
      destruct (parse_members f (c' :: r')) as [[kvs rest]|] eqn:E; [|done].
      cbn [mbind option_bind]. intros [= <- <-]. apply IHm in E. cbn [length] in E. lia. }
    destruct (N.eqb c (ch "[")).
    { destruct (skip_ws r0) as [|c' r'] eqn:Er; [done|]. apply skip_ws_cons in Er.
      destruct (N.eqb c' (ch "]")); [intros [= <- <-]; lia|].
      destruct (parse_elements f (c' :: r')) as [[vs rest]|] eqn:E; [|done].
      cbn [mbind option_bind]. intros [= <- <-]. apply IHe in E. cbn [length] in E. lia. }
    destruct (N.eqb c quote).
    { destruct (parse_string_body r0) as [[str rest]|] eqn:E; [|done].
      cbn [mbind option_bind]. intros [= <- <-]. apply parse_string_body_shrinks in E. lia. }
    destruct (N.eqb c (ch "t")); [intros H%expect_word_shrinks; [cbn [length] in H; lia|done]|].
    destruct (N.eqb c (ch "f")); [intros H%expect_word_shrinks; [cbn [length] in H; lia|done]|].
    destruct (N.eqb c (ch "n")); [intros H%expect_word_shrinks; [cbn [length] in H; lia|done]|].
    destruct (parse_number (c :: r0)) as [[n rest]|] eqn:E; [|done].
    cbn [mbind option_bind]. intros [= <- <-]. apply parse_number_shrinks in E.
    cbn [length] in E. lia.
  - intros s vs r. cbn [parse_elements].
    destruct (parse_value f s) as [[v r0]|] eqn:E; [|done]. cbn [mbind option_bind].
    apply IHv in E.
    destruct (skip_ws r0) as [|c r'] eqn:Er; [done|]. apply skip_ws_cons in Er.
    destruct (N.eqb c (ch ",")).
    { destruct (parse_elements f r') as [[vs' rest]|] eqn:E2; [|done].
      cbn [mbind option_bind]. intros [= <- <-]. apply IHe in E2. lia. }
    destruct (N.eqb c (ch "]")); [|done]. intros [= <- <-]. lia.
  - intros s kvs r. cbn [parse_members].
    destruct (skip_ws s) as [|c r0] eqn:Es; [done|]. apply skip_ws_cons in Es.
    destruct (N.eqb c quote); [|done].
    destruct (parse_string_body r0) as [[k r1]|] eqn:E; [|done].
    cbn [mbind option_bind]. apply parse_string_body_shrinks in E.
    destruct (skip_ws r1) as [|c1 r2] eqn:E1; [done|]. apply skip_ws_cons in E1.
    destruct (N.eqb c1 (ch ":")); [|done].
    destruct (parse_value f r2) as [[v r3]|] eqn:E2; [|done].
    cbn [mbind option_bind]. apply IHv in E2.
    destruct (skip_ws r3) as [|c3 r4] eqn:E3; [done|]. apply skip_ws_cons in E3.
    destruct (N.eqb c3 (ch ",")).
    { destruct (parse_members f r4) as [[kvs' rest]|] eqn:E4; [|done].
      cbn [mbind option_bind]. intros [= <- <-]. apply IHm in E4. lia. }
    destruct (N.eqb c3 (ch "}")); [|done]. intros [= <- <-]. lia.
Qed.

Lemma fuel_enough n :
  (forall s f1 f2, (length s <= n)%nat ->
     (2 * length s + 1 <= f1)%nat -> (2 * length s + 1 <= f2)%nat ->
     parse_value f1 s = parse_value f2 s)
  /\ (forall s f1 f2, (length s <= n)%nat ->
     (2 * length s + 2 <= f1)%nat -> (2 * length s + 2 <= f2)%nat ->
     parse_elements f1 s = parse_elements f2 s)
  /\ (forall s f1 f2, (length s <= n)%nat ->
     (2 * length s + 2 <= f1)%nat -> (2 * length s + 2 <= f2)%nat ->
     parse_members f1 s = parse_members f2 s).
Proof.
  induction n as [|n (IHv & IHe & IHm)].
  - split; [|split]; intros [|] [|f1] [|f2] Hn H1 H2; cbn [length] in *; try lia;
      try done.
    destruct f1, f2; try lia; done.
  - assert (Hv : forall s f1 f2, (length s <= S n)%nat ->
       (2 * length s + 1 <= f1)%nat -> (2 * length s + 1 <= f2)%nat ->
       parse_value f1 s = parse_value f2 s).
    { intros s [|g1] [|g2] Hn H1 H2; try lia. cbn [parse_value].
      destruct (skip_ws s) as [|c r0] eqn:Es; [done|]. apply skip_ws_cons in Es.
      destruct (N.eqb c (ch "{")).
      { destruct (skip_ws r0) as [|c' r'] eqn:Er; [done|].
        pose proof (skip_ws_length r0) as L. rewrite Er in L.
        destruct (N.eqb c' (ch "}")); [done|].
        rewrite (IHm (c' :: r') g1 g2) by lia. done. }
      destruct (N.eqb c (ch "[")).
      { destruct (skip_ws r0) as [|c' r'] eqn:Er; [done|].
        pose proof (skip_ws_length r0) as L. rewrite Er in L.
        destruct (N.eqb c' (ch "]")); [done|].
        rewrite (IHe (c' :: r') g1 g2) by lia. done. }
      done. }
    split; [exact Hv|]. split.
    + intros s [|g1] [|g2] Hn H1 H2; try lia. cbn [parse_elements].
      rewrite (Hv s g1 g2) by lia.
      destruct (parse_value g2 s) as [[v r0]|] eqn:E; [|done]. cbn [mbind option_bind].
      apply parse_shrinks in E.
      destruct (skip_ws r0) as [|c r'] eqn:Er; [done|]. apply skip_ws_cons in Er.
      destruct (N.eqb c (ch ",")); [|done].
      rewrite (IHe r' g1 g2) by lia. done.
    + intros s [|g1] [|g2] Hn H1 H2; try lia. cbn [parse_members].
      destruct (skip_ws s) as [|c r0] eqn:Es; [done|]. apply skip_ws_cons in Es.
      destruct (N.eqb c quote); [|done].
      destruct (parse_string_body r0) as [[k r1]|] eqn:E; [|done].
      cbn [mbind option_bind]. apply parse_string_body_shrinks in E.
      destruct (skip_ws r1) as [|c1 r2] eqn:E1; [done|]. apply skip_ws_cons in E1.
      destruct (N.eqb c1 (ch ":")); [|done].
      rewrite (IHv r2 g1 g2) by lia.
      destruct (parse_value g2 r2) as [[v r3]|] eqn:E2; [|done].
      cbn [mbind option_bind]. apply parse_shrinks in E2.
      destruct (skip_ws r3) as [|c3 r4] eqn:E3; [done|]. apply skip_ws_cons in E3.
      destruct (N.eqb c3 (ch ",")); [|done].
      rewrite (IHm r4 g1 g2) by lia. done.
Qed.

(** More fuel than [JSON_parse] supplies never changes the result: [None]
    is a syntax error, not an exhausted budget. *)
Theorem JSON_parse_fuel text f :
  (2 * length text + 2 <= f)%nat ->
  parse_value f text = parse_value (2 * length text + 2) text.
Proof.
  intros Hf. apply (proj1 (fuel_enough (length text))); lia.
Qed.

(** *** Facts about the handlers *)

Lemma str_eqb_eq a b : str_eqb a b = true <-> a = b.
Proof.
  revert b. induction a as [|x a IH]; intros [|y b]; cbn; try done.
  rewrite andb_true_iff, N.eqb_eq, IH. split; [intros []; congruence|].
  intros [= -> ->]. done.
Qed.

Lemma str_eqb_nil_false s : s <> [] -> str_eqb s [] = false.
Proof. by destruct s. Qed.

Lemma str_eqb_refl s : str_eqb s s = true.
Proof. by apply str_eqb_eq. Qed.

Lemma obj_get_obj_set {V} k (v : V) o : obj_get k (obj_set k v o) = Some v.
Proof.
  unfold obj_set. destruct (obj_get k o) as [v0|] eqn:Hg.
  - induction o as [|[k' v'] r IH]; [done|]. cbn in *.
    destruct (str_eqb k k') eqn:E; cbn; rewrite E; [done|]. by apply IH.
  - destruct (array_index k) as [i|].
    + induction o as [|[k' v'] r IH]; cbn in *; [by rewrite str_eqb_refl|].
      destruct (str_eqb k k') eqn:E; [done|].
      destruct (array_index k') as [j|]; [destruct (j <? i)%N|]; cbn;
        rewrite ?E, ?str_eqb_refl; try done. by apply IH.
    + induction o as [|[k' v'] r IH]; cbn in *; [by rewrite str_eqb_refl|].
      destruct (str_eqb k k'); [done|]. by apply IH.
Qed.

Lemma str_eqb_neq a b : a <> b -> str_eqb a b = false.
Proof.
  intros H. destruct (str_eqb a b) eqn:E; [|done]. by apply str_eqb_eq in E.
Qed.

(** Setting a property leaves the others as they were. *)
Lemma obj_get_obj_set_other {V} k k' (v : V) o :
  k <> k' -> obj_get k (obj_set k' v o) = obj_get k o.
Proof.
  intros Hne. apply str_eqb_neq in Hne. unfold obj_set.
  destruct (obj_get k' o) as [v0|] eqn:Hg.
  - clear Hg. induction o as [|[k1 v1] r IH]; [done|]. cbn.
    destruct (str_eqb k' k1) eqn:E; cbn.
    + apply str_eqb_eq in E. subst k1. by rewrite Hne.
    + destruct (str_eqb k k1); [done|]. apply IH.
  - clear Hg. destruct (array_index k') as [i|].
    + induction o as [|[k1 v1] r IH]; cbn; [by rewrite Hne|].
      destruct (array_index k1) as [j|]; [destruct (j <? i)%N|]; cbn;
        rewrite ?Hne; try done.
      destruct (str_eqb k k1); [done|]. apply IH.
    + induction o as [|[k1 v1] r IH]; cbn; [by rewrite Hne|].
      destruct (str_eqb k k1); [done|]. apply IH.
Qed.

Lemma obj_get_fmap {V W} (f : V -> W) k (o : list (jsstring * V)) :
  obj_get k (map (fun kv => (fst kv, f (snd kv))) o) = f <$> obj_get k o.
Proof.
  induction o as [|[k1 v1] r IH]; [done|]. cbn.
  destruct (str_eqb k k1); [done|]. apply IH.
Qed.

Lemma ticked_fields n w :
  clock (ticked n w) = clock w /\ ticks (ticked n w) = (n + ticks w)%nat
  /\ requests (ticked n w) = requests w /\ toasts (ticked n w) = toasts w
  /\ console (ticked n w) = console w
  /\ localStorage (ticked n w) = localStorage w
  /\ write_refused (ticked n w) = write_refused w.
Proof.
  induction n as [|n IH]; [done|].
  change (ticked (S n) w) with (Date_now (ticked n w)).2.
  destruct IH as (H1 & H2 & H3 & H4 & H5 & H6 & H7).
  cbn [Date_now snd clock ticks requests toasts console localStorage
         write_refused].
  rewrite H2. by repeat split.
Qed.

Lemma saveToHistory_state seen q r s w :
  (saveToHistory seen q r s w).1
  = setQueryHistory
      (take 50 ([(js "id", VJson (JStr (Z_toString (clock w (ticks w)))));
                 (js "query", VJson q); (js "response", VJson r);
                 (js "timestamp", VDate (Some (clock w (S (ticks w)))))] :: seen)) s.
Proof.
  unfold saveToHistory. cbn [Date_now]. 
  destruct (setItem _ _ _); done.
Qed.

Lemma saveToHistory_clock seen q r s w :
  let w' := (saveToHistory seen q r s w).2 in
  clock w' = clock w /\ ticks w' = S (S (ticks w)) /\ requests w' = requests w
  /\ toasts w' = toasts w /\ write_refused w' = write_refused w.
Proof.
  unfold saveToHistory, setItem. cbn [Date_now].
  destruct (write_refused _ _); cbn; by repeat split.
Qed.

Lemma saveToHistory_length seen q r s w :
  length (queryHistory (saveToHistory seen q r s w).1)
  = Nat.min 50 (S (length seen)).
Proof. rewrite saveToHistory_state. cbn [queryHistory setQueryHistory]. by rewrite length_take. Qed.

Lemma saveToHistory_persists seen q r s w :
  let s' := (saveToHistory seen q r s w).1 in
  write_refused w (JSON_stringify (history_toJSON (queryHistory s'))) = false ->
  getItem history_key (saveToHistory seen q r s w).2
  = Some (JSON_stringify (history_toJSON (queryHistory s'))).
Proof.
  cbv zeta. rewrite saveToHistory_state. cbn [queryHistory setQueryHistory].
  intros Hw. unfold saveToHistory, setItem, Date_now. cbv beta iota zeta.
  cbn [write_refused clock ticks]. rewrite Hw. apply lookup_insert_eq.
Qed.


Lemma getItem_removeItem k w : getItem k (removeItem k w) = None.
Proof. apply lookup_delete_eq. Qed.

Lemma handleSubmit_accepted s w :
  blank (input s) = false -> isLoading s = false ->
  handleSubmit s w
  = let userMessage :=
      Message.mk (Z_toString (clock w (ticks w))) (JStr (trim (input s)))
        Message.user (clock w (S (ticks w))) in
    (setIsLoading true
       (setInput [] (setMessages (fun prev => prev ++ [userMessage]) s)),
     fetch (chat_request (backendUrl s) userMessage (messages s)) (ticked 2 w),
     Some (mkPending userMessage (queryHistory s) (backendUrl s))).
Proof. intros Hb Hl. unfold handleSubmit, handleSubmit_in. rewrite Hb, Hl. reflexivity. Qed.

Lemma handleSubmit_blank s w :
  trim (input s) = [] -> handleSubmit s w = (s, w, None).
Proof. intros H. unfold handleSubmit, handleSubmit_in, blank. by rewrite H. Qed.

Lemma handleSubmit_loading s w :
  isLoading s = true -> handleSubmit s w = (s, w, None).
Proof. intros H. unfold handleSubmit, handleSubmit_in. rewrite H. by rewrite orb_true_r. Qed.

Lemma handleSubmit_settled_flag p o s w :
  isLoading (handleSubmit_settled p o s w).1 = false.
Proof.
  unfold handleSubmit_settled. destruct (chat_try p o s w) as [[s1 w1] exn]. done.
Qed.

Lemma chat_try_success p r s w data resp :
  ok r = true -> JSON_parse (text r) = Some data ->
  get_prop data (js "response") = Some resp ->
  chat_try p (Resolved r) s w
  = let assistantMessage :=
      Message.mk (Z_toString (clock w (ticks w) + 1))
        (or_else resp (JStr placeholder)) Message.assistant
        (clock w (S (ticks w))) in
    let saved :=
      saveToHistory (seen_queryHistory p) (Message.content (userMessage p))
        (or_else resp (JStr placeholder))
        (setMessages (fun prev => prev ++ [assistantMessage]) s) (ticked 2 w) in
    match success_toast data with
    | Some t => (saved.1, toast t saved.2, None)
    | None => (saved.1, saved.2, Some unconvertible)
    end.
Proof.
  intros Hok Hp Hg. unfold chat_try. rewrite Hok, Hp. cbn [negb Date_now fst snd].
  rewrite Hg. cbv zeta. cbn [Date_now fst snd clock ticks Message.content].
  match goal with |- context [saveToHistory ?a ?b ?c ?d ?e] =>
    change e with (ticked 2 w); destruct (saveToHistory a b c d (ticked 2 w)) end.
  reflexivity.
Qed.

Lemma chat_try_not_ok p r s w :
  ok r = false ->
  chat_try p (Resolved r) s w
  = (s, w,
     Some
       (match
          get_prop
            (match JSON_parse (text r) with
             | Some v => v
             | None => JObj [(js "detail", JStr (js "Unknown error"))]
             end) (js "detail")
        with
        | None => null_read (js "detail")
        | Some detail =>
            new_Error
              (or_else detail (JStr (js "Failed to get response from backend")))
        end)).
Proof.
  intros Hok. unfold chat_try. rewrite Hok. cbn [negb].
  by destruct (get_prop _ _).
Qed.

Lemma step_noop a : handleSubmit (state a) (world a) = (state a, world a, None) ->
  step Submitted a = a.
Proof. intros H. destruct a. cbn in *. rewrite H. cbn. by rewrite app_nil_r. Qed.

Lemma step_Submitted_accepted a :
  blank (input (state a)) = false -> isLoading (state a) = false ->
  step Submitted a
  = let userMessage :=
      Message.mk (Z_toString (clock (world a) (ticks (world a))))
        (JStr (trim (input (state a)))) Message.user
        (clock (world a) (S (ticks (world a)))) in
    mkApp
      (setIsLoading true
         (setInput [] (setMessages (fun prev => prev ++ [userMessage]) (state a))))
      (fetch (chat_request (backendUrl (state a)) userMessage (messages (state a)))
         (ticked 2 (world a)))
      (outstanding a
       ++ [mkPending userMessage (queryHistory (state a)) (backendUrl (state a))]).
Proof.
  intros Hb Hl. destruct a as [s w out]. cbn [step state world outstanding] in *.
  rewrite handleSubmit_accepted by done. reflexivity.
Qed.

Lemma step_Settled_success a p rest r data resp :
  outstanding a = p :: rest ->
  ok r = true -> JSON_parse (text r) = Some data ->
  get_prop data (js "response") = Some resp ->
  step (Settled (Resolved r)) a
  = let assistantMessage :=
      Message.mk (Z_toString (clock (world a) (ticks (world a)) + 1))
        (or_else resp (JStr placeholder)) Message.assistant
        (clock (world a) (S (ticks (world a)))) in
    let saved :=
      saveToHistory (seen_queryHistory p) (Message.content (userMessage p))
        (or_else resp (JStr placeholder))
        (setMessages (fun prev => prev ++ [assistantMessage]) (state a))
        (ticked 2 (world a)) in
    mkApp (setIsLoading false saved.1)
      match success_toast data with
      | Some t => toast t saved.2
      | None => chat_catch p unconvertible saved.2
      end
      rest.
Proof.
  intros Ho Hok Hp Hg. destruct a as [s w out].
  cbn [step state world outstanding] in *. subst out.
  unfold handleSubmit_settled.
  rewrite (chat_try_success p r s w data resp Hok Hp Hg). cbv zeta.
  by destruct (success_toast data).
Qed.

Lemma step_Settled_not_ok a p rest r :
  outstanding a = p :: rest -> ok r = false ->
  exists e description,
    step (Settled (Resolved r)) a
    = mkApp (setIsLoading false (state a))
        (toast (mkToast (js "Error") description destructive)
           (log (console_error (js "Chat error:") e) (world a)))
        rest
    /\ chat_try p (Resolved r) (state a) (world a) = (state a, world a, Some e).
Proof.
  intros Ho Hok. destruct a as [s w out]. cbn [state world outstanding] in *.
  subst out. cbn [step outstanding state world]. unfold handleSubmit_settled.
  rewrite (chat_try_not_ok p r s w Hok).
  destruct (get_prop _ _) as [detail|]; [unfold new_Error; destruct (ToString _)|];
    eexists _, _; split; reflexivity.
Qed.

Lemma typed_submitted a text :
  idle a -> blank text = false ->
  let userMessage :=
    Message.mk (Z_toString (clock (world a) (ticks (world a))))
      (JStr (trim text)) Message.user (clock (world a) (S (ticks (world a)))) in
  run [Typed text; Submitted] a
  = mkApp
      (setIsLoading true
         (setInput []
            (setMessages (fun prev => prev ++ [userMessage])
               (setInput text (state a)))))
      (fetch (chat_request (backendUrl (state a)) userMessage (messages (state a)))
         (ticked 2 (world a)))
      [mkPending userMessage (queryHistory (state a)) (backendUrl (state a))].
Proof.
  intros [Hl Ho] Hb. cbv zeta. unfold run. cbn [foldl].
  rewrite step_Submitted_accepted.
  - destruct a as [s w out]. cbn [state world outstanding step] in *. by subst out.
  - by destruct a.
  - by destruct a.
Qed.

Lemma settled_reply a p rest r data resp :
  outstanding a = p :: rest ->
  ok r = true -> JSON_parse (text r) = Some data ->
  get_prop data (js "response") = Some resp ->
  let a' := step (Settled (Resolved r)) a in
  let w := world a in
  let assistantMessage :=
    Message.mk (Z_toString (clock w (ticks w) + 1))
      (or_else resp (JStr placeholder)) Message.assistant (clock w (S (ticks w))) in
  let entry :=
    [(js "id", VJson (JStr (Z_toString (clock w (2 + ticks w)%nat))));
     (js "query", VJson (Message.content (userMessage p)));
     (js "response", VJson (or_else resp (JStr placeholder)));
     (js "timestamp", VDate (Some (clock w (S (2 + ticks w)))))] in
  state a'
  = setIsLoading false
      (setQueryHistory (take 50 (entry :: seen_queryHistory p))
         (setMessages (fun prev => prev ++ [assistantMessage]) (state a)))
  /\ outstanding a' = rest
  /\ requests (world a') = requests (world a).
Proof.
  intros Ho Hok Hp Hg. cbv zeta.
  rewrite (step_Settled_success a p rest r data resp Ho Hok Hp Hg). cbv zeta.
  cbn [state world outstanding].
  match goal with |- context [saveToHistory ?a ?b ?c ?d ?e] =>
    pose proof (saveToHistory_state a b c d e) as Hs;
    pose proof (saveToHistory_clock a b c d e) as (_ & _ & Hrq & _ & _);
    destruct (saveToHistory a b c d e) as [s2 w3] end.
  cbn [fst snd] in *. subst s2.
  pose proof (ticked_fields 2 (world a)) as (Hc1 & Ht1 & Hr1 & _).
  rewrite Hc1, Ht1.
  destruct (success_toast data); cbn [chat_catch unconvertible toast log requests];
    rewrite Hrq, Hr1; done.
Qed.

Lemma or_else_text t b : t <> [] -> or_else (Some (JStr t)) b = JStr t.
Proof. by destruct t. Qed.

Lemma run_app evs1 evs2 a : run (evs1 ++ evs2) a = run evs2 (run evs1 a).
Proof. apply foldl_app. Qed.

Lemma take_app_take {A} n (l k : list A) :
  take n (l ++ take n k) = take n (l ++ k).
Proof. rewrite !take_app, take_take. do 2 f_equal. lia. Qed.

(** *** Facts about loading *)

Lemma loadHistory_unparseable s w saved :
  getItem history_key w = Some saved -> saved <> [] ->
  JSON_parse saved = None ->
  loadHistory s w
  = (s, removeItem history_key
          (log (console_error (js "Error loading query history:")
                  (syntax_error w saved)) w)).
Proof.
  intros Hg Hne Hp. unfold loadHistory.
  by rewrite Hg, str_eqb_nil_false, Hp.
Qed.

Lemma loadHistory_not_array s w saved v :
  getItem history_key w = Some saved ->
  JSON_parse saved = Some v -> is_array v = false ->
  loadHistory s w = (s, w).
Proof.
  intros Hg Hp Ha. unfold loadHistory. rewrite Hg.
  destruct (str_eqb saved []); [done|]. rewrite Hp. by destruct v.
Qed.

Lemma loadHistory_array s w saved items :
  getItem history_key w = Some saved ->
  JSON_parse saved = Some (JArr items) ->
  loadHistory s w
  = match revive_all (date_heuristics w) items with
    | inr h => (setQueryHistory h s, w)
    | inl e =>
        (s, removeItem history_key
              (log (console_error (js "Error loading query history:") e) w))
    end.
Proof.
  intros Hg Hp. unfold loadHistory. rewrite Hg.
  destruct (str_eqb saved []) eqn:E.
  - apply str_eqb_eq in E. subst saved. done.
  - by rewrite Hp.
Qed.

Lemma loadHistory_write_refused s w :
  write_refused (loadHistory s w).2 = write_refused w.
Proof.
  unfold loadHistory. destruct (getItem _ _); [|done].
  destruct (str_eqb _ _); [done|].
  destruct (JSON_parse _) as [[]|]; try done.
  destruct (revive_all _ _); done.
Qed.

Lemma loadHistory_requests s w :
  requests (loadHistory s w).2 = requests w /\ toasts (loadHistory s w).2 = toasts w
  /\ exists l, console (loadHistory s w).2 = console w ++ l.
Proof.
  unfold loadHistory. destruct (getItem _ _); [|by repeat split; exists []; rewrite app_nil_r].
  destruct (str_eqb _ _); [by repeat split; exists []; rewrite app_nil_r|].
  destruct (JSON_parse _) as [[]|]; try (by repeat split; exists []; rewrite app_nil_r).
  - destruct (revive_all _ _); [|by repeat split; exists []; rewrite app_nil_r].
    repeat split; by eexists.
  - repeat split; by eexists.
Qed.

Lemma revive_all_inr h items os :
  revive_all h items = inr os
  <-> Forall2 (fun item o => revive h item = inr o) items os.
Proof.
  revert os. induction items as [|item rest IH]; intros os; cbn [revive_all].
  - split; [by intros [= <-]; constructor|by inversion 1].
  - destruct (revive h item) as [e|o] eqn:E.
    + split; [done|]. inversion 1; congruence.
    + destruct (revive_all h rest) as [e|os'] eqn:E'.
      * split; [done|]. inversion 1 as [|? ? ? ? _ Hr]; subst.
        apply IH in Hr. done.
      * split.
        -- intros [= <-]. constructor; [done|]. by apply IH.
        -- inversion 1 as [|? o' ? os'' Ho Hr]; subst.
           apply IH in Hr. congruence.
Qed.

Lemma revive_all_inl h items e :
  revive_all h items = inl e -> exists item, item ∈ items /\ revive h item = inl e.
Proof.
  induction items as [|item rest IH]; cbn [revive_all]; [done|].
  destruct (revive h item) as [e'|o] eqn:E.
  - intros [= <-]. exists item. split; [by left|done].
  - destruct (revive_all h rest) as [e'|os]; [|done].
    intros [= <-]. destruct (IH eq_refl) as (x & Hx & He).
    exists x. split; [by right|done].
Qed.

Lemma revive_all_throws h items item e :
  item ∈ items -> revive h item = inl e -> exists e', revive_all h items = inl e'.
Proof.
  intros Hin He. destruct (revive_all h items) as [e'|os] eqn:E; [by eexists|].
  apply revive_all_inr in E. apply list_elem_of_lookup in Hin as [i Hi].
  destruct (Forall2_lookup_l _ _ _ _ _ E Hi) as (o & _ & Ho). congruence.
Qed.

Lemma history_toJSON_entries es :
  history_toJSON (map object_of_entry es) = JArr (map entry_json es).
Proof. unfold history_toJSON. by rewrite map_map. Qed.

Lemma stable_entries es : stable (JArr (map entry_json es)).
Proof.
  change (all_stable (map entry_json es)).
  induction es as [|e r IH]; [done|]. split; [|exact IH].
  split; [reflexivity|]. cbn. done.
Qed.

Lemma revive_revivable h item :
  match revive h item with
  | inr _ => revivable item = true
  | inl _ => revivable item = false
  end.
Proof.
  unfold revive, revivable.
  destruct (get_prop item (js "timestamp")) as [[ts|]|]; try done.
  destruct ts as [|[]|n|t|l|o]; try done; unfold new_Date;
    by destruct (ToString _).
Qed.

(** What reviving makes of an element: the [Date] of its [timestamp], and
    every other property as it was. *)
Lemma revive_inr h item o :
  revive h item = inr o ->
  exists ts d,
    get_prop item (js "timestamp") = Some ts
    /\ new_Date h ts = Some d
    /\ obj_get (js "timestamp") o = Some (VDate d)
    /\ forall k, k <> js "timestamp" -> obj_get k o = obj_get k (spread item).
Proof.
  unfold revive. destruct (get_prop item (js "timestamp")) as [ts|]; [|done].
  destruct (new_Date h ts) as [d|] eqn:Hd; [|done]. intros [= <-].
  exists ts, d. split; [done|]. split; [done|].
  split; [apply obj_get_obj_set|].
  intros k Hk. by apply obj_get_obj_set_other.
Qed.

Lemma entry_shaped_timestamp item :
  entry_shaped item = true ->
  exists members ts,
    item = JObj members /\ obj_get (js "timestamp") members = Some (JStr ts).
Proof.
  destruct item as [| | | | |members]; try done. cbn [entry_shaped].
  rewrite !andb_true_iff. intros (_ & Ht). unfold has_string in Ht.
  destruct (obj_get (js "timestamp") members) as [[| | |ts| |]|] eqn:E;
    try done.
  by exists members, ts.
Qed.

Lemma Date_parse_toISOString h t :
  valid_time t -> Date_parse h (toISOString t) = Some t.
Proof. intros Ht. unfold Date_parse. by rewrite parse_toISOString. Qed.

Lemma revive_entry h e :
  valid_time (QueryHistory.timestamp e) ->
  revive h (entry_json e) = inr (object_of_entry e).
Proof.
  intros Ht. unfold revive, entry_json.
  change (get_prop _ _) with (Some (Some (JStr (toISOString (QueryHistory.timestamp e))))).
  cbn [new_Date]. rewrite Date_parse_toISOString by done.
  reflexivity.
Qed.

Lemma revive_all_entries h es :
  Forall (fun e => valid_time (QueryHistory.timestamp e)) es ->
  revive_all h (map entry_json es) = inr (map object_of_entry es).
Proof.
  intros H. apply revive_all_inr. induction H as [|e r He Hr IH]; cbn; constructor.
  - by apply revive_entry.
  - exact IH.
Qed.

(** *** The history is capped at 50 entries, newest first *)

Lemma successful_hello : successful hello.
Proof. split; [by vm_compute|]. eexists. by vm_compute. Qed.

Lemma exchange_run a x :
  idle a -> successful x ->
  let a' := run (exchange_events x) a in
  idle a' /\ clock (world a') = clock (world a)
  /\ ticks (world a') = (ticks (world a) + 6)%nat
  /\ write_refused (world a') = write_refused (world a)
  /\ queryHistory (state a')
     = take 50 (exchange_entry (clock (world a)) (ticks (world a)) x
                :: queryHistory (state a))
  /\ (write_refused (world a)
        (JSON_stringify (history_toJSON (queryHistory (state a')))) = false ->
      getItem history_key (world a')
      = Some (JSON_stringify (history_toJSON (queryHistory (state a'))))).
Proof.
  intros [Hl Ho] [Hb [c Hc]].
  unfold reply in Hc. destruct (ok (answer x)) eqn:Hok; [|done].
  destruct (JSON_parse (text (answer x))) as [data|] eqn:Hp; [|done].
  cbn [mbind option_bind] in Hc.
  destruct (get_prop data (js "response")) as [resp|] eqn:Hg; [|done].
  assert (Hr : default JNull (reply (answer x)) = or_else resp (JStr placeholder)).
  { unfold reply. rewrite Hok, Hp. cbn [mbind option_bind]. by rewrite Hg. }
  clear Hc.
  unfold exchange_events, run. cbn [foldl]. cbv zeta.
  set (a1 := step (Typed (typed x)) a).
  assert (H1 : state a1 = setInput (typed x) (state a) /\ world a1 = world a
               /\ outstanding a1 = []).
  { subst a1. destruct a. cbn in *. by subst. }
  destruct H1 as (Hs1 & Hw1 & Ho1).
  rewrite (step_Submitted_accepted a1) by (rewrite Hs1; done). cbv zeta.
  rewrite Ho1, Hs1, Hw1. cbn [app].
  erewrite step_Settled_success; [|reflexivity|exact Hok|exact Hp|exact Hg].
  cbv zeta. cbn [state world seen_queryHistory userMessage Message.content].
  match goal with |- context [saveToHistory ?a ?b ?c ?d ?e] =>
    pose proof (saveToHistory_state a b c d e) as Hs;
    pose proof (saveToHistory_clock a b c d e) as (Hck & Htk & _ & _ & Hwr);
    pose proof (saveToHistory_persists a b c d e) as Hper;
    destruct (saveToHistory a b c d e) as [s2 w3] end.
  cbv zeta in Hper. cbn [fst snd] in *. subst s2.
  unfold idle.
  set (w4 := match success_toast data with
             | Some t => toast t w3
             | None => chat_catch _ unconvertible w3
             end).
  assert (H4 : clock w4 = clock w3 /\ ticks w4 = ticks w3
               /\ write_refused w4 = write_refused w3
               /\ getItem history_key w4 = getItem history_key w3).
  { subst w4. by destruct (success_toast data). }
  destruct H4 as (H4c & H4t & H4w & H4g).
  cbn [state world outstanding isLoading setIsLoading queryHistory
    setQueryHistory setMessages setInput toast fetch clock ticks input
    write_refused] in *.
  rewrite H4c, H4t, H4w, H4g. clearbody w4.
  match type of Hck with context [ticked 2 ?w0] =>
    pose proof (ticked_fields 2 w0) as (Hc2 & Ht2 & _ & _ & _ & _ & Hw2) end.
  pose proof (ticked_fields 2 (world a)) as (Hc1 & Ht1 & _ & _ & _ & _ & Hw1').
  cbn [fetch clock ticks write_refused] in *.
  rewrite Hck, Htk, Hwr, Hc2, Ht2, Hc1, Ht1, Hw2, Hw1'.
  rewrite Hw2, Hw1' in Hper.
  assert (He : exchange_entry (clock (world a)) (ticks (world a)) x
    = [(js "id",
        VJson (JStr (Z_toString (clock (world a) (2 + (2 + ticks (world a)))%nat))));
       (js "query", VJson (JStr (trim (typed x))));
       (js "response", VJson (or_else resp (JStr placeholder)));
       (js "timestamp",
        VDate (Some (clock (world a) (S (2 + (2 + ticks (world a))))%nat)))]).
  { unfold exchange_entry. rewrite Hr.
    replace (ticks (world a) + 4)%nat with (2 + (2 + ticks (world a)))%nat by lia.
    replace (ticks (world a) + 5)%nat with (S (2 + (2 + ticks (world a))))%nat by lia.
    reflexivity. }
  rewrite He.
  repeat split; try done; try lia.
Qed.

Lemma exchanges_run xs : forall a,
  idle a -> Forall successful xs ->
  let a' := run (concat (map exchange_events xs)) a in
  idle a' /\ clock (world a') = clock (world a)
  /\ ticks (world a') = (ticks (world a) + 6 * length xs)%nat
  /\ write_refused (world a') = write_refused (world a)
  /\ (xs <> [] ->
      queryHistory (state a')
      = take 50 (reverse (exchange_entries (clock (world a)) (ticks (world a)) xs)
                 ++ queryHistory (state a))
      /\ (write_refused (world a)
            (JSON_stringify (history_toJSON (queryHistory (state a')))) = false ->
          getItem history_key (world a')
          = Some (JSON_stringify (history_toJSON (queryHistory (state a')))))).
Proof.
  induction xs as [|x r IH]; intros a Hi Hs.
  - cbn. repeat split; try apply Hi; try lia; done.
  - inversion Hs as [|? ? Hx Hr]; subst.
    cbn [map concat]. cbv zeta. rewrite run_app.
    destruct (exchange_run a x Hi Hx) as (Hi1 & Hc1 & Ht1 & Hw1 & Hq1 & Hp1).
    destruct (IH _ Hi1 Hr) as (Hi2 & Hc2 & Ht2 & Hw2 & Hq2).
    split; [done|]. split; [congruence|]. split; [cbn [length]; lia|].
    split; [congruence|].
    intros _. destruct r as [|y r'].
    + cbn [map concat run foldl] in *. split; [|exact Hp1].
      rewrite Hq1. cbn [exchange_entries]. by rewrite reverse_singleton.
    + destruct (Hq2 ltac:(done)) as [Hq Hp]. split.
      * rewrite Hq, Hq1, Hc1, Ht1, take_app_take.
        cbn [exchange_entries]. rewrite (reverse_cons _ (exchange_entry _ _ x)).
        by rewrite <- app_assoc.
      * by rewrite <- Hw1.
Qed.

(** C1.  Starting from any idle state, after any non-empty sequence of
    successful chat exchanges the history is the new entries, newest first,
    in front of the history there was, cut to its first 50: it never holds
    more than 50 entries, the entries cut are the oldest, and from 50
    exchanges on it holds exactly the 50 most recent.  The stored payload is
    that history, when the browser accepted the last write. *)
Theorem history_capacity a xs :
  idle a -> Forall successful xs -> xs <> [] ->
  let a' := run (concat (map exchange_events xs)) a in
  let newest_first :=
    reverse (exchange_entries (clock (world a)) (ticks (world a)) xs) in
  queryHistory (state a') = take 50 (newest_first ++ queryHistory (state a))
  /\ (length (queryHistory (state a')) <= 50)%nat
  /\ ((50 <= length xs)%nat ->
      queryHistory (state a') = take 50 newest_first
      /\ length (queryHistory (state a')) = 50%nat)
  /\ (write_refused (world a)
        (JSON_stringify (history_toJSON (queryHistory (state a')))) = false ->
      getItem history_key (world a')
      = Some (JSON_stringify (history_toJSON (queryHistory (state a'))))).
Proof.
  intros Hi Hs Hne. cbv zeta.
  destruct (exchanges_run xs a Hi Hs) as (_ & _ & _ & _ & Hq).
  destruct (Hq Hne) as [Hq' Hp]. split; [exact Hq'|].
  split; [|split; [|exact Hp]]; rewrite Hq'.
  - rewrite length_take. lia.
  - assert (Hlen : forall c t, length (exchange_entries c t xs) = length xs).
    { clear. induction xs; intros; cbn; [done|]. by rewrite IHxs. }
    intros H50. rewrite take_app_le by (rewrite length_reverse, Hlen; lia).
    split; [done|]. rewrite length_take, length_reverse, Hlen. lia.
Qed.

(** 51 exchanges leave 50 entries. *)
Lemma history_capacity_witness :
  idle app0 /\ Forall successful (replicate 51 hello) /\ replicate 51 hello <> []
  /\ length (queryHistory (state
       (run (concat (map exchange_events (replicate 51 hello))) app0))) = 50%nat.
Proof.
  assert (H1 : idle app0) by (split; reflexivity).
  assert (H2 : Forall successful (replicate 51 hello))
    by (apply Forall_replicate, successful_hello).
  assert (H3 : replicate 51 hello <> []) by discriminate.
  split; [exact H1|]. split; [exact H2|]. split; [exact H3|].
  apply (history_capacity app0 (replicate 51 hello) H1 H2 H3).
  rewrite length_replicate. lia.
Defined.

(** *** Loading a malformed payload *)

(** C2, as amended.  What [loadHistory] does with a payload under the
    history key, from a component whose history is empty.  Text that is not
    JSON, or an array one of whose elements cannot be revived ([null], or a
    [timestamp] that cannot be converted to a primitive), gives the empty
    history and is removed from storage.  The empty string and JSON that is
    not an array give the empty history and stay in storage.  An array
    whose elements can all be revived stays in storage and gives one entry
    per element, unvalidated: the entry of an element carries under
    [timestamp] the [Date] made of the element's [timestamp], and the entry
    of an object has every other property of the object.  In every case the
    next append puts its entry in front of what was loaded, keeps the first
    50 and, when the browser accepts the write, replaces the stored
    payload. *)
Theorem load_malformed_payload s w saved :
  getItem history_key w = Some saved -> queryHistory s = [] ->
  let s' := (loadHistory s w).1 in
  let w' := (loadHistory s w).2 in
  (saved <> [] -> JSON_parse saved = None ->
     queryHistory s' = [] /\ getItem history_key w' = None)
  /\ (forall items item, JSON_parse saved = Some (JArr items) ->
     item ∈ items -> revivable item = false ->
     queryHistory s' = [] /\ getItem history_key w' = None)
  /\ (saved = [] -> queryHistory s' = [] /\ w' = w)
  /\ (forall v, JSON_parse saved = Some v -> is_array v = false ->
     queryHistory s' = [] /\ w' = w)
  /\ (forall items, JSON_parse saved = Some (JArr items) ->
     Forall (fun item => revivable item = true) items ->
     w' = w /\ length (queryHistory s') = length items
     /\ forall i item, items !! i = Some item ->
        exists o ts d,
          queryHistory s' !! i = Some o
          /\ get_prop item (js "timestamp") = Some ts
          /\ new_Date (date_heuristics w) ts = Some d
          /\ obj_get (js "timestamp") o = Some (VDate d)
          /\ forall members k, item = JObj members -> k <> js "timestamp" ->
             obj_get k o = VJson <$> obj_get k members)
  /\ (forall q r,
     let s'' := (saveToHistory (queryHistory s') q r s' w').1 in
     let w'' := (saveToHistory (queryHistory s') q r s' w').2 in
     (exists entry, queryHistory s'' = take 50 (entry :: queryHistory s')
        /\ obj_get (js "query") entry = Some (VJson q)
        /\ obj_get (js "response") entry = Some (VJson r))
     /\ (write_refused w (JSON_stringify (history_toJSON (queryHistory s''))) = false ->
         getItem history_key w''
         = Some (JSON_stringify (history_toJSON (queryHistory s''))))).
Proof.
  intros Hg Hq. cbv zeta.
  split; [|split; [|split; [|split; [|split]]]].
  - intros Hne Hp. rewrite (loadHistory_unparseable s w saved Hg Hne Hp).
    split; [done|apply getItem_removeItem].
  - intros items item Hp Hin Hr.
    rewrite (loadHistory_array s w saved items Hg Hp).
    pose proof (revive_revivable (date_heuristics w) item) as Hi.
    destruct (revive (date_heuristics w) item) as [e|o] eqn:E; [|congruence].
    destruct (revive_all_throws _ _ _ _ Hin E) as [e' ->].
    split; [done|apply getItem_removeItem].
  - intros ->. unfold loadHistory. rewrite Hg. done.
  - intros v Hp Ha. by rewrite (loadHistory_not_array s w saved v Hg Hp Ha).
  - intros items Hp Hn. rewrite (loadHistory_array s w saved items Hg Hp).
    destruct (revive_all (date_heuristics w) items) as [e|h] eqn:E.
    { apply revive_all_inl in E as (item & Hin & He).
      rewrite Forall_forall in Hn. specialize (Hn item Hin).
      pose proof (revive_revivable (date_heuristics w) item) as Hi.
      rewrite He in Hi. congruence. }
    apply revive_all_inr in E. cbn [fst snd queryHistory setQueryHistory].
    split; [done|]. split; [symmetry; by eapply Forall2_length|].
    intros i item Hi.
    destruct (Forall2_lookup_l _ _ _ _ _ E Hi) as (o & Ho & Hrev).
    apply revive_inr in Hrev as (ts & d & Hts & Hd & Hto & Hk).
    exists o, ts, d. repeat (split; [done|]).
    intros members k -> Hne. rewrite (Hk k Hne). apply obj_get_fmap.
  - intros q r. split.
    + rewrite saveToHistory_state. eexists. split; [reflexivity|]. done.
    + intros Hw. apply saveToHistory_persists.
      by rewrite loadHistory_write_refused.
Qed.

(** Text that is not JSON is removed. *)
Lemma load_malformed_payload_witness :
  getItem history_key (stored (js "not json")) = Some (js "not json")
  /\ queryHistory state0 = []
  /\ queryHistory (loadHistory state0 (stored (js "not json"))).1 = []
  /\ getItem history_key (loadHistory state0 (stored (js "not json"))).2 = None.
Proof.
  assert (H1 : getItem history_key (stored (js "not json")) = Some (js "not json"))
    by (vm_compute; reflexivity).
  assert (H2 : queryHistory state0 = []) by reflexivity.
  split; [exact H1|]. split; [exact H2|].
  apply (load_malformed_payload state0 (stored (js "not json")) (js "not json") H1 H2).
  - discriminate.
  - vm_compute. reflexivity.
Defined.

(** C2 as stated fails: the payload {"a":1} is malformed (JSON, but not an
    array); loading it gives the empty history and leaves it in storage. *)
Lemma malformed_payload_left_in_storage :
  getItem history_key (stored (jsq "{'a':1}")) = Some (jsq "{'a':1}")
  /\ JSON_parse (jsq "{'a':1}") = Some (JObj [(js "a", JNum (Num 1 0))])
  /\ malformed (jsq "{'a':1}")
  /\ queryHistory (loadHistory state0 (stored (jsq "{'a':1}"))).1 = []
  /\ getItem history_key (loadHistory state0 (stored (jsq "{'a':1}"))).2
     = Some (jsq "{'a':1}")
  /\ getItem history_key (loadHistory state0 (stored (jsq "{'a':1}"))).2 <> None.
Proof. vm_compute. repeat split; discriminate || reflexivity || exact I. Qed.

(** *** A missing backend URL *)






(** *** One request at a time *)

Lemma step_in_flight_ok ev a : in_flight_ok a -> in_flight_ok (step ev a).
Proof.
  intros H. destruct a as [s w out]. unfold in_flight_ok in *. cbn in *.
  destruct ev as [t| |o| |item]; cbn.
  - done.
  - unfold handleSubmit, handleSubmit_in. destruct H as [[Hl ->]|[Hl [p ->]]]; rewrite Hl.
    + destruct (blank (input s)); cbn; [by left|].
      right. split; [done|]. by eexists.
    + rewrite orb_true_r. cbn. right. split; [done|]. by eexists.
  - destruct H as [[Hl ->]|[Hl [p ->]]]; [by left|].
    pose proof (handleSubmit_settled_flag p o s w).
    destruct (handleSubmit_settled p o s w). cbn in *. by left.
  - done.
  - done.
Qed.

Lemma mount_in_flight_ok env w a : mount env w = Running a -> in_flight_ok a.
Proof.
  unfold mount, initial_state, mount_effect.
  set (s0 := mkState _ _ _ _ _ _).
  set (w0 := if env_missing env then log (console_warn url_warning) w else w).
  assert (isLoading (loadHistory s0 w0).1 = false).
  { unfold loadHistory. destruct (getItem _ _); [|done].
    destruct (str_eqb _ _); [done|].
    destruct (JSON_parse _) as [[]|]; try done.
    destruct (revive_all _ _); done. }
  destruct (loadHistory s0 w0) as [s1 w1].
  destruct (env_missing env); [done|]. intros [= <-]. by left.
Qed.

(** *** A failed request *)

(** C5, as amended.  A chat request answered with a non-2xx status fails
    with an error that is logged and shown as an error toast.  Its message
    is "Unknown error" when the body is not JSON; the [detail] of the body
    when that is truthy (itself when it is a non-empty string, its string
    conversion otherwise, and in place of the error the TypeError of the
    conversion when it has none); "Failed to get response from backend"
    when the body is JSON other than [null] with no [detail] or a falsy
    one; for the body [null] the error is the TypeError of reading
    [detail].  Afterwards the conversation ends with the user's message, no
    assistant message was added, the history and the stored payload are
    unchanged and the in-flight flag is cleared. *)
Theorem chat_request_failed a text r :
  idle a -> blank text = false -> ok r = false ->
  let a1 := run [Typed text; Submitted] a in
  let a2 := step (Settled (Resolved r)) a1 in
  let um :=
    Message.mk (Z_toString (clock (world a) (ticks (world a))))
      (JStr (trim text)) Message.user (clock (world a) (S (ticks (world a)))) in
  exists e description,
    chat_try (mkPending um (queryHistory (state a)) (backendUrl (state a)))
      (Resolved r) (state a1) (world a1)
    = (state a1, world a1, Some e)
    /\ console (world a2) = console (world a) ++ [console_error (js "Chat error:") e]
    /\ toasts (world a2)
       = toasts (world a) ++ [mkToast (js "Error") description destructive]
    /\ (JSON_parse (Chat.text r) = None ->
        e = ErrorObject (js "Error") (js "Unknown error"))
    /\ (forall o d, JSON_parse (Chat.text r) = Some (JObj o) ->
        obj_get (js "detail") o = Some (JStr d) -> d <> [] ->
        e = ErrorObject (js "Error") d)
    /\ (forall v d message, JSON_parse (Chat.text r) = Some v ->
        get_prop v (js "detail") = Some (Some d) -> truthy d = true ->
        ToString d = Some message ->
        e = ErrorObject (js "Error") message)
    /\ (forall v d, JSON_parse (Chat.text r) = Some v ->
        get_prop v (js "detail") = Some (Some d) -> truthy d = true ->
        ToString d = None ->
        e = unconvertible)
    /\ (forall v, JSON_parse (Chat.text r) = Some v ->
        get_prop v (js "detail") = Some None
        \/ (exists d, get_prop v (js "detail") = Some (Some d)
                      /\ truthy d = false) ->
        e = ErrorObject (js "Error") (js "Failed to get response from backend"))
    /\ (JSON_parse (Chat.text r) = Some JNull -> e = null_read (js "detail"))
    /\ messages (state a2) = messages (state a) ++ [um]
    /\ queryHistory (state a2) = queryHistory (state a)
    /\ localStorage (world a2) = localStorage (world a)
    /\ isLoading (state a2) = false
    /\ outstanding a2 = [].
Proof.
  intros Hi Hb Hok. cbv zeta.
  rewrite (typed_submitted a text Hi Hb). cbv zeta.
  match goal with |- context [step _ ?a1] =>
    destruct (step_Settled_not_ok a1 _ [] r eq_refl Hok) as (e & d & Hs & Ht)
  end.
  exists e, d. rewrite Hs. cbn [state world outstanding] in *.
  split; [exact Ht|].
  rewrite (chat_try_not_ok _ r _ _ Hok) in Ht. injection Ht as <-.
  pose proof (ticked_fields 2 (world a)) as (_ & _ & _ & Hto & Hco & Hls & _).
  cbn [toast log fetch console toasts localStorage state messages queryHistory
        isLoading setIsLoading setInput setMessages].
  rewrite Hto, Hco, Hls.
  repeat split; try done.
  - by intros ->.
  - intros o d' -> Hd Hne. unfold get_prop. rewrite Hd.
    by rewrite (or_else_text d' _ Hne).
  - intros v d' m -> Hd Htr Hm. rewrite Hd. unfold or_else, new_Error.
    by rewrite Htr, Hm.
  - intros v d' -> Hd Htr Hm. rewrite Hd. unfold or_else, new_Error.
    by rewrite Htr, Hm.
  - intros v -> [Hd|(d' & Hd & Htr)]; rewrite Hd; unfold or_else; [done|].
    by rewrite Htr.
  - by intros ->.
Qed.

(** HTTP 500 with the body {"detail": "model overloaded"}. *)
Lemma chat_request_failed_witness :
  idle app0 /\ blank (js "Hello!") = false /\ ok overloaded = false
  /\ exists e description,
       console (world (run [Typed (js "Hello!"); Submitted;
                            Settled (Resolved overloaded)] app0))
       = [console_error (js "Chat error:") e]
       /\ toasts (world (run [Typed (js "Hello!"); Submitted;
                              Settled (Resolved overloaded)] app0))
          = [mkToast (js "Error") description destructive]
       /\ e = ErrorObject (js "Error") (js "model overloaded").
Proof.
  assert (H1 : idle app0) by (split; reflexivity).
  assert (H2 : blank (js "Hello!") = false) by (vm_compute; reflexivity).
  assert (H3 : ok overloaded = false) by (vm_compute; reflexivity).
  split; [exact H1|]. split; [exact H2|]. split; [exact H3|].
  destruct (chat_request_failed app0 (js "Hello!") overloaded H1 H2 H3)
    as (e & d & _ & Hc & Ht & _ & Hd & _).
  exists e, d. split; [exact Hc|]. split; [exact Ht|].
  apply (Hd [(js "detail", JStr (js "model overloaded"))]).
  - vm_compute. reflexivity.
  - vm_compute. reflexivity.
  - discriminate.
Defined.

(** C5 as stated fails: the body {} parses, has no [detail], and the
    message of the error is neither a detail nor "Unknown error". *)
Lemma failed_request_without_detail :
  ok (mkResponse 500 (jsq "{}")) = false
  /\ JSON_parse (jsq "{}") = Some (JObj [])
  /\ chat_try (mkPending (Message.mk [] (JStr (js "Hello!")) Message.user 0) [] [])
       (Resolved (mkResponse 500 (jsq "{}"))) state0 world0
     = (state0, world0,
        Some (ErrorObject (js "Error") (js "Failed to get response from backend")))
  /\ js "Failed to get response from backend" <> js "Unknown error".
Proof. repeat split; try (vm_compute; reflexivity). discriminate. Qed.

(** *** A successful exchange *)

(** C6.  Submitting non-blank text from an idle state POSTs
    [{message, history}] to [backendUrl/api/chat], with the trimmed text as
    [message] and every prior message as [{role, content, timestamp}], the
    timestamp an ISO string that reads back as the same instant; with no
    prior message the history is [[]].  When the response is 2xx with a
    non-empty string under [response], the conversation gains the user's
    message followed by the assistant's message carrying that string, and
    the history gains, in front and within the 50-entry bound, one entry
    pairing the query with the response; no further request is sent. *)
Theorem chat_exchange a text r data reply_text :
  idle a -> blank text = false ->
  ok r = true -> JSON_parse (Chat.text r) = Some data ->
  get_prop data (js "response") = Some (Some (JStr reply_text)) ->
  reply_text <> [] ->
  let a1 := run [Typed text; Submitted] a in
  let a2 := step (Settled (Resolved r)) a1 in
  let now k := clock (world a) (k + ticks (world a))%nat in
  let um :=
    Message.mk (Z_toString (now 0%nat)) (JStr (trim text)) Message.user
      (now 1%nat) in
  let am :=
    Message.mk (Z_toString (now 2%nat + 1)) (JStr reply_text)
      Message.assistant (now 3%nat) in
  let entry :=
    [(js "id", VJson (JStr (Z_toString (now 4%nat))));
     (js "query", VJson (JStr (trim text)));
     (js "response", VJson (JStr reply_text));
     (js "timestamp", VDate (Some (now 5%nat)))] in
  requests (world a1)
  = requests (world a)
    ++ [mkRequest (backendUrl (state a) ++ js "/api/chat") (js "POST")
          [(js "Content-Type", js "application/json")]
          (JSON_stringify
             (JObj [(js "message", JStr (trim text));
                    (js "history",
                     JArr (map message_toJSON (messages (state a))))]))]
  /\ (messages (state a) = [] ->
      body <$> last (requests (world a1))
      = Some (JSON_stringify
                (JObj [(js "message", JStr (trim text));
                       (js "history", JArr [])])))
  /\ (forall m, m ∈ messages (state a) ->
      message_toJSON m
      = JObj [(js "role", JStr (role_name (Message.role m)));
              (js "content", Message.content m);
              (js "timestamp", JStr (toISOString (Message.timestamp m)))]
      /\ (valid_time (Message.timestamp m) ->
          JSDate.parse (toISOString (Message.timestamp m))
          = Some (Message.timestamp m)))
  /\ messages (state a2) = messages (state a) ++ [um; am]
  /\ queryHistory (state a2) = take 50 (entry :: queryHistory (state a))
  /\ requests (world a2) = requests (world a1).
Proof.
  intros Hi Hb Hok Hp Hg Hne. cbv zeta.
  rewrite (typed_submitted a text Hi Hb). cbv zeta.
  match goal with |- context [step _ ?a1] =>
    pose proof (settled_reply a1 _ [] r data _ eq_refl Hok Hp Hg) as (Hs & _ & Hr)
  end.
  cbv zeta in Hs. rewrite Hs, Hr. clear Hs Hr.
  cbn [state world outstanding userMessage seen_queryHistory Message.content].
  rewrite (or_else_text reply_text _ Hne).
  pose proof (ticked_fields 2 (world a)) as (Hc1 & Ht1 & Hr1 & _).
  cbn [fetch requests clock ticks]. rewrite Hr1, Hc1, Ht1.
  split; [done|]. split.
  { intros Hm. rewrite last_snoc. cbn [fmap option_fmap option_map].
    unfold chat_request, chat_body. cbn [body Message.content]. by rewrite Hm. }
  split; [intros m _; split; [done|apply parse_toISOString]|].
  cbn [state messages setIsLoading setQueryHistory setMessages setInput
         queryHistory].
  split; [by rewrite <- app_assoc|]. done.
Qed.

(** The "Hello!" scenario. *)
Lemma chat_exchange_witness :
  idle app0 /\ blank (js "Hello!") = false
  /\ body <$> last (requests (world (run [Typed (js "Hello!"); Submitted] app0)))
     = Some (jsq "{'message':'Hello!','history':[]}")
  /\ queryHistory (state (run (exchange_events hello) app0))
     = [[(js "id", VJson (JStr (js "1730000000000")));
         (js "query", VJson (JStr (js "Hello!")));
         (js "response", VJson (JStr (js "Hi there!")));
         (js "timestamp", VDate (Some 1730000000000))]].
Proof.
  assert (H1 : idle app0) by (split; reflexivity).
  assert (H2 : blank (js "Hello!") = false) by (vm_compute; reflexivity).
  split; [exact H1|]. split; [exact H2|].
  destruct (chat_exchange app0 (js "Hello!") (answer hello)
              (JObj [(js "response", JStr (js "Hi there!"));
                     (js "model", JStr (js "llama-3.1-8b-instant"));
                     (js "tokens_used", JNum (Num 10 0))])
              (js "Hi there!") H1 H2)
    as (_ & Hb & _ & _ & Hq & _);
    [vm_compute; reflexivity | vm_compute; reflexivity | vm_compute; reflexivity
    | discriminate |].
  split; [exact (Hb eq_refl)|]. exact Hq.
Defined.

(** *** The persisted history round-trips *)



(** *** Blank input *)

(** C8.  Submitting text that trims to the empty string changes nothing:
    no message is created and no request is issued. *)
Theorem blank_submission_ignored a :
  trim (input (state a)) = [] ->
  step Submitted a = a
  /\ messages (state (step Submitted a)) = messages (state a)
  /\ requests (world (step Submitted a)) = requests (world a)
  /\ outstanding (step Submitted a) = outstanding a.
Proof.
  intros H. assert (E : step Submitted a = a)
    by (apply step_noop, handleSubmit_blank, H).
  by rewrite E.
Qed.

(** Two spaces. *)
Lemma blank_submission_ignored_witness :
  trim (js "  ") = []
  /\ step Submitted (mkApp (setInput (js "  ") state0) world0 [])
     = mkApp (setInput (js "  ") state0) world0 [].
Proof.
  assert (H : trim (input (state (mkApp (setInput (js "  ") state0) world0 []))) = [])
    by (vm_compute; reflexivity).
  split; [exact H|].
  apply (blank_submission_ignored (mkApp (setInput (js "  ") state0) world0 []) H).
Defined.

(** *** Loading does not truncate *)

(** C9.  For a stored array of well-formed entries (objects whose [id],
    [query], [response] and [timestamp] are strings), [loadHistory] leaves
    the storage as it is and returns one entry for every element, in the
    order of the array and however long the array is: the entry has the
    properties of the element, with the [Date] that [Date.parse] makes of
    the timestamp in place of the string.  The bound of 50 is applied by
    the next [saveToHistory]. *)
Theorem load_keeps_every_entry s w saved items :
  getItem history_key w = Some saved ->
  JSON_parse saved = Some (JArr items) ->
  Forall (fun item => entry_shaped item = true) items ->
  let h := queryHistory (loadHistory s w).1 in
  loadHistory s w = (setQueryHistory h s, w)
  /\ length h = length items
  /\ (forall i item, items !! i = Some item ->
      exists members ts o,
        item = JObj members
        /\ obj_get (js "timestamp") members = Some (JStr ts)
        /\ h !! i = Some o
        /\ obj_get (js "timestamp") o
           = Some (VDate (Date_parse (date_heuristics w) ts))
        /\ forall k, k <> js "timestamp" ->
             obj_get k o = VJson <$> obj_get k members)
  /\ forall q r s' w',
       length (queryHistory (saveToHistory h q r s' w').1)
       = Nat.min 50 (S (length items)).
Proof.
  intros Hg Hp Hn. cbv zeta.
  rewrite (loadHistory_array s w saved items Hg Hp).
  destruct (revive_all (date_heuristics w) items) as [e|h] eqn:E.
  { apply revive_all_inl in E as (item & Hin & He).
    rewrite Forall_forall in Hn. specialize (Hn item Hin).
    apply entry_shaped_timestamp in Hn as (members & ts & -> & Hts).
    unfold revive, get_prop in He. rewrite Hts in He. done. }
  apply revive_all_inr in E. cbn [fst snd queryHistory setQueryHistory].
  assert (Hl : length h = length items) by (symmetry; by eapply Forall2_length).
  split; [done|]. split; [done|]. split.
  - intros i item Hi.
    destruct (Forall2_lookup_l _ _ _ _ _ E Hi) as (o & Ho & Hrev).
    rewrite Forall_forall in Hn.
    destruct (entry_shaped_timestamp item) as (members & ts & -> & Hts).
    { apply Hn. by eapply list_elem_of_lookup_2. }
    apply revive_inr in Hrev as (ts' & d & Hts' & Hd & Hto & Hk).
    unfold get_prop in Hts'. rewrite Hts in Hts'. injection Hts' as <-.
    cbn [new_Date] in Hd. injection Hd as <-.
    exists members, ts, o. repeat (split; [done|]).
    intros k Hne. rewrite (Hk k Hne). apply obj_get_fmap.
  - intros. by rewrite saveToHistory_length, Hl.
Qed.

(** A stored array of 51 entries loads as 51 entries. *)
Lemma load_keeps_every_entry_witness :
  getItem history_key (stored (JSON_stringify (JArr long_history)))
  = Some (JSON_stringify (JArr long_history))
  /\ JSON_parse (JSON_stringify (JArr long_history)) = Some (JArr long_history)
  /\ Forall (fun item => entry_shaped item = true) long_history
  /\ length (queryHistory
       (loadHistory state0 (stored (JSON_stringify (JArr long_history)))).1)
     = length long_history
  /\ length long_history = 51%nat.
Proof.
  assert (H1 : getItem history_key (stored (JSON_stringify (JArr long_history)))
               = Some (JSON_stringify (JArr long_history)))
    by (vm_compute; reflexivity).
  assert (H2 : JSON_parse (JSON_stringify (JArr long_history))
               = Some (JArr long_history))
    by (vm_compute; reflexivity).
  assert (H3 : Forall (fun item => entry_shaped item = true) long_history)
    by (apply Forall_fmap, Forall_replicate; reflexivity).
  split; [exact H1|]. split; [exact H2|]. split; [exact H3|].
  split; [|reflexivity].
  pose proof (load_keeps_every_entry state0 _ _ _ H1 H2 H3) as H.
  cbv zeta in H. destruct H as (_ & Hl & _). exact Hl.
Defined.

(** *** An empty response text *)

(** C10.  On a 2xx response whose body is an object with [response]
    equal to the empty string, as with [response] absent, the assistant's
    message and the history entry carry "No response received". *)
Theorem empty_response_placeholder a p rest r o :
  outstanding a = p :: rest ->
  ok r = true -> JSON_parse (text r) = Some (JObj o) ->
  obj_get (js "response") o = Some (JStr [])
  \/ obj_get (js "response") o = None ->
  let a' := step (Settled (Resolved r)) a in
  let now k := clock (world a) (k + ticks (world a))%nat in
  let am :=
    Message.mk (Z_toString (now 0%nat + 1)) (JStr (js "No response received"))
      Message.assistant (now 1%nat) in
  let entry :=
    [(js "id", VJson (JStr (Z_toString (now 2%nat))));
     (js "query", VJson (Message.content (userMessage p)));
     (js "response", VJson (JStr (js "No response received")));
     (js "timestamp", VDate (Some (now 3%nat)))] in
  messages (state a') = messages (state a) ++ [am]
  /\ queryHistory (state a') = take 50 (entry :: seen_queryHistory p).
Proof.
  intros Ho Hok Hp Hresp. cbv zeta.
  assert (exists resp, get_prop (JObj o) (js "response") = Some resp
            /\ or_else resp (JStr placeholder) = JStr placeholder)
    as (resp & Hg & Hor).
  { destruct Hresp as [H|H]; eexists; (split; [unfold get_prop; by rewrite H|done]). }
  pose proof (settled_reply a p rest r _ resp Ho Hok Hp Hg) as (Hs & _ & _).
  cbv zeta in Hs. rewrite Hs, Hor. clear Hs.
  cbn [state messages setIsLoading setQueryHistory setMessages queryHistory].
  done.
Qed.

(** A body whose response text is empty. *)
Lemma empty_response_placeholder_witness :
  ok (mkResponse 200 (jsq "{'response': ''}")) = true
  /\ JSON_parse (jsq "{'response': ''}") = Some (JObj [(js "response", JStr [])])
  /\ messages (state (run [Typed (js "Hello!"); Submitted;
                           Settled (Resolved (mkResponse 200 (jsq "{'response': ''}")))]
                        app0))
     = [Message.mk (js "1730000000000") (JStr (js "Hello!")) Message.user
          1730000000000;
        Message.mk (js "1730000000001") (JStr (js "No response received"))
          Message.assistant 1730000000000].
Proof.
  assert (H1 : ok (mkResponse 200 (jsq "{'response': ''}")) = true)
    by (vm_compute; reflexivity).
  assert (H2 : JSON_parse (text (mkResponse 200 (jsq "{'response': ''}")))
               = Some (JObj [(js "response", JStr [])]))
    by (vm_compute; reflexivity).
  split; [exact H1|]. split; [exact H2|].
  change (run [Typed (js "Hello!"); Submitted;
               Settled (Resolved (mkResponse 200 (jsq "{'response': ''}")))] app0)
    with (step (Settled (Resolved (mkResponse 200 (jsq "{'response': ''}"))))
            (run [Typed (js "Hello!"); Submitted] app0)).
  destruct (empty_response_placeholder (run [Typed (js "Hello!"); Submitted] app0)
              _ [] _ _ eq_refl H1 H2 (or_introl eq_refl)) as [Hm _].
  rewrite Hm. vm_compute. reflexivity.
Defined.

(* ===================================================================== *)
(** ** Further properties of the handlers *)
(* ===================================================================== *)

(** *** Which submissions are accepted *)

Lemma trimStart_all s : forallb is_trimmed_char s = true -> trimStart s = [].
Proof. induction s as [|c r IH]; cbn; [done|]. destruct (is_trimmed_char c); [exact IH|done]. Qed.

Lemma trimStart_nil s : trimStart s = [] -> forallb is_trimmed_char s = true.
Proof. induction s as [|c r IH]; cbn; [done|]. destruct (is_trimmed_char c); [exact IH|done]. Qed.

Lemma trimStart_split s :
  exists k, s = k ++ trimStart s /\ forallb is_trimmed_char k = true.
Proof.
  induction s as [|c r (k & Hk & Hf)]; [by exists []|]. cbn.
  destruct (is_trimmed_char c) eqn:E.
  - exists (c :: k). cbn. rewrite E, Hf. split; [congruence|done].
  - by exists [].
Qed.

Lemma trimStart_head s c r : trimStart s = c :: r -> is_trimmed_char c = false.
Proof.
  induction s as [|d s IH]; cbn; [done|].
  destruct (is_trimmed_char d) eqn:E; [exact IH|]. by intros [= <- <-].
Qed.

Lemma trimStart_fixed c r : is_trimmed_char c = false -> trimStart (c :: r) = c :: r.
Proof. intros H. cbn. by rewrite H. Qed.

Lemma forallb_reverse {A} (f : A -> bool) l : forallb f (reverse l) = forallb f l.
Proof.
  induction l as [|x l IH]; [done|]. rewrite reverse_cons, forallb_app, IH. cbn.
  rewrite andb_true_r. apply andb_comm.
Qed.

(** [trim] removes white space only, from both ends, and all of it. *)
Lemma trim_shape s :
  exists k1 k2, s = k1 ++ trim s ++ k2
    /\ forallb is_trimmed_char k1 = true /\ forallb is_trimmed_char k2 = true
    /\ (forall c r, trim s = c :: r -> is_trimmed_char c = false)
    /\ (forall c r, reverse (trim s) = c :: r -> is_trimmed_char c = false).
Proof.
  unfold trim, trimEnd.
  destruct (trimStart_split s) as (k1 & H1 & F1).
  destruct (trimStart_split (reverse (trimStart s))) as (k2 & H2 & F2).
  exists k1, (reverse k2). split; [|split; [done|split; [by rewrite forallb_reverse|split]]].
  - rewrite <- reverse_app, <- H2, reverse_involutive. exact H1.
  - intros c r E.
    destruct (trimStart (reverse (trimStart s))) as [|d v] eqn:Ev; [done|].
    apply (f_equal reverse) in H2. rewrite reverse_involutive, reverse_app in H2.
    rewrite E in H2. destruct (trimStart s) as [|c' u] eqn:Eu.
    + by destruct (reverse k2).
    + cbn in H2. injection H2 as -> _. by apply trimStart_head in Eu.
  - intros c r E. rewrite reverse_involutive in E. by apply trimStart_head in E.
Qed.

Lemma trim_idempotent s : trim (trim s) = trim s.
Proof.
  destruct (trim_shape s) as (_ & _ & _ & _ & _ & Hh & Hl).
  destruct (trim s) as [|c r] eqn:E; [done|].
  unfold trim, trimEnd. rewrite (trimStart_fixed c r) by eauto.
  destruct (reverse (c :: r)) as [|d v] eqn:Er.
  - apply (f_equal reverse) in Er. by rewrite reverse_involutive in Er.
  - rewrite (trimStart_fixed d v) by eauto. by rewrite <- Er, reverse_involutive.
Qed.

Lemma blank_forallb s : blank s = forallb is_trimmed_char s.
Proof.
  unfold blank. destruct (trim_shape s) as (k1 & k2 & Hs & F1 & F2 & Hh & _).
  destruct (trim s) as [|c r] eqn:E.
  - cbn. rewrite Hs at 1. cbn. rewrite forallb_app, F1, F2. done.
  - cbn. rewrite Hs, !forallb_app. cbn. rewrite (Hh c r eq_refl).
    by rewrite andb_false_r.
Qed.

Lemma forallb_false {A} (f : A -> bool) l :
  forallb f l = false <-> exists x, x ∈ l /\ f x = false.
Proof.
  induction l as [|x l IH]; cbn.
  - split; [done|]. intros (x & Hx & _). by apply elem_of_nil in Hx.
  - rewrite andb_false_iff, IH. split.
    + intros [H|(y & Hy & H)]; [exists x|exists y]; split; try done; [left|by right].
    + intros (y & Hy & H). apply elem_of_cons in Hy as [->|Hy]; [by left|right; eauto].
Qed.

(** X1.  A submission is accepted exactly when no request is in flight and
    the input holds a code unit that is neither white space nor a line
    terminator; a submission that is not accepted changes nothing. *)
Theorem submission_accepted_iff s w :
  (is_Some (handleSubmit s w).2
   <-> isLoading s = false
       /\ exists c, c ∈ input s /\ is_trimmed_char c = false)
  /\ ((handleSubmit s w).2 = None -> handleSubmit s w = (s, w, None)).
Proof.
  unfold handleSubmit, handleSubmit_in. rewrite blank_forallb.
  destruct (forallb is_trimmed_char (input s)) eqn:E; cbn.
  - split; [|done]. split; [by intros []|].
    intros (_ & c & Hc & Hf). rewrite forallb_forall in E.
    rewrite (E c) in Hf; [done|]. by apply list_elem_of_In.
  - destruct (isLoading s); cbn.
    + split; [|done]. split; [by intros []|]. by intros [].
    + split; [|done]. split; [|by eexists]. intros _. split; [done|].
      by apply forallb_false.
Qed.

(** *** The request body *)

Lemma stable_messages msgs :
  Forall has_text msgs -> all_stable (map message_toJSON msgs).
Proof.
  induction 1 as [|m r [t Hm] _ IH]; [done|]. cbn [map]. split; [|exact IH].
  unfold message_toJSON. rewrite Hm. split; [reflexivity|]. cbn. done.
Qed.

(** X2.  Whatever the user typed (quotes, backslashes, control characters,
    lone surrogates), the body of the POST is JSON text that reads back as
    exactly [{message, history}], when the contents are strings as
    [Message] declares. *)
Theorem request_body_decodes backendUrl um msgs :
  has_text um -> Forall has_text msgs ->
  JSON_parse (body (chat_request backendUrl um msgs))
  = Some (JObj [(js "message", Message.content um);
                (js "history", JArr (map message_toJSON msgs))]).
Proof.
  intros [t Hm] Hs. unfold chat_request, chat_body. cbn [body].
  apply JSON_parse_stringify. split; [reflexivity|].
  rewrite Hm. split; [done|]. split; [|done].
  apply (stable_messages msgs Hs).
Qed.

(** A message with a quote, a backslash and a line feed, after a message
    with a lone surrogate. *)
Lemma request_body_decodes_witness :
  has_text (Message.mk (js "1") (JStr quoted) Message.user 0)
  /\ Forall has_text [Message.mk (js "0") (JStr [0xD800%N; 10%N]) Message.assistant 0]
  /\ JSON_parse
       (body (chat_request (js "http://localhost:8000")
                (Message.mk (js "1") (JStr quoted) Message.user 0)
                [Message.mk (js "0") (JStr [0xD800%N; 10%N]) Message.assistant 0]))
     = Some (JObj [(js "message", JStr quoted);
                   (js "history",
                    JArr [JObj [(js "role", JStr (js "assistant"));
                                (js "content", JStr [0xD800%N; 10%N]);
                                (js "timestamp", JStr (js "1970-01-01T00:00:00.000Z"))]])]).
Proof.
  assert (H1 : has_text (Message.mk (js "1") (JStr quoted) Message.user 0))
    by (by eexists).
  assert (H2 : Forall has_text
    [Message.mk (js "0") (JStr [0xD800%N; 10%N]) Message.assistant 0])
    by (repeat constructor; by eexists).
  split; [exact H1|]. split; [exact H2|].
  exact (request_body_decodes (js "http://localhost:8000") _ _ H1 H2).
Defined.

(** *** The handlers, case by case *)

Lemma handleSubmit_cases s w :
  handleSubmit s w = (s, w, None)
  \/ exists um,
       handleSubmit s w
       = (setIsLoading true
            (setInput [] (setMessages (fun prev => prev ++ [um]) s)),
          fetch (chat_request (backendUrl s) um (messages s)) (ticked 2 w),
          Some (mkPending um (queryHistory s) (backendUrl s)))
       /\ Message.role um = Message.user
       /\ Message.content um = JStr (trim (input s))
       /\ blank (input s) = false /\ isLoading s = false.
Proof.
  destruct (blank (input s)) eqn:Hb.
  - left. unfold handleSubmit, handleSubmit_in. by rewrite Hb.
  - destruct (isLoading s) eqn:Hl.
    + left. by apply handleSubmit_loading.
    + right. eexists. rewrite handleSubmit_accepted by done. cbv zeta.
      split; [reflexivity|]. done.
Qed.

Lemma chat_try_cases p o s w :
  (exists e w1,
     chat_try p o s w = (s, w1, Some e)
     /\ localStorage w1 = localStorage w /\ write_refused w1 = write_refused w
     /\ requests w1 = requests w /\ toasts w1 = toasts w
     /\ console w1 = console w /\ clock w1 = clock w)
  \/ (exists r data resp,
        o = Resolved r /\ ok r = true /\ JSON_parse (text r) = Some data
        /\ get_prop data (js "response") = Some resp).
Proof.
  destruct o as [e|r].
  - left. exists e, w. cbn. by repeat split.
  - destruct (ok r) eqn:Hok.
    + unfold chat_try. rewrite Hok. cbn [negb].
      destruct (JSON_parse (text r)) as [data|] eqn:Hp.
      * destruct (get_prop data (js "response")) as [resp|] eqn:Hg.
        -- right. by exists r, data, resp.
        -- left. cbn [Date_now]. eexists _, _. split; [reflexivity|]. done.
      * left. eexists _, _. split; [reflexivity|]. done.
    + left. rewrite (chat_try_not_ok p r s w Hok). eexists _, _.
      split; [reflexivity|]. done.
Qed.

Lemma saveToHistory_storage seen q r s w :
  let h := queryHistory (saveToHistory seen q r s w).1 in
  let w' := (saveToHistory seen q r s w).2 in
  if write_refused w (JSON_stringify (history_toJSON h))
  then localStorage w' = localStorage w
       /\ console w'
          = console w ++ [console_error (js "Error saving to history:") quota_error]
  else localStorage w'
       = <[history_key := JSON_stringify (history_toJSON h)]> (localStorage w)
       /\ console w' = console w.
Proof.
  cbv zeta. rewrite saveToHistory_state. cbn [queryHistory setQueryHistory].
  unfold saveToHistory, setItem, Date_now. cbv beta iota zeta.
  cbn [write_refused clock ticks localStorage].
  match goal with |- context [write_refused w ?v] =>
    destruct (write_refused w v) end; done.
Qed.

(** The two ways a settled request leaves the component. *)
Lemma handleSubmit_settled_cases p o s w :
  let s' := (handleSubmit_settled p o s w).1 in
  let w' := (handleSubmit_settled p o s w).2 in
  requests w' = requests w /\ write_refused w' = write_refused w
  /\ clock w' = clock w
  /\ ((s' = setIsLoading false s /\ localStorage w' = localStorage w)
      \/ exists am entry,
           s' = setIsLoading false
                  (setQueryHistory (take 50 (entry :: seen_queryHistory p))
                     (setMessages (fun prev => prev ++ [am]) s))
           /\ Message.role am = Message.assistant
           /\ truthy (Message.content am) = true
           /\ obj_get (js "query") entry
              = Some (VJson (Message.content (userMessage p)))
           /\ obj_get (js "response") entry = Some (VJson (Message.content am))
           /\ dated entry
           /\ (if write_refused w
                    (JSON_stringify
                       (history_toJSON (take 50 (entry :: seen_queryHistory p))))
               then localStorage w' = localStorage w
               else localStorage w'
                    = <[history_key :=
                          JSON_stringify
                            (history_toJSON
                               (take 50 (entry :: seen_queryHistory p)))]>
                        (localStorage w))).
Proof.
  cbv zeta. destruct (chat_try_cases p o s w)
    as [(e & w1 & Ht & Hls & Hwr & Hrq & Hto & Hco & Hck)
       |(r & data & resp & -> & Hok & Hp & Hg)].
  - unfold handleSubmit_settled. rewrite Ht. cbn [fst snd].
    destruct e; cbn [chat_catch toast log requests write_refused clock localStorage];
      repeat split; try done; by left.
  - unfold handleSubmit_settled.
    rewrite (chat_try_success p r s w data resp Hok Hp Hg). cbv zeta.
    match goal with |- context [saveToHistory ?a ?b ?c ?d ?e] =>
      pose proof (saveToHistory_state a b c d e) as Hs;
      pose proof (saveToHistory_clock a b c d e) as (Hck & _ & Hrq & _ & Hwr);
      pose proof (saveToHistory_storage a b c d e) as Hst;
      destruct (saveToHistory a b c d e) as [s2 w3]
    end.
    cbn [fst snd] in *. cbv zeta in *. subst s2.
    pose proof (ticked_fields 2 w) as (Hc & Ht & Hr2 & _ & _ & _ & Hw2).
    pose proof (ticked_fields 2 w) as (_ & _ & _ & _ & _ & Hl2 & _).
    destruct (success_toast data) as [t|];
      cbn [chat_catch unconvertible toast log requests write_refused clock
           localStorage queryHistory setQueryHistory fst snd] in *.
    all: rewrite Hw2, Hl2, Hc in Hst.
    all: rewrite Hrq, Hwr, Hck, Hr2, Hw2, Hc; repeat split; try done.
    all: right; eexists _, _; split; [reflexivity|].
    all: cbn [Message.role Message.content]; split; [done|]; split;
      [unfold or_else; destruct resp as [v|]; [|done];
       destruct (truthy v) eqn:E; done|].
    all: split; [done|]; split; [done|]; split; [by eexists|].
    all: match goal with |- context [if ?c then _ else _] =>
      destruct c end; apply Hst.
Qed.

Lemma error_description_TypeError message url :
  error_description (js "TypeError") message url
  = js "Cannot connect to backend server. Please ensure the FastAPI server is running on "
    ++ url.
Proof.
  unfold error_description.
  assert (E : str_eqb (js "TypeError") (js "TypeError") = true) by reflexivity.
  by rewrite E, orb_true_r.
Qed.

Lemma step_Settled_persists a p rest r data resp :
  outstanding a = p :: rest ->
  ok r = true -> JSON_parse (text r) = Some data ->
  get_prop data (js "response") = Some resp ->
  let a' := step (Settled (Resolved r)) a in
  let payload := JSON_stringify (history_toJSON (queryHistory (state a'))) in
  let failure :=
    match success_toast data with
    | Some _ => []
    | None => [console_error (js "Chat error:") unconvertible]
    end in
  toasts (world a')
  = toasts (world a)
    ++ [match success_toast data with
        | Some t => t
        | None =>
            mkToast (js "Error")
              (js "Cannot connect to backend server. Please ensure the FastAPI server is running on "
               ++ seen_backendUrl p) destructive
        end]
  /\ if write_refused (world a) payload
     then localStorage (world a') = localStorage (world a)
          /\ console (world a')
             = console (world a)
               ++ console_error (js "Error saving to history:") quota_error
                  :: failure
     else localStorage (world a') = <[history_key := payload]> (localStorage (world a))
          /\ console (world a') = console (world a) ++ failure.
Proof.
  intros Ho Hok Hp Hg. cbv zeta.
  rewrite (step_Settled_success a p rest r data resp Ho Hok Hp Hg). cbv zeta.
  cbn [state world outstanding].
  match goal with |- context [saveToHistory ?a ?b ?c ?d ?e] =>
    pose proof (saveToHistory_storage a b c d e) as Hst;
    pose proof (saveToHistory_clock a b c d e) as (_ & _ & _ & Hto & _);
    destruct (saveToHistory a b c d e) as [s2 w3] end.
  cbv zeta in Hst. cbn [fst snd] in *.
  pose proof (ticked_fields 2 (world a)) as (_ & _ & _ & Hto2 & Hco2 & Hl2 & Hw2).
  rewrite Hw2, Hl2, Hco2 in Hst.
  destruct (success_toast data) as [t|];
    cbn [chat_catch unconvertible toast log toasts localStorage console
         queryHistory setIsLoading];
    rewrite ?error_description_TypeError, Hto, Hto2; (split; [done|]).
  - match goal with |- context [if ?c then _ else _] => destruct c end;
      destruct Hst as [-> ->]; by rewrite ?app_nil_r.
  - match goal with |- context [if ?c then _ else _] => destruct c end;
      destruct Hst as [-> ->]; by rewrite <- ?app_assoc.
Qed.

Lemma step_Settled_failed a p rest o e w1 :
  outstanding a = p :: rest ->
  chat_try p o (state a) (world a) = (state a, w1, Some e) ->
  step (Settled o) a = mkApp (setIsLoading false (state a)) (chat_catch p e w1) rest.
Proof.
  intros Ho Ht. destruct a as [s w out]. cbn [state world outstanding] in *.
  subst out. cbn [step outstanding state world]. unfold handleSubmit_settled.
  by rewrite Ht.
Qed.

Lemma error_description_fixed name message url :
  error_description name message url ∈ failure_descriptions url.
Proof.
  unfold error_description, failure_descriptions.
  repeat match goal with |- context [if ?b then _ else _] => destruct b end;
    repeat (first [by apply list_elem_of_here | apply list_elem_of_further]).
Qed.

Lemma truthy_text t : t <> [] -> truthy (JStr t) = true.
Proof. by destruct t. Qed.

Lemma blank_false_trim s : blank s = false -> trim s <> [].
Proof. unfold blank. intros H E. by rewrite E in H. Qed.

(** *** Picking a history entry *)

(** X3.  Picking a history entry only fills the input with its query and
    closes the sidebar: nothing is sent and the history keeps its order.
    Submitting then sends the trimmed query like typed text, with the
    conversation so far as history. *)
Theorem history_item_resubmitted a item :
  idle a -> blank (QueryHistory.query item) = false ->
  let a1 := step (HistoryItemPicked item) a in
  let a2 := step Submitted a1 in
  let um :=
    Message.mk (Z_toString (clock (world a) (ticks (world a))))
      (JStr (trim (QueryHistory.query item))) Message.user
      (clock (world a) (S (ticks (world a)))) in
  input (state a1) = QueryHistory.query item
  /\ showHistory (state a1) = false
  /\ messages (state a1) = messages (state a)
  /\ queryHistory (state a1) = queryHistory (state a)
  /\ world a1 = world a
  /\ messages (state a2) = messages (state a) ++ [um]
  /\ requests (world a2)
     = requests (world a)
       ++ [chat_request (backendUrl (state a)) um (messages (state a))]
  /\ queryHistory (state a2) = queryHistory (state a)
  /\ localStorage (world a2) = localStorage (world a).
Proof.
  intros [Hl Ho] Hb. cbv zeta.
  rewrite (step_Submitted_accepted (step (HistoryItemPicked item) a))
    by (by destruct a). cbv zeta.
  destruct a as [s w out]. cbn [step state world outstanding loadHistoryItem
    setShowHistory setInput setMessages setIsLoading messages input showHistory
    queryHistory backendUrl fetch requests localStorage].
  by destruct (ticked_fields 2 w) as (_ & _ & -> & _ & _ & -> & _).
Qed.

(** Picking the "Hello!" entry and submitting. *)
Lemma history_item_resubmitted_witness :
  idle app0 /\ blank (QueryHistory.query entry0) = false
  /\ input (state (step (HistoryItemPicked entry0) app0)) = js "Hello!"
  /\ body <$> last (requests (world
       (step Submitted (step (HistoryItemPicked entry0) app0))))
     = Some (jsq "{'message':'Hello!','history':[]}").
Proof.
  assert (H1 : idle app0) by (split; reflexivity).
  assert (H2 : blank (QueryHistory.query entry0) = false) by (vm_compute; reflexivity).
  split; [exact H1|]. split; [exact H2|].
  destruct (history_item_resubmitted app0 entry0 H1 H2)
    as (Hi & _ & _ & _ & _ & _ & Hr & _).
  split; [exact Hi|]. rewrite Hr. vm_compute. reflexivity.
Defined.

(** *** Failed requests *)

(** X4.  When [fetch] rejects with a TypeError (what it does when the
    network fails), the user is told that the backend cannot be reached,
    with the backend URL of the submission; the error is logged, the
    conversation keeps the user's message, gets no assistant message, the
    history and the storage are unchanged and the in-flight flag is
    cleared. *)
Theorem backend_unreachable a text message :
  idle a -> blank text = false ->
  let a1 := run [Typed text; Submitted] a in
  let a2 := step (Settled (Rejected (ErrorObject (js "TypeError") message))) a1 in
  let um :=
    Message.mk (Z_toString (clock (world a) (ticks (world a))))
      (JStr (trim text)) Message.user (clock (world a) (S (ticks (world a)))) in
  toasts (world a2)
  = toasts (world a)
    ++ [mkToast (js "Error")
          (js "Cannot connect to backend server. Please ensure the FastAPI server is running on "
           ++ backendUrl (state a))
          destructive]
  /\ console (world a2)
     = console (world a)
       ++ [console_error (js "Chat error:")
             (ErrorObject (js "TypeError") message)]
  /\ messages (state a2) = messages (state a) ++ [um]
  /\ queryHistory (state a2) = queryHistory (state a)
  /\ localStorage (world a2) = localStorage (world a)
  /\ requests (world a2) = requests (world a1)
  /\ isLoading (state a2) = false
  /\ outstanding a2 = [].
Proof.
  intros Hi Hb. cbv zeta. rewrite (typed_submitted a text Hi Hb). cbv zeta.
  erewrite step_Settled_failed; [|reflexivity|reflexivity].
  cbn [chat_catch state world outstanding seen_backendUrl toast log toasts console
       messages queryHistory localStorage requests isLoading setIsLoading setInput
       setMessages fetch].
  rewrite error_description_TypeError.
  by destruct (ticked_fields 2 (world a)) as (_ & _ & _ & -> & -> & -> & _).
Qed.

(** Chrome's "Failed to fetch". *)
Lemma backend_unreachable_witness :
  idle app0 /\ blank (js "Hello!") = false
  /\ toasts (world (step (Settled (Rejected
       (ErrorObject (js "TypeError") (js "Failed to fetch")))) waiting))
     = [mkToast (js "Error")
          (js "Cannot connect to backend server. Please ensure the FastAPI server is running on http://localhost:8000")
          destructive].
Proof.
  assert (H1 : idle app0) by (split; reflexivity).
  assert (H2 : blank (js "Hello!") = false) by (vm_compute; reflexivity).
  split; [exact H1|]. split; [exact H2|].
  destruct (backend_unreachable app0 (js "Hello!") (js "Failed to fetch") H1 H2)
    as (Ht & _).
  unfold waiting. rewrite Ht. vm_compute. reflexivity.
Defined.



(** X6.  Whatever makes a chat request fail, the toast shows one of four
    fixed texts (the backend URL it names is that of the submission); the
    error itself, with the backend's [detail], goes to the console only,
    as the last entry.  The one entry that can come before it is that of a
    refused history write, when what failed is the toast of a finished
    exchange.  A thrown value that is not an Error is logged and shows no
    toast. *)
Theorem failure_toast_texts p o s w e :
  (chat_try p o s w).2 = Some e ->
  let w' := (handleSubmit_settled p o s w).2 in
  match e with
  | ErrorObject _ _ =>
      exists d l,
        toasts w' = toasts w ++ [mkToast (js "Error") d destructive]
        /\ d ∈ failure_descriptions (seen_backendUrl p)
        /\ console w' = console w ++ l ++ [console_error (js "Chat error:") e]
        /\ (l = []
            \/ l = [console_error (js "Error saving to history:") quota_error]
               /\ e = unconvertible)
  | NonError =>
      toasts w' = toasts w
      /\ console w' = console w ++ [console_error (js "Unknown error type:") e]
  end.
Proof.
  intros He. cbv zeta.
  destruct (chat_try_cases p o s w)
    as [(e' & w1 & Ht & _ & _ & _ & Hto & Hco & _)
       |(r & data & resp & -> & Hok & Hp & Hg)].
  - unfold handleSubmit_settled. rewrite Ht in *. cbn [snd] in *.
    injection He as ->. destruct e as [name message|]; cbn [chat_catch toast log
      toasts console]; rewrite Hto, Hco; [|done].
    eexists _, []. split; [done|]. split; [apply error_description_fixed|].
    split; [done|by left].
  - rewrite (chat_try_success p r s w data resp Hok Hp Hg) in He.
    cbv zeta in He.
    pose proof (step_Settled_persists (mkApp s w [p]) p [] r data resp
                  eq_refl Hok Hp Hg) as H.
    cbv zeta in H. cbn [step outstanding state world] in H.
    destruct (success_toast data) as [t|]; [by destruct (saveToHistory _ _ _ _ _)|].
    assert (e = unconvertible) as ->
      by (destruct (saveToHistory _ _ _ _ _); cbn in He; congruence).
    destruct (handleSubmit_settled p (Resolved r) s w) as [s' w'].
    cbn [state world fst snd] in *. destruct H as [Hto Hst].
    cbn [unconvertible].
    match type of Hst with context [if ?c then _ else _] => destruct c end;
      destruct Hst as [_ Hco].
    + eexists _, [_]. split; [exact Hto|]. split; [by left|].
      split; [exact Hco|]. by right.
    + eexists _, []. split; [exact Hto|]. split; [by left|].
      split; [exact Hco|]. by left.
Qed.

(** The detail "model overloaded" is not among the texts shown. *)
Lemma failure_toast_texts_witness :
  (chat_try (mkPending (Message.mk [] (JStr (js "Hello!")) Message.user 0) []
               (js "http://localhost:8000"))
     (Resolved overloaded) state0 world0).2
  = Some (ErrorObject (js "Error") (js "model overloaded"))
  /\ exists d,
       toasts (handleSubmit_settled
                 (mkPending (Message.mk [] (JStr (js "Hello!")) Message.user 0) []
                    (js "http://localhost:8000"))
                 (Resolved overloaded) state0 world0).2
       = [mkToast (js "Error") d destructive]
       /\ d ∈ failure_descriptions (js "http://localhost:8000").
Proof.
  assert (H : (chat_try (mkPending (Message.mk [] (JStr (js "Hello!")) Message.user 0)
                           [] (js "http://localhost:8000"))
                 (Resolved overloaded) state0 world0).2
              = Some (ErrorObject (js "Error") (js "model overloaded")))
    by (vm_compute; reflexivity).
  split; [exact H|].
  destruct (failure_toast_texts _ _ _ _ _ H) as (d & l & Ht & Hd & _).
  exists d. split; [exact Ht|exact Hd].
Defined.

(** X7.  A 2xx response whose body is not JSON, or is [null], fails like
    an error response: no assistant message, the history and the storage
    unchanged, the flag cleared, the error logged and an error toast shown.
    For [null] the error is the TypeError of reading [response], which the
    toast reports as a backend that cannot be reached. *)
Theorem unreadable_success_body a p rest r :
  outstanding a = p :: rest -> ok r = true ->
  JSON_parse (text r) = None \/ JSON_parse (text r) = Some JNull ->
  let a' := step (Settled (Resolved r)) a in
  exists e d,
    messages (state a') = messages (state a)
    /\ queryHistory (state a') = queryHistory (state a)
    /\ localStorage (world a') = localStorage (world a)
    /\ isLoading (state a') = false /\ outstanding a' = rest
    /\ console (world a') = console (world a) ++ [console_error (js "Chat error:") e]
    /\ toasts (world a') = toasts (world a) ++ [mkToast (js "Error") d destructive]
    /\ d ∈ failure_descriptions (seen_backendUrl p)
    /\ (JSON_parse (text r) = None -> e = syntax_error (world a) (text r))
    /\ (JSON_parse (text r) = Some JNull ->
        e = null_read (js "response")
        /\ d = js "Cannot connect to backend server. Please ensure the FastAPI server is running on "
               ++ seen_backendUrl p).
Proof.
  intros Ho Hok Hbody. cbv zeta.
  assert (Ht : exists e w1,
    chat_try p (Resolved r) (state a) (world a) = (state a, w1, Some e)
    /\ localStorage w1 = localStorage (world a) /\ toasts w1 = toasts (world a)
    /\ console w1 = console (world a)
    /\ (JSON_parse (text r) = None -> e = syntax_error (world a) (text r))
    /\ (JSON_parse (text r) = Some JNull -> e = null_read (js "response"))).
  { unfold chat_try. rewrite Hok. cbn [negb].
    destruct Hbody as [-> | ->].
    - eexists _, _. split; [reflexivity|]. by repeat split.
    - change (get_prop JNull (js "response")) with (@None (option json)).
      cbn [Date_now]. eexists _, _. split; [reflexivity|]. by repeat split. }
  destruct Ht as (e & w1 & Ht & Hl & Hto & Hco & He1 & He2).
  rewrite (step_Settled_failed a p rest _ e w1 Ho Ht).
  assert (exists name message, e = ErrorObject name message) as (name & message & ->).
  { destruct Hbody as [H|H]; [rewrite (He1 H)|rewrite (He2 H)]; by eexists _, _. }
  exists (ErrorObject name message), (error_description name message (seen_backendUrl p)).
  cbn [chat_catch state world outstanding toast log toasts console messages
       queryHistory localStorage isLoading setIsLoading].
  rewrite Hl, Hto, Hco.
  split; [done|]. split; [done|]. split; [done|]. split; [done|].
  split; [done|]. split; [done|]. split; [done|].
  split; [apply error_description_fixed|]. split; [exact He1|].
  intros Hn. split; [by apply He2|].
  specialize (He2 Hn). injection He2 as -> ->.
  apply error_description_TypeError.
Qed.

(** HTTP 200 with an HTML page for a body. *)
Lemma unreadable_success_body_witness :
  outstanding waiting
  = [mkPending (Message.mk (js "1730000000000") (JStr (js "Hello!")) Message.user
                  1730000000000) [] (js "http://localhost:8000")]
  /\ ok (mkResponse 200 (js "<html>")) = true
  /\ JSON_parse (js "<html>") = None
  /\ messages (state (step (Settled (Resolved (mkResponse 200 (js "<html>")))) waiting))
     = messages (state waiting)
  /\ isLoading (state (step (Settled (Resolved (mkResponse 200 (js "<html>")))) waiting))
     = false.
Proof.
  assert (H1 : outstanding waiting
    = [mkPending (Message.mk (js "1730000000000") (JStr (js "Hello!")) Message.user
                    1730000000000) [] (js "http://localhost:8000")])
    by (vm_compute; reflexivity).
  assert (H2 : ok (mkResponse 200 (js "<html>")) = true) by (vm_compute; reflexivity).
  assert (H3 : JSON_parse (text (mkResponse 200 (js "<html>"))) = None)
    by (vm_compute; reflexivity).
  split; [exact H1|]. split; [exact H2|]. split; [exact H3|].
  destruct (unreadable_success_body waiting _ [] _ H1 H2 (or_introl H3))
    as (e & d & Hm & _ & _ & Hl & _).
  split; [exact Hm|exact Hl].
Defined.

(** X8.  A settled request is never retried: whatever the outcome, settling
    sends no request.  It clears the in-flight flag and leaves the input
    (what the user typed meanwhile), the sidebar and the backend URL as
    they are. *)
Theorem settling_sends_nothing p o s w :
  let s' := (handleSubmit_settled p o s w).1 in
  let w' := (handleSubmit_settled p o s w).2 in
  requests w' = requests w /\ isLoading s' = false
  /\ input s' = input s /\ showHistory s' = showHistory s
  /\ backendUrl s' = backendUrl s.
Proof.
  cbv zeta.
  destruct (handleSubmit_settled_cases p o s w)
    as (Hr & _ & _ & [[-> _]|(am & entry & -> & _)]); done.
Qed.

(** *** The storage *)

(** X9.  When the browser refuses the write (a full quota), the exchange
    still completes: the assistant's message is appended, the history in
    memory gets the new entry and the flag is cleared; the storage keeps
    what it had and the refusal is logged only.  The usual toast follows,
    with the [model] and [tokens_used] of the body; when one of them has no
    conversion to a string, the TypeError of the template is logged after
    the refusal and the toast is that of a backend that cannot be
    reached. *)
Theorem storage_write_refused a p rest r data resp :
  outstanding a = p :: rest ->
  ok r = true -> JSON_parse (text r) = Some data ->
  get_prop data (js "response") = Some resp ->
  let a' := step (Settled (Resolved r)) a in
  write_refused (world a)
    (JSON_stringify (history_toJSON (queryHistory (state a')))) = true ->
  exists am entry,
    messages (state a') = messages (state a) ++ [am]
    /\ Message.content am = or_else resp (JStr placeholder)
    /\ queryHistory (state a') = take 50 (entry :: seen_queryHistory p)
    /\ obj_get (js "response") entry = Some (VJson (or_else resp (JStr placeholder)))
    /\ isLoading (state a') = false
    /\ localStorage (world a') = localStorage (world a)
    /\ match success_toast data with
       | Some t =>
           console (world a')
           = console (world a)
             ++ [console_error (js "Error saving to history:") quota_error]
           /\ toasts (world a') = toasts (world a) ++ [t]
       | None =>
           console (world a')
           = console (world a)
             ++ [console_error (js "Error saving to history:") quota_error;
                 console_error (js "Chat error:") unconvertible]
           /\ toasts (world a')
              = toasts (world a)
                ++ [mkToast (js "Error")
                      (js "Cannot connect to backend server. Please ensure the FastAPI server is running on "
                       ++ seen_backendUrl p) destructive]
       end.
Proof.
  intros Ho Hok Hp Hg. cbv zeta. intros Hw.
  pose proof (settled_reply a p rest r data resp Ho Hok Hp Hg) as (Hs & _).
  pose proof (step_Settled_persists a p rest r data resp Ho Hok Hp Hg) as (Hto & Hst).
  cbv zeta in Hs, Hst, Hto. rewrite Hw in Hst. destruct Hst as [Hl Hc].
  rewrite Hs, Hl, Hc, Hto. eexists _, _.
  cbn [messages queryHistory isLoading setIsLoading setQueryHistory setMessages].
  split; [reflexivity|]. split; [reflexivity|]. split; [reflexivity|].
  split; [done|]. split; [done|]. split; [done|].
  by destruct (success_toast data).
Qed.

(** An exchange in a browser that refuses every write. *)
Lemma storage_write_refused_witness :
  localStorage (world (run [Typed (js "Hello!"); Submitted;
                            Settled (Resolved (answer hello))]
                         (mkApp state0 world_full [])))
  = localStorage world_full
  /\ length (queryHistory (state (run [Typed (js "Hello!"); Submitted;
                                       Settled (Resolved (answer hello))]
                                    (mkApp state0 world_full []))))
     = 1%nat.
Proof.
  change (run [Typed (js "Hello!"); Submitted; Settled (Resolved (answer hello))]
            (mkApp state0 world_full []))
    with (step (Settled (Resolved (answer hello)))
            (run [Typed (js "Hello!"); Submitted] (mkApp state0 world_full []))).
  destruct (storage_write_refused
              (run [Typed (js "Hello!"); Submitted] (mkApp state0 world_full []))
              _ [] (answer hello) hello_data (Some (JStr (js "Hi there!")))
              eq_refl)
    as (am & entry & _ & _ & Hq & _ & _ & Hl & _);
    [vm_compute; reflexivity | vm_compute; reflexivity | vm_compute; reflexivity
    | reflexivity |].
  split; [exact Hl|]. rewrite Hq. reflexivity.
Defined.

(** X10.  Clearing the history empties it in memory and removes the stored
    payload (no other key), so that loading afterwards, or mounting the
    component again, starts from the empty history; the conversation is
    kept, and one toast reports the clearing. *)
Theorem clear_then_load s w :
  let s1 := (clearHistory s w).1 in
  let w1 := (clearHistory s w).2 in
  queryHistory s1 = [] /\ getItem history_key w1 = None
  /\ (forall s0, loadHistory s0 w1 = (s0, w1))
  /\ (forall env, match mount env w1 with
                  | Running a => queryHistory (state a) = []
                  | Crashed _ _ => True
                  end)
  /\ messages s1 = messages s
  /\ (forall k, k <> history_key -> getItem k w1 = getItem k w)
  /\ toasts w1
     = toasts w ++ [mkToast (js "History Cleared")
                      (js "Query history has been cleared.") plain].
Proof.
  cbv zeta. cbn [clearHistory fst snd].
  assert (Hload : forall s0 w0,
    localStorage w0 = delete history_key (localStorage w) ->
    loadHistory s0 w0 = (s0, w0)).
  { intros s0 w0 H. unfold loadHistory, getItem. by rewrite H, lookup_delete_eq. }
  split; [done|]. split; [apply lookup_delete_eq|]. split; [by intros; apply Hload|].
  split.
  { intros env. unfold mount, initial_state, mount_effect.
    rewrite Hload by (by destruct (env_missing env)).
    by destruct (env_missing env). }
  split; [done|]. split; [|done].
  intros k Hk. unfold getItem. cbn. by apply lookup_delete_ne.
Qed.

(** X11.  The suspended call saves with the history of the render it was
    started from: when the user clears the history while a request is
    outstanding and the request then succeeds, the history (and, the
    write accepted, the stored payload) is the new entry in front of the
    history as it was at submission. *)
Theorem clear_during_request a text r data resp :
  idle a -> blank text = false ->
  ok r = true -> JSON_parse (Chat.text r) = Some data ->
  get_prop data (js "response") = Some resp ->
  let a1 := run [Typed text; Submitted; HistoryCleared] a in
  let a2 := step (Settled (Resolved r)) a1 in
  queryHistory (state a1) = [] /\ getItem history_key (world a1) = None
  /\ exists entry,
       queryHistory (state a2) = take 50 (entry :: queryHistory (state a))
       /\ obj_get (js "query") entry = Some (VJson (JStr (trim text)))
       /\ obj_get (js "response") entry
          = Some (VJson (or_else resp (JStr placeholder)))
       /\ (write_refused (world a)
             (JSON_stringify (history_toJSON (queryHistory (state a2)))) = false ->
           getItem history_key (world a2)
           = Some (JSON_stringify (history_toJSON (queryHistory (state a2))))).
Proof.
  intros Hi Hb Hok Hp Hg. cbv zeta.
  change (run [Typed text; Submitted; HistoryCleared] a)
    with (step HistoryCleared (run [Typed text; Submitted] a)).
  rewrite (typed_submitted a text Hi Hb). cbv zeta.
  set (a1 := step HistoryCleared _).
  pose proof (settled_reply a1 _ [] r data resp eq_refl Hok Hp Hg) as (Hs & _).
  pose proof (step_Settled_persists a1 _ [] r data resp eq_refl Hok Hp Hg) as (_ & Hst).
  cbv zeta in Hs, Hst. rewrite Hs in *. clear Hs. subst a1.
  cbn [step clearHistory state world outstanding userMessage seen_queryHistory
       Message.content queryHistory setIsLoading setQueryHistory write_refused
       toast removeItem set_storage fetch] in *.
  split; [done|]. split; [apply lookup_delete_eq|].
  pose proof (ticked_fields 2 (world a)) as (_ & _ & _ & _ & _ & _ & Hw2).
  rewrite Hw2 in Hst.
  eexists. split; [reflexivity|]. split; [done|]. split; [done|].
  intros Hw. rewrite Hw in Hst. destruct Hst as [Hst _].
  unfold getItem. rewrite Hst. apply lookup_insert_eq.
Qed.

(** The entry cleared while "Hello!" was outstanding is back behind the new one. *)
Lemma clear_during_request_witness :
  idle app1 /\ blank (js "Hello!") = false
  /\ queryHistory (state (run [Typed (js "Hello!"); Submitted; HistoryCleared] app1))
     = []
  /\ exists entry,
       queryHistory
         (state (step (Settled (Resolved (answer hello)))
                   (run [Typed (js "Hello!"); Submitted; HistoryCleared] app1)))
       = take 50 (entry :: queryHistory (state app1))
       /\ obj_get (js "query") entry = Some (VJson (JStr (js "Hello!"))).
Proof.
  assert (H1 : idle app1) by (split; reflexivity).
  assert (H2 : blank (js "Hello!") = false) by (vm_compute; reflexivity).
  split; [exact H1|]. split; [exact H2|].
  destruct (clear_during_request app1 (js "Hello!") (answer hello) hello_data
              (Some (JStr (js "Hi there!"))) H1 H2)
    as (Hc & _ & entry & Hq & Hk & _);
    [vm_compute; reflexivity | vm_compute; reflexivity | vm_compute; reflexivity |].
  split; [exact Hc|]. exists entry. split; [exact Hq|exact Hk].
Defined.

(** X12.  Loading never writes and never shows a toast.  It leaves the
    world as it is, or, when the payload made it throw, logs the error and
    removes the history key, leaving the state as it was; the conversation
    and the other state variables are never touched. *)
Theorem load_only_removes s w :
  let s' := (loadHistory s w).1 in
  let w' := (loadHistory s w).2 in
  toasts w' = toasts w /\ requests w' = requests w /\ ticks w' = ticks w
  /\ messages s' = messages s /\ input s' = input s
  /\ isLoading s' = isLoading s /\ backendUrl s' = backendUrl s
  /\ (w' = w
      \/ exists e,
           s' = s
           /\ w' = removeItem history_key
                     (log (console_error (js "Error loading query history:") e) w)
           /\ (forall k, k <> history_key -> getItem k w' = getItem k w)).
Proof.
  cbv zeta. unfold loadHistory.
  assert (Hrm : forall e k, k <> history_key ->
    getItem k (removeItem history_key
                 (log (console_error (js "Error loading query history:") e) w))
    = getItem k w).
  { intros e k Hk. unfold getItem. cbn. by apply lookup_delete_ne. }
  destruct (getItem history_key w) as [saved|]; [|by repeat split; left].
  destruct (str_eqb saved []); [by repeat split; left|].
  destruct (JSON_parse saved) as [[| | | |items|]|];
    try (by repeat split; left).
  - destruct (revive_all _ items); [|by repeat split; left].
    repeat split; try done. right. eexists.
    split; [done|]. split; [done|]. apply Hrm.
  - repeat split; try done. right. eexists.
    split; [done|]. split; [done|]. apply Hrm.
Qed.




(** *** Message ids *)

Lemma uint_digits_inj u v : uint_digits u = uint_digits v -> u = v.
Proof.
  revert v. induction u; intros []; cbn; try done; intros [= H]; f_equal; auto.
Qed.

Lemma N_toString_inj m n : N_toString m = N_toString n -> m = n.
Proof. intros H. by apply DecimalN.Unsigned.to_uint_inj, uint_digits_inj. Qed.

Lemma N_toString_head n : exists c r, N_toString n = c :: r /\ is_digit c = true.
Proof.
  unfold N_toString. destruct n as [|p]; [by eexists _, _|]. cbn [N.to_uint].
  pose proof (DecimalPos.Unsigned.to_uint_nonnil p) as H.
  destruct (Pos.to_uint p); try done; by eexists _, _.
Qed.

Lemma Z_toString_inj x y : Z_toString x = Z_toString y -> x = y.
Proof.
  unfold Z_toString.
  destruct (N_toString_head (Z.abs_N x)) as (c & r & Hx & Hc).
  destruct (N_toString_head (Z.abs_N y)) as (d & q & Hy & Hd).
  destruct (Z.ltb_spec x 0), (Z.ltb_spec y 0); intros E.
  - injection E as E. apply N_toString_inj in E. lia.
  - rewrite Hy in E. injection E as <- _. done.
  - rewrite Hx in E. injection E as -> _. done.
  - apply N_toString_inj in E. lia.
Qed.

(** X14.  Ids are clock readings in decimal: the user's message takes the
    reading at submission, the assistant's the reading at the response plus
    one.  With a clock that does not run backwards the two messages of an
    exchange have different ids; the assistant's id is the id of any message
    submitted at the reading one millisecond later. *)
Theorem exchange_message_ids a text r data resp :
  idle a -> blank text = false ->
  ok r = true -> JSON_parse (Chat.text r) = Some data ->
  get_prop data (js "response") = Some resp ->
  let a2 := run [Typed text; Submitted; Settled (Resolved r)] a in
  let now k := clock (world a) (k + ticks (world a))%nat in
  exists um am,
    messages (state a2) = messages (state a) ++ [um; am]
    /\ Message.id um = Z_toString (now 0%nat)
    /\ Message.id am = Z_toString (now 2%nat + 1)
    /\ (now 0%nat <= now 2%nat -> Message.id um <> Message.id am)
    /\ forall text',
         blank text' = false ->
         exists um',
           messages (state (run [Typed text'; Submitted] a2))
           = messages (state a2) ++ [um']
           /\ Message.id um' = Z_toString (now 6%nat)
           /\ (Message.id um' = Message.id am <-> now 6%nat = now 2%nat + 1).
Proof.
  intros Hi Hb Hok Hp Hg. cbv zeta.
  assert (Hx : successful (mkExchange text r)).
  { split; [done|]. unfold reply. cbn [answer]. rewrite Hok, Hp.
    cbn [mbind option_bind]. rewrite Hg. by eexists. }
  pose proof (exchange_run a (mkExchange text r) Hi Hx) as (Hi2 & Hc2 & Ht2 & _).
  cbv zeta in Hi2, Hc2, Ht2.
  change (exchange_events (mkExchange text r))
    with [Typed text; Submitted; Settled (Resolved r)] in *.
  set (a2 := run [Typed text; Submitted; Settled (Resolved r)] a) in *.
  assert (Hm : messages (state a2)
    = messages (state a)
      ++ [Message.mk (Z_toString (clock (world a) (ticks (world a))))
            (JStr (trim text)) Message.user (clock (world a) (S (ticks (world a))));
          Message.mk (Z_toString (clock (world a) (2 + ticks (world a))%nat + 1))
            (or_else resp (JStr placeholder)) Message.assistant
            (clock (world a) (S (2 + ticks (world a))))]).
  { subst a2. change (run [Typed text; Submitted; Settled (Resolved r)] a)
      with (step (Settled (Resolved r)) (run [Typed text; Submitted] a)).
    rewrite (typed_submitted a text Hi Hb). cbv zeta.
    match goal with |- context [step _ ?a1] =>
      pose proof (settled_reply a1 _ [] r data resp eq_refl Hok Hp Hg) as (Hs & _)
    end.
    cbv zeta in Hs. rewrite Hs. clear Hs.
    cbn [state world messages setIsLoading setQueryHistory setMessages setInput
         fetch clock ticks].
    destruct (ticked_fields 2 (world a)) as (-> & -> & _).
    by rewrite <- app_assoc. }
  eexists _, _. split; [exact Hm|]. cbn [Message.id].
  split; [done|]. split; [done|]. split.
  { intros Hle E. apply Z_toString_inj in E. cbn [Nat.add] in *. lia. }
  intros text' Hb'. rewrite (typed_submitted a2 text' Hi2 Hb'). cbv zeta.
  eexists. cbn [state messages setIsLoading setInput setMessages].
  split; [reflexivity|]. cbn [Message.id]. rewrite Hc2, Ht2.
  replace (ticks (world a) + 6)%nat with (6 + ticks (world a))%nat by lia.
  split; [done|]. split; [apply Z_toString_inj|by intros ->].
Qed.

(** The "Hello!" exchange under a clock that stands still. *)
Lemma exchange_message_ids_witness :
  idle app0 /\ blank (js "Hello!") = false
  /\ exists um am,
       messages (state (run (exchange_events hello) app0)) = [um; am]
       /\ Message.id um = js "1730000000000"
       /\ Message.id am = js "1730000000001"
       /\ Message.id um <> Message.id am.
Proof.
  assert (H1 : idle app0) by (split; reflexivity).
  assert (H2 : blank (js "Hello!") = false) by (vm_compute; reflexivity).
  split; [exact H1|]. split; [exact H2|].
  destruct (exchange_message_ids app0 (js "Hello!") (answer hello) hello_data
              (Some (JStr (js "Hi there!"))) H1 H2)
    as (um & am & Hm & Hu & Ha & Hne & _);
    [vm_compute; reflexivity | vm_compute; reflexivity | vm_compute; reflexivity |].
  exists um, am. split; [exact Hm|]. split; [exact Hu|]. split; [exact Ha|].
  apply Hne. vm_compute. discriminate.
Defined.

(** *** Health checks *)

Lemma health_settled_frame url o w :
  let w' := testBackendConnection_settled url o w in
  localStorage w' = localStorage w /\ requests w' = requests w
  /\ write_refused w' = write_refused w /\ clock w' = clock w
  /\ ticks w' = ticks w.
Proof.
  unfold testBackendConnection_settled, health_try. destruct o as [e|r]; [done|].
  destruct (ok r); [|done]. destruct (JSON_parse _) as [data|]; [|done].
  destruct (get_prop data (js "status")); [|done].
  destruct (get_prop data (js "model")); [|done].
  by destruct (connected_toast _ _).
Qed.

(** X15.  A settled health check leaves the storage alone and sends
    nothing.  It reports the backend as connected exactly when the response
    is 2xx with a JSON body other than [null] whose [status] and [model]
    can be printed, and names the two ("Unknown" for a missing or falsy
    one); a rejected fetch, any other status, an unreadable body and a
    [status] or [model] without a conversion to a string are logged and
    reported as a failed connection to the backend URL of the click. *)
Theorem health_check_outcome seen_url o w :
  let w' := testBackendConnection_settled seen_url o w in
  localStorage w' = localStorage w /\ requests w' = requests w
  /\ (if healthy o then
        exists r data status model st mo,
          o = Resolved r /\ JSON_parse (text r) = Some data
          /\ get_prop data (js "status") = Some status
          /\ get_prop data (js "model") = Some model
          /\ ToString (or_else status (JStr (js "Unknown"))) = Some st
          /\ ToString (or_else model (JStr (js "Unknown"))) = Some mo
          /\ toasts w'
             = toasts w
               ++ [mkToast (js "Backend Connected")
                     (js "Status: " ++ st ++ js " | Model: " ++ mo) plain]
          /\ console w' = console w
      else
        exists e,
          toasts w'
          = toasts w
            ++ [mkToast (js "Backend Connection Failed")
                  (js "Cannot connect to " ++ seen_url
                   ++ js ". Please ensure FastAPI server is running.")
                  destructive]
          /\ console w'
             = console w
               ++ [console_error (js "Backend connection test failed:") e])
  /\ connected_toast None None
     = Some (mkToast (js "Backend Connected")
               (js "Status: Unknown | Model: Unknown") plain).
Proof.
  cbv zeta. destruct (health_settled_frame seen_url o w) as (Hl & Hr & _).
  split; [exact Hl|]. split; [exact Hr|]. split; [|reflexivity].
  unfold testBackendConnection_settled, health_try, healthy, printable.
  destruct o as [e|r]; [by eexists|].
  destruct (ok r); cbn [andb]; [|by eexists].
  destruct (JSON_parse (text r)) as [data|] eqn:Hp; [|by eexists].
  assert (Hd : data = JNull \/ exists status model,
    get_prop data (js "status") = Some status
    /\ get_prop data (js "model") = Some model).
  { destruct data; [by left|right; by eexists _, _..]. }
  destruct Hd as [->|(status & model & Hs & Hm)]; [by eexists|].
  assert (Hn : match data with JNull => False | _ => True end)
    by (by destruct data).
  rewrite Hs, Hm. unfold connected_toast.
  destruct (ToString (or_else status (JStr (js "Unknown")))) as [st|] eqn:Est;
    cbn [mbind option_bind].
  - destruct (ToString (or_else model (JStr (js "Unknown")))) as [mo|] eqn:Emo;
      cbn [mbind option_bind andb].
    + destruct data; try done; exists r; eexists _, status, model, st, mo;
        by repeat split.
    + destruct data; try done; by eexists.
  - destruct data; try done; by eexists.
Qed.

(** *** Sessions: every handler, in any order *)

Lemma step_Submitted_Change ss :
  Change ss (mkSession (step Submitted (mounted ss)) (checks ss)).
Proof.
  destruct ss as [[s w out] cs]. cbn [mounted checks step state world outstanding].
  destruct (handleSubmit_cases s w) as [E|(um & E & Hr & Hc & Hb & Hl)]; rewrite E.
  - apply unchanged; cbn; try done. by rewrite app_nil_r.
  - by apply (submitted _ _ um).
Qed.

Lemma act_Change x ss :
  Change ss (act x ss)
  /\ write_refused (world (mounted (act x ss))) = write_refused (world (mounted ss))
  /\ backendUrl (state (mounted (act x ss))) = backendUrl (state (mounted ss))
  /\ clock (world (mounted (act x ss))) = clock (world (mounted ss)).
Proof.
  assert (Hsub : forall ss,
    let ss' := mkSession (step Submitted (mounted ss)) (checks ss) in
    write_refused (world (mounted ss')) = write_refused (world (mounted ss))
    /\ backendUrl (state (mounted ss')) = backendUrl (state (mounted ss))
    /\ clock (world (mounted ss')) = clock (world (mounted ss))).
  { intros [[s w out] cs]. cbn [mounted checks step state world outstanding].
    destruct (handleSubmit_cases s w) as [E|(um & E & _)]; rewrite E; done. }
  destruct x as [ev|key shift| | |i o].
  - destruct ev as [t| |o| |item].
    + split; [|done]. destruct ss as [[s w out] cs]. by apply unchanged.
    + split; [apply step_Submitted_Change|apply Hsub].
    + destruct ss as [[s w [|p rest]] cs]; [split; [by apply unchanged|done]|].
      cbn [act mounted checks step state world outstanding].
      pose proof (handleSubmit_settled_cases p o s w) as (Hrq & Hwr & Hck & Hc).
      assert (Hu : backendUrl (handleSubmit_settled p o s w).1 = backendUrl s).
      { destruct Hc as [[-> _]|(am & entry & -> & _)]; done. }
      destruct (handleSubmit_settled p o s w) as [s' w']. cbn [fst snd] in *.
      split; [|done].
      destruct Hc as [[-> Hls]|(am & entry & -> & Hr & Ht & _ & _ & Hd & Hst)].
      * by apply (failed _ _ p).
      * by apply (answered _ _ p am entry).
    + split; [|done]. destruct ss as [[s w out] cs]. by apply cleared.
    + split; [|done]. destruct ss as [[s w out] cs]. by apply unchanged.
  - unfold act, handleKeyDown. destruct (_ && _).
    + split; [apply step_Submitted_Change|apply Hsub].
    + split; [|done]. destruct ss as [[s w out] cs]. by apply unchanged.
  - split; [|done]. destruct ss as [[s w out] cs]. by apply unchanged.
  - split; [|done]. destruct ss as [[s w out] cs]. by apply tested.
  - unfold act. destruct (checks ss !! i) as [u|] eqn:E.
    + destruct ss as [[s w out] cs]. cbn [mounted checks state world outstanding] in *.
      pose proof (health_settled_frame u o w) as (H1 & H2 & H3 & H4 & _).
      split; [|done]. by apply (checked _ _ i u).
    + split; [|done]. by apply unchanged.
Qed.

Lemma perform_snoc xs x ss : perform (xs ++ [x]) ss = act x (perform xs ss).
Proof. unfold perform. by rewrite foldl_app. Qed.

Lemma perform_cons x xs ss : perform (x :: xs) ss = perform xs (act x ss).
Proof. reflexivity. Qed.

Lemma perform_invariant (P : Session -> Prop) :
  (forall x ss, P ss -> P (act x ss)) ->
  forall xs ss, P ss -> P (perform xs ss).
Proof.
  intros Hstep xs. induction xs as [|x xs IH]; intros ss H; [done|].
  rewrite perform_cons. apply IH, Hstep, H.
Qed.

Lemma perform_write_refused xs ss :
  write_refused (world (mounted (perform xs ss)))
  = write_refused (world (mounted ss))
  /\ backendUrl (state (mounted (perform xs ss)))
     = backendUrl (state (mounted ss))
  /\ clock (world (mounted (perform xs ss))) = clock (world (mounted ss)).
Proof.
  revert ss. induction xs as [|x xs IH]; intros ss; [done|].
  rewrite perform_cons. destruct (IH (act x ss)) as (-> & -> & ->).
  by destruct (act_Change x ss) as (_ & -> & -> & ->).
Qed.

(** X16.  Health checks are not gated: [n] clicks on Test Backend send [n]
    GET requests to [/health], whether or not a chat request is
    outstanding, and change nothing in the component's state. *)
Theorem health_checks_not_gated n ss :
  let ss' := perform (replicate n BackendTested) ss in
  requests (world (mounted ss'))
  = requests (world (mounted ss))
    ++ replicate n (health_request (backendUrl (state (mounted ss))))
  /\ state (mounted ss') = state (mounted ss)
  /\ outstanding (mounted ss') = outstanding (mounted ss)
  /\ checks ss' = checks ss ++ replicate n (backendUrl (state (mounted ss))).
Proof.
  cbv zeta. revert ss. induction n as [|n IH]; intros ss.
  - cbn. by rewrite !app_nil_r.
  - cbn [replicate]. rewrite perform_cons.
    destruct (IH (act BackendTested ss)) as (-> & -> & -> & ->).
    destruct ss as [[s w out] cs]. cbn. by rewrite <- !app_assoc.
Qed.

(** X17.  No handler removes or alters a message: whatever the user does and
    however requests settle, the conversation only grows at its end. *)
Theorem conversation_append_only xs ss :
  messages (state (mounted ss))
  `prefix_of` messages (state (mounted (perform xs ss))).
Proof.
  revert ss. induction xs as [|x xs IH]; intros ss; [done|].
  rewrite perform_cons. etrans; [|apply IH].
  destruct (act_Change x ss) as [[] _];
    repeat match goal with H : messages _ = _ |- _ => rewrite H; clear H end;
    try done; by apply prefix_app_r.
Qed.

(** X18.  The history never grows past 50 entries: after any actions it is
    no longer than 50, or than it was when a longer one had been loaded. *)
Theorem history_never_outgrows xs ss :
  (length (queryHistory (state (mounted (perform xs ss))))
   <= Nat.max 50 (length (queryHistory (state (mounted ss)))))%nat.
Proof.
  revert ss. induction xs as [|x xs IH]; intros ss; [cbn; lia|].
  rewrite perform_cons. etrans; [apply IH|].
  destruct (act_Change x ss) as [[] _];
    repeat match goal with H : queryHistory _ = _ |- _ => rewrite H; clear H end;
    cbn [length]; try rewrite length_take; lia.
Qed.

(** X19.  As long as the browser accepts the writes, the stored payload
    keeps up with the history in memory. *)
Theorem history_mirrors_storage xs ss :
  (forall v, write_refused (world (mounted ss)) v = false) ->
  mirrored (mounted ss) -> mirrored (mounted (perform xs ss)).
Proof.
  intros Hw Hm.
  apply (perform_invariant (fun ss' =>
    (forall v, write_refused (world (mounted ss')) v = false)
    /\ mirrored (mounted ss'))); [|done].
  clear. intros x ss [Hw Hm].
  destruct (act_Change x ss) as (Hc & Hwr & _). split; [by rewrite Hwr|].
  unfold mirrored, getItem in *.
  destruct Hc;
    repeat match goal with
    | H : context [write_refused _ _] |- _ => rewrite Hw in H
    | H : queryHistory (state (mounted (act x ss))) = _ |- _ => rewrite H; clear H
    | H : localStorage (world (mounted (act x ss))) = _ |- _ => rewrite H; clear H
    end; try done.
  - right. apply lookup_insert_eq.
  - left. split; [done|apply lookup_delete_eq].
Qed.

(** A session that clears the history while its request is outstanding. *)
Lemma history_mirrors_storage_witness :
  (forall v, write_refused (world (mounted session0)) v = false)
  /\ mirrored (mounted session0)
  /\ mirrored (mounted (perform actions0 session0)).
Proof.
  assert (H1 : forall v, write_refused (world (mounted session0)) v = false)
    by reflexivity.
  assert (H2 : mirrored (mounted session0)) by (left; split; reflexivity).
  split; [exact H1|]. split; [exact H2|].
  exact (history_mirrors_storage actions0 session0 H1 H2).
Defined.

(** X20.  No message of the conversation is empty: a user's message
    carries trimmed text that is not empty, an assistant's message a truthy
    value (the placeholder when the backend sent none). *)
Theorem messages_have_content xs ss :
  Forall has_content (messages (state (mounted ss))) ->
  Forall has_content (messages (state (mounted (perform xs ss)))).
Proof.
  apply (perform_invariant (fun ss' =>
    Forall has_content (messages (state (mounted ss'))))).
  clear. intros x ss H.
  destruct (act_Change x ss) as [[] _];
    repeat match goal with H : messages _ = _ |- _ => rewrite H; clear H end;
    try done; apply Forall_app; (split; [done|]); apply Forall_singleton;
    unfold has_content.
  - match goal with H : Message.role um = _ |- _ => rewrite H end.
    eexists. split; [eassumption|]. split; [by apply blank_false_trim|].
    apply trim_idempotent.
  - match goal with H : Message.role am = _ |- _ => by rewrite H end.
Qed.

(** The same session, from the empty conversation. *)
Lemma messages_have_content_witness :
  Forall has_content (messages (state (mounted session0)))
  /\ Forall has_content (messages (state (mounted (perform actions0 session0)))).
Proof.
  assert (H : Forall has_content (messages (state (mounted session0))))
    by constructor.
  split; [exact H|]. exact (messages_have_content actions0 session0 H).
Defined.

Lemma mount_running env w a0 :
  mount env w = Running a0 ->
  exists u, env = Some u /\ u <> [] /\ backendUrl (state a0) = u
    /\ messages (state a0) = [] /\ outstanding a0 = []
    /\ requests (world a0) = requests w
    /\ write_refused (world a0) = write_refused w
    /\ isLoading (state a0) = false.
Proof.
  unfold mount, initial_state, mount_effect.
  set (s0 := mkState _ _ _ _ _ _).
  set (w0 := if env_missing env then log (console_warn url_warning) w else w).
  pose proof (loadHistory_requests s0 w0) as (Hr & _).
  pose proof (loadHistory_write_refused s0 w0) as Hw.
  assert (Hm : messages (loadHistory s0 w0).1 = []
               /\ isLoading (loadHistory s0 w0).1 = false).
  { unfold loadHistory. destruct (getItem _ _); [|done].
    destruct (str_eqb _ _); [done|].
    destruct (JSON_parse _) as [[]|]; try done.
    destruct (revive_all _ _); done. }
  destruct (loadHistory s0 w0) as [s1 w1]. cbn [fst snd] in *.
  destruct env as [[|c u]|]; try done. cbn [env_missing] in *.
  intros [= <-]. exists (c :: u). subst w0. by destruct Hm.
Qed.

Lemma sent_snoc u before msgs m :
  sent u before (msgs ++ [m])
  = sent u before msgs
    ++ (if is_user m then [chat_request u m (before ++ msgs)] else []).
Proof.
  revert before. induction msgs as [|x msgs IH]; intros before; cbn [sent app].
  - by rewrite !app_nil_r.
  - rewrite IH, <- !app_assoc. done.
Qed.

Lemma is_post_health u : is_post (health_request u) = false.
Proof. reflexivity. Qed.

Lemma is_post_chat u m l : is_post (chat_request u m l) = true.
Proof. reflexivity. Qed.

(** The requests of a session whose handlers read the live state. *)
Lemma perform_requests env w a0 xs :
  mount env w = Running a0 ->
  let a := mounted (perform xs (mkSession a0 [])) in
  exists u new,
    env = Some u /\ u <> []
    /\ requests (world a) = requests w ++ new
    /\ List.filter is_post new = sent u [] (messages (state a))
    /\ Forall (fun r => is_post r = false -> r = health_request u) new.
Proof.
  intros Hm. cbv zeta.
  destruct (mount_running env w a0 Hm) as (u & -> & Hu & Hb & Hms & Ho & Hr & _).
  exists u.
  assert (Hinv : exists new,
    requests (world (mounted (perform xs (mkSession a0 [])))) = requests w ++ new
    /\ List.filter is_post new
       = sent u [] (messages (state (mounted (perform xs (mkSession a0 [])))))
    /\ Forall (fun r => is_post r = false -> r = health_request u) new
    /\ backendUrl (state (mounted (perform xs (mkSession a0 [])))) = u).
  { apply (perform_invariant (fun ss => exists new,
      requests (world (mounted ss)) = requests w ++ new
      /\ List.filter is_post new = sent u [] (messages (state (mounted ss)))
      /\ Forall (fun r => is_post r = false -> r = health_request u) new
      /\ backendUrl (state (mounted ss)) = u)).
    - clear. intros x ss (new & Hr & Hf & Hh & Hb).
      destruct (act_Change x ss) as (Hc & _ & Hb' & _). rewrite Hb' , Hb.
      destruct Hc;
        repeat match goal with
        | H : messages (state (mounted (act x ss))) = _ |- _ => rewrite H; clear H
        | H : requests (world (mounted (act x ss))) = _ |- _ => rewrite H; clear H
        end; rewrite ?Hb, ?Hr.
      + by exists new.
      + eexists. split; [by rewrite <- app_assoc|].
        rewrite List.filter_app, sent_snoc, Hf. unfold is_user.
        match goal with H : Message.role um = _ |- _ => rewrite H end.
        split; [done|]. split; [|done]. apply Forall_app. split; [done|].
        by apply Forall_singleton.
      + by exists new.
      + exists new. split; [done|]. rewrite sent_snoc. unfold is_user.
        match goal with H : Message.role am = _ |- _ => rewrite H end.
        by rewrite app_nil_r.
      + by exists new.
      + eexists. split; [by rewrite <- app_assoc|].
        rewrite List.filter_app. cbn [List.filter]. rewrite is_post_health, app_nil_r.
        split; [done|]. split; [|done]. apply Forall_app. split; [done|].
        by apply Forall_singleton.
      + by exists new.
    - exists []. cbn [mounted]. rewrite Hr, Hms, app_nil_r. done. }
  destruct Hinv as (new & H1 & H2 & H3 & _). by exists new.
Qed.

(** X22.  Every assistant message answers a user message of its own: the
    assistant messages and the requests still outstanding together never
    outnumber the user messages. *)
Theorem replies_answer_messages env w a0 xs :
  mount env w = Running a0 ->
  let a := mounted (perform xs (mkSession a0 [])) in
  (length (List.filter is_assistant (messages (state a))) + length (outstanding a)
   <= length (List.filter is_user (messages (state a))))%nat.
Proof.
  intros Hm. cbv zeta.
  destruct (mount_running env w a0 Hm) as (u & _ & _ & _ & Hms & Ho & _).
  apply (perform_invariant (fun ss =>
    (length (List.filter is_assistant (messages (state (mounted ss))))
     + length (outstanding (mounted ss))
     <= length (List.filter is_user (messages (state (mounted ss)))))%nat)).
  - clear. intros x ss H.
    destruct (act_Change x ss) as [[] _];
      repeat match goal with
      | H : messages (state (mounted (act x ss))) = _ |- _ => rewrite H; clear H
      | H : outstanding (mounted (act x ss)) = _ |- _ => rewrite H; clear H
      | H : outstanding (mounted ss) = _ |- _ => rewrite H in *; clear H
      end; try done;
      rewrite ?List.filter_app, ?length_app; cbn [List.filter length];
      unfold is_assistant, is_user in *;
      repeat match goal with H : Message.role _ = _ |- _ => rewrite H; clear H end;
      cbn [negb length] in *; lia.
  - cbn [mounted]. rewrite Hms, Ho. done.
Qed.

(** The same session. *)
Lemma replies_answer_messages_witness :
  mount (Some (js "http://localhost:8000")) world0 = Running app0
  /\ (length (List.filter is_assistant
                (messages (state (mounted (perform actions0 session0)))))
      + length (outstanding (mounted (perform actions0 session0)))
      <= length (List.filter is_user
                   (messages (state (mounted (perform actions0 session0))))))%nat.
Proof.
  assert (H : mount (Some (js "http://localhost:8000")) world0 = Running app0)
    by (vm_compute; reflexivity).
  split; [exact H|]. exact (replies_answer_messages _ _ _ actions0 H).
Defined.

Lemma revive_dated_object h item o : revive h item = inr o -> dated o.
Proof.
  intros H. apply revive_inr in H as (ts & d & _ & _ & Hd & _). by exists d.
Qed.

Lemma loadHistory_dated s w :
  Forall dated (queryHistory s) -> Forall dated (queryHistory (loadHistory s w).1).
Proof.
  intros H. unfold loadHistory. destruct (getItem _ _); [|done].
  destruct (str_eqb _ _); [done|].
  destruct (JSON_parse _) as [[| | | |items|]|]; try done.
  destruct (revive_all _ items) as [e|h] eqn:E; [done|]. cbn.
  apply revive_all_inr in E. clear -E. induction E; constructor; [|done].
  by eapply revive_dated_object.
Qed.

Lemma mount_dated env w a0 :
  mount env w = Running a0 -> Forall dated (queryHistory (state a0)).
Proof.
  unfold mount, initial_state, mount_effect.
  set (s0 := mkState _ _ _ _ _ _).
  set (w0 := if env_missing env then log (console_warn url_warning) w else w).
  pose proof (loadHistory_dated s0 w0 (Forall_nil_2 _)) as H.
  destruct (loadHistory s0 w0) as [s1 w1]. cbn [fst] in H.
  destruct (env_missing env); [done|]. by intros [= <-].
Qed.

(** X23.  Whatever the storage held at mount, every entry of the history
    in memory carries a [Date] under [timestamp], at any time afterwards:
    loading replaces the stored value by a [Date] (or adds one), and saving
    creates the entry with one. *)
Theorem history_entries_dated env w a0 xs :
  mount env w = Running a0 ->
  Forall dated (queryHistory (state (mounted (perform xs (mkSession a0 []))))).
Proof.
  intros Hm.
  destruct (mount_running env w a0 Hm) as (u & _ & _ & _ & _ & Ho & _).
  assert (Hinv : Forall dated (queryHistory (state (mounted (perform xs (mkSession a0 [])))))
    /\ Forall (fun p => Forall dated (seen_queryHistory p))
         (outstanding (mounted (perform xs (mkSession a0 []))))); [|apply Hinv].
  apply (perform_invariant (fun ss =>
    Forall dated (queryHistory (state (mounted ss)))
    /\ Forall (fun p => Forall dated (seen_queryHistory p)) (outstanding (mounted ss)))).
  - clear. intros x ss [Hq Ho].
    destruct (act_Change x ss) as [[] _];
      repeat match goal with
      | H : queryHistory (state (mounted (act x ss))) = _ |- _ => rewrite H; clear H
      | H : outstanding (mounted (act x ss)) = _ |- _ => rewrite H; clear H
      end; try done.
    + split; [done|]. apply Forall_app. split; [done|]. by apply Forall_singleton.
    + match goal with H : outstanding (mounted ss) = _ |- _ => rewrite H in Ho end.
      apply Forall_cons in Ho as [_ Ho]. done.
    + match goal with H : outstanding (mounted ss) = _ |- _ => rewrite H in Ho end.
      apply Forall_cons in Ho as [Hp Ho]. split; [|done].
      apply Forall_take. by constructor.
  - cbn [mounted]. rewrite Ho. split; [by eapply mount_dated|done].
Qed.

(** A stored element without a timestamp loads with an Invalid Date. *)
Lemma history_entries_dated_witness :
  mount (Some (js "http://localhost:8000")) (stored sparse_payload) = Running app2
  /\ Forall dated
       (queryHistory (state (mounted (perform actions0 (mkSession app2 []))))).
Proof.
  assert (H : mount (Some (js "http://localhost:8000")) (stored sparse_payload)
              = Running app2)
    by (vm_compute; reflexivity).
  split; [exact H|]. exact (history_entries_dated _ _ _ actions0 H).
Defined.

Lemma act_in_flight_ok x ss :
  in_flight_ok (mounted ss) -> in_flight_ok (mounted (act x ss)).
Proof.
  intros H. destruct x as [ev|key shift| | |i o]; cbn [act mounted].
  - by apply step_in_flight_ok.
  - unfold handleKeyDown. destruct (_ && _); [by apply step_in_flight_ok|done].
  - done.
  - done.
  - by destruct (checks ss !! i).
Qed.

(** The flag and the outstanding requests of a session whose handlers
    read the live state. *)
Lemma perform_in_flight env w a0 xs :
  mount env w = Running a0 ->
  let a := mounted (perform xs (mkSession a0 [])) in
  (isLoading (state a) = true <-> outstanding a <> [])
  /\ (length (outstanding a) <= 1)%nat.
Proof.
  intros Hm. cbv zeta.
  assert (H : in_flight_ok (mounted (perform xs (mkSession a0 [])))).
  { apply (perform_invariant (fun ss => in_flight_ok (mounted ss))).
    - intros x ss. apply act_in_flight_ok.
    - by apply (mount_in_flight_ok env w). }
  destruct H as [[Hl ->]|[Hl [p ->]]]; rewrite Hl; cbn [length]; split; try lia;
    split; try done.
Qed.

(** *** Reloading the page *)

Lemma loadHistory_entries s w es :
  Forall (fun e => valid_time (QueryHistory.timestamp e)) es ->
  getItem history_key w
  = Some (JSON_stringify (history_toJSON (map object_of_entry es))) ->
  loadHistory s w = (setQueryHistory (map object_of_entry es) s, w).
Proof.
  intros Hv Hget.
  rewrite (loadHistory_array s w _ (map entry_json es) Hget).
  - by rewrite revive_all_entries.
  - rewrite history_toJSON_entries. apply JSON_parse_stringify, stable_entries.
Qed.

(** X25.  What an exchange saves is what the next page load shows: after
    an exchange answered with a non-empty string, with the write accepted
    and the clock on a time value a [Date] can hold, mounting the component
    again on the storage gives the same history, entry for entry, the new
    one in front. *)
Theorem exchange_survives_reload a es text r data reply_text env :
  idle a -> queryHistory (state a) = map object_of_entry es ->
  Forall (fun e => valid_time (QueryHistory.timestamp e)) es ->
  blank text = false ->
  ok r = true -> JSON_parse (Chat.text r) = Some data ->
  get_prop data (js "response") = Some (Some (JStr reply_text)) ->
  reply_text <> [] ->
  valid_time (clock (world a) (5 + ticks (world a))%nat) ->
  (forall v, write_refused (world a) v = false) ->
  let a' := run [Typed text; Submitted; Settled (Resolved r)] a in
  let e :=
    QueryHistory.mk (Z_toString (clock (world a) (4 + ticks (world a))%nat))
      (trim text) reply_text (clock (world a) (5 + ticks (world a))%nat) in
  queryHistory (state a') = map object_of_entry (take 50 (e :: es))
  /\ match mount env (world a') with
     | Running a'' => queryHistory (state a'') = queryHistory (state a')
     | Crashed _ _ => True
     end.
Proof.
  intros Hi Hq Hv Hb Hok Hp Hg Hne Hvt Hw. cbv zeta.
  assert (Hx : successful (mkExchange text r)).
  { split; [done|]. unfold reply. cbn [answer]. rewrite Hok, Hp.
    cbn [mbind option_bind]. rewrite Hg. by eexists. }
  pose proof (exchange_run a (mkExchange text r) Hi Hx) as (_ & _ & _ & _ & Hq' & Hst).
  cbv zeta in Hq', Hst.
  change (exchange_events (mkExchange text r))
    with [Typed text; Submitted; Settled (Resolved r)] in *.
  set (a' := run [Typed text; Submitted; Settled (Resolved r)] a) in *.
  assert (Hh : queryHistory (state a')
    = map object_of_entry
        (take 50 (QueryHistory.mk
                    (Z_toString (clock (world a) (4 + ticks (world a))%nat))
                    (trim text) reply_text
                    (clock (world a) (5 + ticks (world a))%nat) :: es))).
  { rewrite Hq', Hq, fmap_take. cbn [map]. f_equal. f_equal.
    unfold exchange_entry, object_of_entry, history_object, reply. cbn [typed answer
      QueryHistory.id QueryHistory.query QueryHistory.response QueryHistory.timestamp].
    rewrite Hok, Hp. cbn [mbind option_bind]. rewrite Hg. cbn [mbind option_bind default].
    rewrite (or_else_text reply_text _ Hne).
    by rewrite (Nat.add_comm (ticks (world a)) 4), (Nat.add_comm (ticks (world a)) 5). }
  split; [exact Hh|].
  specialize (Hst (Hw _)). rewrite Hh in Hst.
  assert (Hload : forall s0 w0, localStorage w0 = localStorage (world a') ->
    loadHistory s0 w0 = (setQueryHistory (queryHistory (state a')) s0, w0)).
  { intros s0 w0 Hl. rewrite Hh. apply loadHistory_entries.
    - apply Forall_take. by constructor.
    - unfold getItem in *. by rewrite Hl. }
  unfold mount, initial_state, mount_effect.
  rewrite Hload by (by destruct (env_missing env)).
  by destruct (env_missing env).
Qed.

(** The "Hello!" exchange, then a reload. *)
Lemma exchange_survives_reload_witness :
  idle app0 /\ blank (js "Hello!") = false
  /\ valid_time (clock (world app0) (5 + ticks (world app0))%nat)
  /\ match mount (Some (js "http://localhost:8000"))
             (world (run [Typed (js "Hello!"); Submitted;
                          Settled (Resolved (answer hello))] app0)) with
     | Running a'' =>
         queryHistory (state a'')
         = queryHistory
             (state (run [Typed (js "Hello!"); Submitted;
                          Settled (Resolved (answer hello))] app0))
     | Crashed _ _ => True
     end.
Proof.
  assert (H1 : idle app0) by (split; reflexivity).
  assert (H2 : blank (js "Hello!") = false) by (vm_compute; reflexivity).
  assert (H3 : valid_time (clock (world app0) (5 + ticks (world app0))%nat))
    by (vm_compute; split; discriminate).
  split; [exact H1|]. split; [exact H2|]. split; [exact H3|].
  assert (H4 : ok (answer hello) = true) by (vm_compute; reflexivity).
  assert (H5 : JSON_parse (text (answer hello)) = Some hello_data)
    by (vm_compute; reflexivity).
  assert (H6 : get_prop hello_data (js "response")
               = Some (Some (JStr (js "Hi there!"))))
    by (vm_compute; reflexivity).
  assert (H7 : js "Hi there!" <> []) by discriminate.
  assert (H8 : forall v, write_refused (world app0) v = false) by reflexivity.
  pose proof (exchange_survives_reload app0 [] (js "Hello!") (answer hello)
                hello_data (js "Hi there!") (Some (js "http://localhost:8000"))
                H1 eq_refl (Forall_nil_2 _) H2 H4 H5 H6 H7 H3 H8) as H.
  cbv zeta in H. destruct H as [_ H]. exact H.
Defined.

(** *** Renders *)

(** A handler of the render that shows the live state is the handler
    [act] calls. *)
Lemma call_fresh x ss : call (state (mounted ss)) x ss = act x ss.
Proof.
  destruct ss as [a cs]. destruct x as [ev|key shift| | |i o]; cbn [mounted].
  - by destruct ev.
  - unfold call, act, handleKeyDown. cbn [mounted checks].
    by destruct (_ && _).
  - done.
  - done.
  - done.
Qed.

Lemma tasks_app ts us v : tasks (ts ++ us) v = tasks us (tasks ts v).
Proof. unfold tasks. by rewrite foldl_app. Qed.

(** With a render after every call, the session is the one [perform]
    describes. *)
Lemma tasks_each_rendered xs : forall ss,
  tasks (each_rendered xs) (rendered ss) = rendered (perform xs ss).
Proof.
  induction xs as [|x xs IH]; intros ss; [done|].
  change (each_rendered (x :: xs)) with ([Call x; Render] ++ each_rendered xs).
  rewrite tasks_app, perform_cons, <- IH. f_equal.
  unfold tasks, rendered. cbn [foldl task shown session].
  by rewrite call_fresh.
Qed.

Lemma submit_in_shown_loading seen a :
  isLoading seen = true -> submit_in seen a = a.
Proof.
  intros H. unfold submit_in, handleSubmit_in. rewrite H, orb_true_r.
  destruct a. cbn. by rewrite app_nil_r.
Qed.

(** Whatever the renders, the flag is not set without a request
    outstanding. *)
Lemma call_flag seen x ss :
  (isLoading (state (mounted ss)) = true -> outstanding (mounted ss) <> []) ->
  isLoading (state (mounted (call seen x ss))) = true ->
  outstanding (mounted (call seen x ss)) <> [].
Proof.
  assert (Hsub : forall a,
    (isLoading (state a) = true -> outstanding a <> []) ->
    isLoading (state (submit_in seen a)) = true ->
    outstanding (submit_in seen a) <> []).
  { intros [s w out]. unfold submit_in, handleSubmit_in.
    cbn [state world outstanding]. destruct (_ || _).
    - cbn [state outstanding option_list]. by rewrite app_nil_r.
    - cbn [Date_now state outstanding option_list]. intros _ _.
      by destruct out. }
  destruct ss as [[s w out] cs].
  destruct x as [ev|key shift| | |i o]; cbn [call mounted checks].
  - destruct ev as [t| |o| |item]; try done.
    + apply Hsub.
    + cbn [act mounted step state world outstanding]. destruct out as [|p rest];
        [done|].
      pose proof (handleSubmit_settled_flag p o s w) as Hf.
      destruct (handleSubmit_settled p o s w) as [s' w'].
      cbn [fst state mounted] in *. congruence.
  - destruct (_ && _); [apply Hsub|done].
  - done.
  - done.
  - cbn [act mounted checks]. by destruct (cs !! i).
Qed.

Lemma tasks_flag ts : forall v,
  (isLoading (state (mounted (session v))) = true ->
   outstanding (mounted (session v)) <> []) ->
  isLoading (state (mounted (session (tasks ts v)))) = true ->
  outstanding (mounted (session (tasks ts v))) <> [].
Proof.
  induction ts as [|t ts IH]; intros v H; [done|].
  change (tasks (t :: ts) v) with (tasks ts (task t v)). apply IH.
  destruct t as [x|]; cbn [task session]; [by apply call_flag|done].
Qed.

(** X21.  Once mounted on a backend URL, and with a render after every
    handler call (as after every event the browser delivers), the
    component sends nothing but the conversation and health checks to that
    URL: the POST requests are, in order, one for each user message of the
    conversation, each carrying that message and exactly the messages
    before it as [history]; every other request is the GET of [/health]. *)
Theorem requests_follow_conversation env w a0 xs :
  mount env w = Running a0 ->
  let a :=
    mounted (session (tasks (each_rendered xs) (rendered (mkSession a0 [])))) in
  exists u new,
    env = Some u /\ u <> []
    /\ requests (world a) = requests w ++ new
    /\ List.filter is_post new = sent u [] (messages (state a))
    /\ Forall (fun r => is_post r = false -> r = health_request u) new.
Proof.
  intros Hm. cbv zeta. rewrite tasks_each_rendered. cbn [rendered session].
  exact (perform_requests env w a0 xs Hm).
Qed.

(** The session of [actions0]: one POST for its one user message. *)
Lemma requests_follow_conversation_witness :
  mount (Some (js "http://localhost:8000")) world0 = Running app0
  /\ exists new,
       requests (world (mounted (session
         (tasks (each_rendered actions0) (rendered session0))))) = new
       /\ List.filter is_post new
          = sent (js "http://localhost:8000") []
              (messages (state (mounted (session
                 (tasks (each_rendered actions0) (rendered session0)))))).
Proof.
  assert (H : mount (Some (js "http://localhost:8000")) world0 = Running app0)
    by (vm_compute; reflexivity).
  split; [exact H|].
  destruct (requests_follow_conversation _ _ _ actions0 H)
    as (u & new & Hu & _ & Hr & Hs & _).
  injection Hu as <-. exists new. split; [exact Hr|exact Hs].
Defined.

(** X24.  After a successful mount: whatever the handler calls and
    renders, the in-flight flag is never set without a chat request
    outstanding, and a submission from a render that shows the flag set
    changes nothing.  With a render after every handler call (as after
    every event the browser delivers), the flag is set exactly while a chat
    request is outstanding, and there is never more than one. *)
Theorem loading_while_outstanding env w a0 :
  mount env w = Running a0 ->
  (forall ts,
     let a := mounted (session (tasks ts (rendered (mkSession a0 [])))) in
     isLoading (state a) = true -> outstanding a <> [])
  /\ (forall v,
      isLoading (shown v) = true ->
      task (Call (Handled Submitted)) v = v
      /\ task (Call (KeyDown (js "Enter") false)) v = v)
  /\ (forall xs,
      let a :=
        mounted (session (tasks (each_rendered xs) (rendered (mkSession a0 [])))) in
      (isLoading (state a) = true <-> outstanding a <> [])
      /\ (length (outstanding a) <= 1)%nat).
Proof.
  intros Hm. split; [|split].
  - intros ts. cbv zeta. apply tasks_flag. cbn [rendered session mounted].
    destruct (mount_running env w a0 Hm) as (u & _ & _ & _ & _ & _ & _ & _ & Hl).
    congruence.
  - intros [seen [a cs]] Hl. cbn [shown] in Hl.
    unfold task. cbn [shown session call mounted checks].
    assert (E : str_eqb (js "Enter") (js "Enter") && negb false = true)
      by reflexivity.
    by rewrite E, (submit_in_shown_loading seen a Hl).
  - intros xs. cbv zeta. rewrite tasks_each_rendered. cbn [rendered session].
    exact (perform_in_flight env w a0 xs Hm).
Qed.

(** The session of [actions0]. *)
Lemma loading_while_outstanding_witness :
  mount (Some (js "http://localhost:8000")) world0 = Running app0
  /\ (isLoading (state (mounted (session
         (tasks (each_rendered actions0) (rendered session0))))) = true
      <-> outstanding (mounted (session
            (tasks (each_rendered actions0) (rendered session0)))) <> []).
Proof.
  assert (H : mount (Some (js "http://localhost:8000")) world0 = Running app0)
    by (vm_compute; reflexivity).
  split; [exact H|].
  destruct (loading_while_outstanding _ _ _ H) as (_ & _ & H3).
  exact (proj1 (H3 actions0)).
Defined.

